(** * termvid: playing a video as coloured text in a terminal

    A shallow embedding of [main.py] and the properties of its rendering,
    playback and save steps.

    Conventions of the embedding.
    - A Python [float] (and a NumPy [float64]) is an IEEE 754 binary64 number,
      modelled by the Standard Library's [spec_float] with [prec = 53] and
      [emax = 1024]; its operations are the correctly rounded ones.
    - A raised exception is a value [Raise e] of the type [result]; effectful
      code threads a [world] (file system, clock, trace of effects).
    - OpenCV is a collaborator: [cv2.resize] and the grey conversion are the
      fields of the interface [Cv2.api], together with the part of their
      documented behaviour that the program relies on.
    - Everything the program cannot decide by itself (what the decoder
      yields, the clock, the terminal, the user, the child processes) is a
      field of the environment [Sys.env]. *)

From Stdlib Require Import ZArith List String Ascii Bool Lia DecimalString.
From Stdlib Require DecimalZ DecimalPos.
From Stdlib Require Import Floats.SpecFloat.
From stdpp Require Import base option list gmap strings.

Local Open Scope string_scope.
Local Open Scope list_scope.
Local Open Scope Z_scope.

(** ** Exceptions and results *)

Inductive exn : Type :=
| IndexError
| ValueError
| OverflowError
| ZeroDivisionError
| EOFError
| FileNotFoundError
| IsADirectoryError
| NotADirectoryError
| FileExistsError
| OSError
| Cv2Error.

Inductive result (A : Type) : Type :=
| Ok (a : A)
| Raise (e : exn).
Arguments Ok {A} a.
Arguments Raise {A} e.

Definition rbind {A B} (r : result A) (k : A -> result B) : result B :=
  match r with
  | Ok a => k a
  | Raise e => Raise e
  end.

#[global] Instance result_ret : MRet result := fun A a => Ok a.
#[global] Instance result_bind : MBind result := fun A B k r => rbind r k.

(** ** Python floats *)

Module PyFloat.

Definition prec : Z := 53.
Definition emax : Z := 1024.

Definition float : Type := spec_float.

(** [float(n)] for a Python integer [n]: the nearest binary64 number. *)
Definition of_int (n : Z) : float := binary_normalize prec emax n 0 false.

Definition mul (x y : float) : float := SFmul prec emax x y.
Definition sub (x y : float) : float := SFsub prec emax x y.
Definition div (x y : float) : float := SFdiv prec emax x y.
Definition ltb (x y : float) : bool := SFltb x y.
Definition leb (x y : float) : bool := SFleb x y.
Definition eqb (x y : float) : bool := SFeqb x y.

(** [np.isnan] *)
Definition isnan (x : float) : bool :=
  match x with S754_nan => true | _ => false end.

(** Python's [x / y] on floats raises on a zero divisor; NumPy's does not. *)
Definition truediv (x y : float) : result float :=
  if eqb y (of_int 0) then Raise ZeroDivisionError else Ok (div x y).

(** [int(x)]: truncation towards zero; raises on NaN and on the infinities. *)
Definition to_int (x : float) : result Z :=
  match x with
  | S754_zero _ => Ok 0
  | S754_finite s m e => Ok (cond_Zopp s (Z.shiftl (Z.pos m) e))
  | S754_infinity _ => Raise OverflowError
  | S754_nan => Raise ValueError
  end.

End PyFloat.

(** ** Strings as Python sees them *)

Module PyStr.

(** [s[i]]: a negative index counts from the end, anything else out of range
    raises [IndexError]. *)
Definition getitem (s : string) (i : Z) : result ascii :=
  let n := Z.of_nat (String.length s) in
  let j := if i <? 0 then i + n else i in
  if (0 <=? j) && (j <? n) then
    match String.get (Z.to_nat j) s with
    | Some c => Ok c
    | None => Raise IndexError
    end
  else Raise IndexError.

(** [str(n)] for an integer. *)
Definition of_int (n : Z) : string := NilZero.string_of_int (Z.to_int n).

Definition chr (n : nat) : string := String (ascii_of_nat n) EmptyString.

End PyStr.

(** ** The glyph mapper *)

Module Glyph.

Import PyFloat.

(** [ascii_chars = " .:-=+*#%@"], sparsest to densest. *)
Definition ascii_chars : string := " .:-=+*#%@".

(** [int(brightness / 256 * len(ascii_chars))], where [brightness] is an
    8-bit grey level of a NumPy array: the quotient is NumPy's true
    division, a [float64], and so is the product. *)
Definition glyph_index (brightness : Z) : result Z :=
  to_int (mul (div (of_int brightness) (of_int 256))
              (of_int (Z.of_nat (String.length ascii_chars)))).

(** [ascii_chars[int(brightness / 256 * len(ascii_chars))]] *)
Definition glyph_char (brightness : Z) : result ascii :=
  i ← glyph_index brightness; PyStr.getitem ascii_chars i.

(** The spec's reading of the same index: [floor(b / 256 * N)] over the
    rationals, that is [floor(b * N / 256)]. *)
Definition spec_index (brightness : Z) : Z :=
  brightness * Z.of_nat (String.length ascii_chars) / 256.

Definition brightness_values : list Z := Z.of_nat <$> seq 0 256.

(** The ramp character the specification selects. *)
Definition spec_char (brightness : Z) : ascii :=
  default " "%char (String.get (Z.to_nat (spec_index brightness)) ascii_chars).

(** The check of one brightness value: the index is the specification's,
    it lies within the ramp, and the lookup yields the ramp character. *)
Definition index_in_range (b : Z) : bool :=
  match glyph_index b, glyph_char b with
  | Ok i, Ok c =>
      (0 <=? i) && (i <? Z.of_nat (String.length ascii_chars)) &&
      (i =? spec_index b) && Ascii.eqb c (spec_char b)
  | _, _ => false
  end.

End Glyph.

(** ** Loops *)

(** [for x in xs: s = body(x, s)]: the loop state is threaded through the
    iterations and the loop is left at the first exception. *)
Fixpoint for_each {A S} (body : A -> S -> result S) (xs : list A) (s : S)
  : result S :=
  match xs with
  | [] => Ok s
  | x :: xs' => s' ← body x s; for_each body xs' s'
  end.

(** [range(n)] *)
Definition range (n : nat) : list nat := seq 0 n.

(** ** Images and OpenCV *)

Module Cv2.

(** A pixel in OpenCV's channel order: blue, green, red. *)
Definition pixel : Type := Z * Z * Z.

(** A two-dimensional array, as a list of rows. *)
Abbreviation image A := (list (list A)) (only parsing).
Abbreviation frame := (list (list pixel)) (only parsing).

(** [a.shape[0]] and [a.shape[1]] *)
Definition shape0 {A} (a : image A) : nat := length a.
Definition shape1 {A} (a : image A) : nat :=
  match a with [] => 0%nat | row :: _ => length row end.

(** [a] has [h] rows of [w] entries each. *)
Definition has_shape {A} (h w : nat) (a : image A) : Prop :=
  length a = h /\ Forall (fun row => length row = w) a.

(** [a[y, x]] *)
Definition getitem {A} (a : image A) (y x : nat) : result A :=
  match a !! y with
  | Some row =>
      match row !! x with
      | Some v => Ok v
      | None => Raise IndexError
      end
  | None => Raise IndexError
  end.

(** [a[y, x] = v] *)
Definition setitem {A} (a : image A) (y x : nat) (v : A) : result (image A) :=
  match a !! y with
  | Some row =>
      if decide (x < length row)%nat then Ok (<[y := <[x := v]> row]> a)
      else Raise IndexError
  | None => Raise IndexError
  end.

(** [np.zeros_like(a)] *)
Definition zeros_like (a : frame) : frame :=
  (fun row : list pixel => (fun _ => (0, 0, 0)) <$> row) <$> a.

(** What the program needs from OpenCV. [resize f w h] is
    [cv2.resize(f, (w, h))]; [bgr2gray] is what [COLOR_BGR2GRAY] does to one
    pixel. The laws are the documented behaviour the program relies on:
    the destination has the requested size, an empty destination size is an
    error, and a grey level is an 8-bit value. Nothing is promised about
    when [cv2.resize] returns: it raises on a size that does not fit a C
    [int], and when the destination cannot be allocated. *)
Record api : Type := {
  resize : frame -> Z -> Z -> result frame;
  bgr2gray : pixel -> Z;
  resize_shape : forall f w h g,
    resize f w h = Ok g -> has_shape (Z.to_nat h) (Z.to_nat w) g;
  resize_empty_dsize : forall f w h,
    w <= 0 \/ h <= 0 -> resize f w h = Raise Cv2Error;
  bgr2gray_range : forall p, 0 <= bgr2gray p <= 255
}.

(** [cv2.cvtColor(f, cv2.COLOR_BGR2GRAY)] *)
Definition cvtColor_gray (cv : api) (f : frame) : image Z :=
  (fun row : list pixel => bgr2gray cv <$> row) <$> f.

(** *** A reference implementation of the interface

    Nearest-neighbour sampling, and OpenCV's 8-bit fixed-point form of
    [0.299 R + 0.587 G + 0.114 B]. The destination size is a pair of C
    [int]s: a width or a height of [2^31] or more is refused, like an empty
    size and an empty source. *)

Definition clamp8 (z : Z) : Z := Z.max 0 (Z.min 255 z).

Definition gray_fixed (p : pixel) : Z :=
  let '(b, g, r) := p in
  Z.shiftr (clamp8 b * 3735 + clamp8 g * 19235 + clamp8 r * 9798 + 16384) 15.

Definition sample (f : frame) (y x : nat) : pixel :=
  match f !! y with
  | Some row => default (0, 0, 0) (row !! x)
  | None => (0, 0, 0)
  end.

Definition nearest (f : frame) (w h : Z) : result frame :=
  if decide (w <= 0 \/ h <= 0 \/ 2 ^ 31 <= w \/ 2 ^ 31 <= h \/
             shape0 f = 0%nat \/ shape1 f = 0%nat)
  then Raise Cv2Error
  else
    let dh := Z.to_nat h in
    let dw := Z.to_nat w in
    Ok ((fun y => (fun x => sample f (y * shape0 f / dh) (x * shape1 f / dw))
                    <$> seq 0 dw) <$> seq 0 dh).

End Cv2.

(** ** The frame rasterizer *)

Module Raster.

Import Cv2.

Definition ESC : string := PyStr.chr 27.
Definition NL : string := PyStr.chr 10.

(** [colorama.Style.RESET_ALL] *)
Definition RESET_ALL : string := ESC +:+ "[0m".

(** The solid block U+2588, as its three UTF-8 bytes. *)
Definition BLOCK : string := PyStr.chr 226 +:+ PyStr.chr 150 +:+ PyStr.chr 136.

(** The f-string prefix of a cell: [\033[38;2;{r};{g};{b}m] *)
Definition fg (r g b : Z) : string :=
  ESC +:+ "[38;2;" +:+ PyStr.of_int r +:+ ";" +:+ PyStr.of_int g +:+ ";"
      +:+ PyStr.of_int b +:+ "m".

Definition frame_to_ascii_colored (cv : api) (frame : frame)
    (term_width term_height : Z) : result string :=
  frame ← resize cv frame term_width (term_height - 2);
  let gray := cvtColor_gray cv frame in
  for_each (fun y output =>
      output ← for_each (fun x output =>
          '(b, g, r) ← getitem frame y x;
          brightness ← getitem gray y x;
          c ← Glyph.glyph_char brightness;
          Ok (output +:+ (fg r g b +:+ String c "")))
        (range (shape1 gray)) output;
      Ok (output +:+ (RESET_ALL +:+ NL)))
    (range (shape0 gray)) "".

Definition frame_to_colored_blocks (cv : api) (frame : frame)
    (term_width term_height : Z) : result string :=
  frame ← resize cv frame term_width (term_height - 2);
  for_each (fun y output =>
      output ← for_each (fun x output =>
          '(b, g, r) ← getitem frame y x;
          Ok (output +:+ (fg r g b +:+ BLOCK)))
        (range (shape1 frame)) output;
      Ok (output +:+ (RESET_ALL +:+ NL)))
    (range (shape0 frame)) "".

(** *** The render grid of the specification *)

(** A glyph cell: a character and an RGB colour. *)
Record cell : Type := Cell { glyph : string; red : Z; green : Z; blue : Z }.

(** The glyph mapper of the specification, ASCII mode: the ramp character
    at [floor(brightness / 256 * N)], coloured with the pixel's own RGB. *)
Definition ascii_cell (cv : api) (p : pixel) : cell :=
  let '(b, g, r) := p in
  Cell (String (Glyph.spec_char (bgr2gray cv p)) "") r g b.

(** Block mode: always the solid block, coloured with the pixel's RGB. *)
Definition block_cell (p : pixel) : cell :=
  let '(b, g, r) := p in Cell BLOCK r g b.

(** The terminal presenter's text for a grid, written as the terminal
    reads it and not with the rasterizer's own pieces: per row the cells,
    each with its colour sequence, then the reset sequence and a line
    break. *)
Definition join_text {A} (text : A -> string) (l : list A) : string :=
  foldr (fun a acc => text a +:+ acc) "" l.

(** A number in decimal. *)
Definition decimal (n : Z) : string := NilZero.string_of_int (Z.to_int n).

(** The sequence that sets the foreground colour: the escape character,
    [[38;2;], the red, green and blue levels separated by [;], and [m]. *)
Definition colour_text (r g b : Z) : string :=
  String (ascii_of_nat 27) "[38;2;" +:+ decimal r +:+ ";" +:+ decimal g
    +:+ ";" +:+ decimal b +:+ "m".

(** The sequence that resets the colours, and the line break after it. *)
Definition end_of_row : string :=
  String (ascii_of_nat 27) ("[0m" +:+ String (ascii_of_nat 10) "").

Definition cell_text (c : cell) : string :=
  colour_text (red c) (green c) (blue c) +:+ glyph c.

Definition row_text (row : list cell) : string :=
  join_text cell_text row +:+ end_of_row.

Definition grid_text (grid : list (list cell)) : string :=
  join_text row_text grid.

(** The render grid of a resized frame, cell by cell. *)
Definition ascii_grid (cv : api) (f : frame) : list (list cell) :=
  (fun row : list pixel => ascii_cell cv <$> row) <$> f.

Definition block_grid (f : frame) : list (list cell) :=
  (fun row : list pixel => block_cell <$> row) <$> f.

End Raster.

(** ** The world around the program *)

Module Sys.

Import PyFloat.

(** A Python number that is either an [int] or a [float]: the frame rate is
    the decoder's float or the integer fallback. *)
Inductive pynum : Type :=
| PInt (n : Z)
| PFloat (x : float).

(** [1 / fps] *)
Definition one_over (fps : pynum) : result float :=
  match fps with
  | PInt n => if n =? 0 then Raise ZeroDivisionError
              else Ok (div (of_int 1) (of_int n))
  | PFloat x => truediv (of_int 1) x
  end.

Inductive node : Type := File | Dir.

(** One argument of a child's command line; [Str n] is [str(n)]. *)
Inductive arg : Type :=
| Lit (s : string)
| Str (n : pynum).

(** How a child process ends: [subprocess.run] itself raises, or the child
    exits with a code, having written its output file or not. *)
Inductive outcome : Type :=
| NotRun (e : exn)
| Exited (code : Z) (wrote : bool).

Inductive event : Type :=
| Print (text : string)
| Input
| Sleep (delay : float)
| Run (argv : list arg)
| Thread (argv : list arg)
| MakeDirs (path : string)
| ImWrite (path : string) (img : Cv2.frame)
| RmTree (path : string)
| Remove (path : string).

(** What the program cannot decide by itself. *)
Record env : Type := {
  (** [shutil.get_terminal_size]: columns and lines *)
  terminal_size : Z * Z;
  (** [cap.get(cv2.CAP_PROP_FPS)] and [cap.get(cv2.CAP_PROP_FRAME_COUNT)] *)
  prop_fps : float;
  prop_frame_count : float;
  (** what the successive [cap.read()] yield: [Some f] is [(True, f)],
      [None] is [(False, None)], as is every read past the end *)
  reads : list (option Cv2.frame);
  (** the n-th reading of [time.perf_counter()] *)
  clock : nat -> float;
  (** the line [input()] returns, [None] at the end of the input *)
  stdin : option string;
  (** how the child run with a given command line ends *)
  child : list arg -> outcome
}.

Record world : Type := {
  fs : gmap string node;
  ticks : nat;
  trace : list event
}.

Definition M (A : Type) : Type := world -> result A * world.

#[global] Instance M_ret : MRet M := fun A a w => (Ok a, w).
#[global] Instance M_bind : MBind M := fun A B k m w =>
  match m w with
  | (Ok a, w') => k a w'
  | (Raise e, w') => (Raise e, w')
  end.

(** The world after [n] more readings of the clock and some more events. *)
Definition advance (w : world) (n : nat) (events : list event) : world :=
  {| fs := fs w; ticks := ticks w + n; trace := trace w ++ events |}.

(** A computation started in a world that satisfies [P] ends, with a value
    or an exception, in a world that satisfies [Q]. *)
Definition triple {A} (P : world -> Prop) (m : M A)
    (Q : result A -> world -> Prop) : Prop :=
  forall w, P w -> Q (m w).1 (m w).2.

Definition lift {A} (r : result A) : M A := fun w => (r, w).
Definition raise {A} (e : exn) : M A := fun w => (Raise e, w).

(** The classes of reported frame rates the specification distinguishes. *)
Definition is_zero (x : float) : bool := eqb x (of_int 0).
Definition is_negative (x : float) : bool := ltb x (of_int 0).
Definition is_positive_finite (x : float) : bool :=
  ltb (of_int 0) x && negb (eqb x (S754_infinity false)).

(** The events that write to the file system, and those that start a child. *)
Definition writes_files (e : event) : bool :=
  match e with
  | MakeDirs _ | ImWrite _ _ | RmTree _ | Remove _ => true
  | _ => false
  end.

Definition starts_child (e : event) : bool :=
  match e with
  | Run _ | Thread _ => true
  | _ => false
  end.

Definition emit (e : event) : M unit := fun w =>
  (Ok tt, {| fs := fs w; ticks := ticks w; trace := trace w ++ [e] |}).

Definition get_fs : M (gmap string node) := fun w => (Ok (fs w), w).
Definition put_fs (f : gmap string node) : M unit := fun w =>
  (Ok tt, {| fs := f; ticks := ticks w; trace := trace w |}).

(** [print(text, end="")] *)
Definition print_ (text : string) : M unit := emit (Print text).
(** [print(text)] *)
Definition print (text : string) : M unit := emit (Print (text +:+ Raster.NL)).

(** [a] is [d] or lies below the directory [d], for paths in the normal
    form in which the keys of the file system are kept (relative to the
    working directory, without [.], [..] or empty components). *)
Definition below (d a : string) : bool :=
  String.eqb d a || String.prefix (d +:+ "/") a.

Section Effects.

Variable E : env.

(** [time.perf_counter()] *)
Definition perf_counter : M float := fun w =>
  (Ok (clock E (ticks w)),
   {| fs := fs w; ticks := S (ticks w); trace := trace w |}).

(** [time.sleep(delay)] *)
Definition sleep (delay : float) : M unit := emit (Sleep delay).

(** [input()] *)
Definition input : M string :=
  emit Input;;
  match stdin E with
  | Some line => mret line
  | None => raise EOFError
  end.

(** Writing the file [path]: nothing can be written where a directory is. *)
Definition write_file (path : string) : M unit :=
  f ← get_fs;
  match f !! path with
  | Some Dir => mret tt
  | _ => put_fs (<[path := File]> f)
  end.

(** [subprocess.run(argv, ...)] of a child whose output file is [out]. *)
Definition run (argv : list arg) (out : string) : M unit :=
  emit (Run argv);;
  match child E argv with
  | NotRun e => raise e
  | Exited _ wrote => if wrote then write_file out else mret tt
  end.

(** [os.makedirs(path, exist_ok=True)] *)
Definition makedirs (path : string) : M unit :=
  emit (MakeDirs path);;
  f ← get_fs;
  match f !! path with
  | Some File => raise FileExistsError
  | _ => put_fs (<[path := Dir]> f)
  end.

(** [cv2.imwrite(path, img)]: a failure to write is reported by the return
    value, which the program ignores. *)
Definition imwrite (path : string) (img : Cv2.frame) : M unit :=
  emit (ImWrite path img);;
  write_file path.

(** [shutil.rmtree(path)] *)
Definition rmtree (path : string) : M unit :=
  emit (RmTree path);;
  f ← get_fs;
  match f !! path with
  | Some Dir => put_fs (filter (fun kv => below path kv.1 = false) f)
  | Some File => raise NotADirectoryError
  | None => raise FileNotFoundError
  end.

(** [os.remove(path)] *)
Definition remove (path : string) : M unit :=
  emit (Remove path);;
  f ← get_fs;
  match f !! path with
  | Some File => put_fs (delete path f)
  | Some Dir => raise IsADirectoryError
  | None => raise FileNotFoundError
  end.

(** [get_terminal_resolution()] *)
Definition get_terminal_resolution : Z * Z :=
  let size := terminal_size E in
  (Z.max 1 size.1, Z.max 1 size.2).

(** [fps = cap.get(cv2.CAP_PROP_FPS)], then the fallback
    [if fps <= 0 or np.isnan(fps): fps = 30]. *)
Definition effective_fps : pynum :=
  let fps := prop_fps E in
  if leb fps (of_int 0) || isnan fps then PInt 30 else PFloat fps.

(** The frame interval of [play_video]: [1 / fps] after the fallback. *)
Definition frame_interval : result float := one_over effective_fps.

(** [extract_audio(input_path, output_audio)] *)
Definition extract_audio (input_path output_audio : string) : M string :=
  run [Lit "ffmpeg"; Lit "-y"; Lit "-i"; Lit input_path;
       Lit "-vn"; Lit "-acodec"; Lit "aac"; Lit "-filter:a"; Lit "volume=0.5";
       Lit output_audio] output_audio;;
  mret output_audio.

(** The command line of [play_audio(path)]. *)
Definition play_audio (path : string) : list arg :=
  [Lit "ffplay"; Lit "-nodisp"; Lit "-autoexit"; Lit "-loglevel"; Lit "quiet";
   Lit "-volume"; Lit "100"; Lit path].

(** [cap.read()]: the frame if there is one, and the capture after it. *)
Definition cap_read (cap : list (option Cv2.frame))
  : option Cv2.frame * list (option Cv2.frame) :=
  match cap with
  | [] => (None, [])
  | r :: cap' => (r, cap')
  end.

End Effects.

(** [range(n)] for a Python integer. *)
Definition range_int (n : Z) : list Z := Z.of_nat <$> seq 0 (Z.to_nat n).

End Sys.

(** ** Playback *)

Module Player.

Import PyFloat Sys.

Section Playback.

Variable cv : Cv2.api.
Variable E : env.

(** The text that clears the screen and homes the cursor. *)
Definition clear_text : string := Raster.ESC +:+ "[H" +:+ Raster.ESC +:+ "[J".

(** [clear_terminal()] *)
Definition clear_terminal : M unit := print_ clear_text.

(** The text of one frame, in the mode chosen on the command line. *)
Definition rasterize (use_ascii : bool) (frame : Cv2.frame)
    (term_width term_height : Z) : result string :=
  if use_ascii then Raster.frame_to_ascii_colored cv frame term_width term_height
  else Raster.frame_to_colored_blocks cv frame term_width term_height.

(** The body of [for i in range(frame_count)]: [idx] is what remains of the
    range and [cap] the state of the capture. *)
Fixpoint play_frames (use_ascii : bool) (frame_time start_time : float)
    (term_width term_height : Z) (idx : list Z)
    (cap : list (option Cv2.frame)) : M unit :=
  match idx with
  | [] => mret tt
  | i :: idx' =>
      match cap_read cap with
      | (None, _) => mret tt
      | (Some frame, cap') =>
          let target_time := mul (of_int i) frame_time in
          t ← perf_counter E;
          let now := sub t start_time in
          let delay := sub target_time now in
          (if ltb (of_int 0) delay then sleep delay else mret tt);;
          clear_terminal;;
          text ← lift (rasterize use_ascii frame term_width term_height);
          print text;;
          play_frames use_ascii frame_time start_time term_width term_height
                      idx' cap'
      end
  end.

Definition play_video (path : string) (use_ascii : bool) : M bool :=
  let cap := reads E in
  let fps := effective_fps E in
  frame_time ← lift (one_over fps);
  frame_count ← lift (to_int (prop_frame_count E));
  let '(term_width, term_height) := get_terminal_resolution E in
  audio_path ← extract_audio E path "temp_audio.aac";
  start_time ← perf_counter E;
  emit (Thread (play_audio audio_path));;
  play_frames use_ascii frame_time start_time term_width term_height
              (range_int frame_count) cap;;
  remove audio_path;;
  mret use_ascii.

(** *** The playback clock of the specification *)

(** The wait before frame [i] when the clock reads [t]: with
    [delay = i * frame_time - (t - start_time)], a sleep of exactly [delay]
    if [delay > 0], nothing otherwise. *)
Definition wait_events (frame_time start_time : float) (i : Z) (t : float)
  : list event :=
  let delay := sub (mul (of_int i) frame_time) (sub t start_time) in
  if ltb (of_int 0) delay then [Sleep delay] else [].

(** Presenting frame [i]: the wait, the clearing of the screen, the text. *)
Definition present_events (frame_time start_time : float) (i : Z) (t : float)
    (text : string) : list event :=
  wait_events frame_time start_time i t
  ++ [Print clear_text; Print (text +:+ Raster.NL)].

(** Presenting the texts of the frames [first], [first + 1], ... one after
    the other, the clock being read for the [tick]-th time at the first of
    them. *)
Definition schedule (frame_time start_time : float) (tick first : nat)
    (texts : list string) : list event :=
  concat (imap (fun j text =>
                  present_events frame_time start_time (Z.of_nat (first + j))
                                 (clock E (tick + j)) text) texts).

(** The frames a loop of [n] iterations gets from the capture: those read
    before the first read that fails. *)
Fixpoint shown (n : nat) (cap : list (option Cv2.frame)) : list Cv2.frame :=
  match n, cap with
  | S n', Some f :: cap' => f :: shown n' cap'
  | _, _ => []
  end.

(** The texts printed so far. *)
Definition printed (w : world) : list string :=
  omap (fun e => match e with Print text => Some text | _ => None end) (trace w).

(** The claim that a failed read only skips its frame: every frame that the
    decoder yields at an index below the frame count is presented. *)
Definition skips_failed_reads (path : string) (use_ascii : bool) (w : world)
  : Prop :=
  forall (j : nat) (f : Cv2.frame) (text : string) (n : Z),
    to_int (prop_frame_count E) = Ok n ->
    (Z.of_nat j < n) ->
    reads E !! j = Some (Some f) ->
    rasterize use_ascii f (get_terminal_resolution E).1
              (get_terminal_resolution E).2 = Ok text ->
    (text +:+ Raster.NL) ∈ printed (play_video path use_ascii w).2.

End Playback.

End Player.

(** ** Text and paths *)

Module PyText.

(** A [str] is held as its UTF-8 encoding. The white space of [str.isspace],
    which [str.strip] removes, is the code points U+0009 to U+000D and
    U+001C to U+0020 (one byte each), U+0085 and U+00A0 (two bytes), U+1680,
    U+2000 to U+200A, U+2028, U+2029, U+202F, U+205F and U+3000 (three
    bytes). *)

(** The white space of one byte. *)
Definition is_space (c : ascii) : bool :=
  let n := nat_of_ascii c in
  ((9 <=? n) && (n <=? 13) || (28 <=? n) && (n <=? 32))%nat.

(** The white space of two bytes: [C2 85] and [C2 A0]. *)
Definition is_space2 (c1 c2 : ascii) : bool :=
  let n1 := nat_of_ascii c1 in
  let n2 := nat_of_ascii c2 in
  ((n1 =? 194) && ((n2 =? 133) || (n2 =? 160)))%nat.

(** The white space of three bytes: [E1 9A 80], [E2 80 80] to [E2 80 8A],
    [E2 80 A8], [E2 80 A9], [E2 80 AF], [E2 81 9F] and [E3 80 80]. *)
Definition is_space3 (c1 c2 c3 : ascii) : bool :=
  let n1 := nat_of_ascii c1 in
  let n2 := nat_of_ascii c2 in
  let n3 := nat_of_ascii c3 in
  ((n1 =? 225) && (n2 =? 154) && (n3 =? 128)
   || (n1 =? 226) && (n2 =? 128)
      && ((128 <=? n3) && (n3 <=? 138)
          || (n3 =? 168) || (n3 =? 169) || (n3 =? 175))
   || (n1 =? 226) && (n2 =? 129) && (n3 =? 159)
   || (n1 =? 227) && (n2 =? 128) && (n3 =? 128))%nat.

(** [s.lstrip()] *)
Fixpoint lstrip (s : string) : string :=
  match s with
  | String c1 s1 =>
      if is_space c1 then lstrip s1
      else
        match s1 with
        | String c2 s2 =>
            if is_space2 c1 c2 then lstrip s2
            else
              match s2 with
              | String c3 s3 => if is_space3 c1 c2 c3 then lstrip s3 else s
              | EmptyString => s
              end
        | EmptyString => s
        end
  | EmptyString => EmptyString
  end.

(** The same on a text read backwards, where the last byte of a character
    comes first. *)
Fixpoint lstrip_backwards (s : string) : string :=
  match s with
  | String c1 s1 =>
      if is_space c1 then lstrip_backwards s1
      else
        match s1 with
        | String c2 s2 =>
            if is_space2 c2 c1 then lstrip_backwards s2
            else
              match s2 with
              | String c3 s3 =>
                  if is_space3 c3 c2 c1 then lstrip_backwards s3 else s
              | EmptyString => s
              end
        | EmptyString => s
        end
  | EmptyString => EmptyString
  end.

(** [s.strip()] *)
Definition strip (s : string) : string :=
  String.rev (lstrip_backwards (String.rev (lstrip s))).

Definition lower_char (c : ascii) : ascii :=
  let n := nat_of_ascii c in
  if ((65 <=? n) && (n <=? 90))%nat then ascii_of_nat (n + 32) else c.

(** [s.lower()] on the letters of ASCII; the other bytes are kept. The
    program only compares the result with [y], and no character outside
    ASCII has [y] as its lower case. *)
Fixpoint lower (s : string) : string :=
  match s with
  | String c s' => String (lower_char c) (lower s')
  | EmptyString => EmptyString
  end.

(** [(p[:i], p[i:])] for [i = p.rfind('/') + 1]. *)
Fixpoint rsplit (p : string) : string * string :=
  match p with
  | EmptyString => ("", "")
  | String c p' =>
      let '(head, tail) := rsplit p' in
      if String.eqb head "" then
        if Ascii.eqb c "/" then ("/", p') else ("", String c p')
      else (String c head, tail)
  end.

Fixpoint all_slashes (s : string) : bool :=
  match s with
  | String c s' => Ascii.eqb c "/" && all_slashes s'
  | EmptyString => true
  end.

Fixpoint lstrip_slashes (s : string) : string :=
  match s with
  | String c s' => if Ascii.eqb c "/" then lstrip_slashes s' else s
  | EmptyString => EmptyString
  end.

(** [os.path.basename] *)
Definition basename (p : string) : string := (rsplit p).2.

(** [os.path.dirname] *)
Definition dirname (p : string) : string :=
  let head := (rsplit p).1 in
  if all_slashes head then head
  else String.rev (lstrip_slashes (String.rev head)).

Definition ends_with_slash (s : string) : bool :=
  match String.rev s with
  | String c _ => Ascii.eqb c "/"
  | EmptyString => false
  end.

(** [os.path.join(a, b)] *)
Definition join (a b : string) : string :=
  if String.prefix "/" b then b
  else if String.eqb a "" || ends_with_slash a then a +:+ b
  else a +:+ "/" +:+ b.

(** [f"{i:04}"] *)
Definition fmt04 (i : nat) : string :=
  let digits := PyStr.of_int (Z.of_nat i) in
  String.concat "" (replicate (4 - String.length digits) "0") +:+ digits.

End PyText.

(** ** The save step *)

Module Saver.

Import PyFloat Sys.

Section Save.

Variable cv : Cv2.api.
Variable E : env.

(** The branch [if use_ascii:] of the loop: the canvas that replaces the
    resized frame in ASCII mode. *)
Definition ascii_canvas (frame : Cv2.frame) : result Cv2.frame :=
  let gray := Cv2.cvtColor_gray cv frame in
  let canvas := Cv2.zeros_like frame in
  for_each (fun y canvas =>
      for_each (fun x canvas =>
          brightness ← Cv2.getitem gray y x;
          char ← Glyph.glyph_char brightness;
          '(b, g, r) ← Cv2.getitem frame y x;
          Cv2.setitem canvas y x (b, g, r))
        (range (Cv2.shape1 gray)) canvas)
    (range (Cv2.shape0 gray)) canvas.

(** The body of [for _ in range(frame_count)]. *)
Fixpoint collect_frames (use_ascii : bool) (term_width term_height : Z)
    (idx : list Z) (cap : list (option Cv2.frame)) (frames : list Cv2.frame)
  : result (list Cv2.frame) :=
  match idx with
  | [] => Ok frames
  | _ :: idx' =>
      match cap_read cap with
      | (None, _) => Ok frames
      | (Some frame, cap') =>
          frame ← Cv2.resize cv frame term_width (term_height - 2);
          frame ← (if use_ascii then ascii_canvas frame else Ok frame);
          collect_frames use_ascii term_width term_height idx' cap'
                         (frames ++ [frame])
      end
  end.

Definition temp_frames_dir : string := "tempframes".

(** [for i, f in enumerate(frames): cv2.imwrite(...)], from index [i] on. *)
Fixpoint write_frames (i : nat) (frames : list Cv2.frame) : M unit :=
  match frames with
  | [] => mret tt
  | f :: frames' =>
      imwrite (temp_frames_dir +:+ "/frame" +:+ PyText.fmt04 i +:+ ".png") f;;
      write_frames (S i) frames'
  end.

(** The command line of the encoder. *)
Definition encoder (fps : pynum) (temp_audio output_path : string) : list arg :=
  [Lit "ffmpeg"; Lit "-y";
   Lit "-r"; Str fps;
   Lit "-i"; Lit (temp_frames_dir +:+ "/frame%04d.png");
   Lit "-i"; Lit temp_audio;
   Lit "-vf"; Lit "pad=ceil(iw/2)*2:ceil(ih/2)*2";
   Lit "-c:v"; Lit "libx264";
   Lit "-pix_fmt"; Lit "yuv420p";
   Lit "-c:a"; Lit "aac";
   Lit "-movflags"; Lit "+faststart";
   Lit "-shortest";
   Lit output_path].

Definition prompt : string :=
  Raster.NL +:+
  "💾 Would you like to save this terminal render as a video? (y/n): ".

Definition save_as_video (original_path : string) (use_ascii : bool) : M unit :=
  print_ prompt;;
  line ← input E;
  let choice := PyText.lower (PyText.strip line) in
  if negb (String.eqb choice "y") then mret tt
  else
    let output_name := "terminal+" +:+ PyText.basename original_path in
    let output_path := PyText.join (PyText.dirname original_path) output_name in
    let '(term_width, term_height) := get_terminal_resolution E in
    let cap := reads E in
    let fps := effective_fps E in
    frame_count ← lift (to_int (prop_frame_count E));
    frames ← lift (collect_frames use_ascii term_width term_height
                                  (range_int frame_count) cap []);
    makedirs temp_frames_dir;;
    write_frames 0 frames;;
    temp_audio ← extract_audio E original_path "temp_audio_output.aac";
    run E (encoder fps temp_audio output_path) output_path;;
    rmtree temp_frames_dir;;
    remove temp_audio;;
    print (Raster.NL +:+ "✅ Saved as " +:+ output_path).

Definition temp_audio_output : string := "temp_audio_output.aac".

(** What is left of the step once the frames are collected. *)
Definition finish (original_path output_path : string)
    (frames : list Cv2.frame) : M unit :=
  makedirs temp_frames_dir;;
  write_frames 0 frames;;
  temp_audio ← extract_audio E original_path "temp_audio_output.aac";
  run E (encoder (effective_fps E) temp_audio output_path) output_path;;
  rmtree temp_frames_dir;;
  remove temp_audio;;
  print (Raster.NL +:+ "✅ Saved as " +:+ output_path).

(** The state of the temporaries at the end of the step. *)
Definition cleaned (r : result unit) (w : world) : Prop :=
  (forall p, below temp_frames_dir p = true -> fs w !! p = None) /\
  fs w !! temp_audio_output <> Some File /\
  (r = Ok tt \/ r = Raise FileNotFoundError \/ r = Raise IsADirectoryError).

(** The claim that the temporary directory and the temporary audio file are
    gone when the step ends, however it ends. *)
Definition cleans_up_on_every_path (original_path : string) (use_ascii : bool)
    (w : world) : Prop :=
  let w' := (save_as_video original_path use_ascii w).2 in
  fs w' !! temp_frames_dir = None /\ fs w' !! temp_audio_output = None.

End Save.

End Saver.

(** ** Sample inputs *)

Module Samples.

Import PyFloat Sys.

(** The 2x1 frame of a red and a black pixel (in BGR order). *)
Definition red_black : Cv2.frame := [[(0, 0, 255); (0, 0, 0)]].

Definition white : Cv2.frame := [[(255, 255, 255); (255, 255, 255)]].

(** The text of [red_black] on a grid of two columns and one row. *)
Definition red_black_text : string :=
  Raster.fg 255 0 0 +:+ ":" +:+ Raster.fg 0 0 0 +:+ " "
  +:+ Raster.RESET_ALL +:+ Raster.NL.

(** A stream of three reads whose second one fails, played on a terminal
    of 2 columns and 3 lines at 25 frames per second; the clock advances
    by one second per reading, every child succeeds and the user declines
    to save. *)
Definition faulty_stream : env :=
  {| terminal_size := (2, 3);
     prop_fps := of_int 25;
     prop_frame_count := of_int 3;
     reads := [Some red_black; None; Some white];
     clock := fun n => of_int (Z.of_nat n);
     stdin := Some "n";
     child := fun _ => Exited 0 true |}.

(** The same stream on a terminal of two lines. *)
Definition short_terminal : env :=
  {| terminal_size := (80, 2);
     prop_fps := of_int 25;
     prop_frame_count := of_int 3;
     reads := [Some red_black; None; Some white];
     clock := fun n => of_int (Z.of_nat n);
     stdin := Some "n";
     child := fun _ => Exited 0 true |}.

(** A decoder that cannot report a frame rate. *)
Definition no_frame_rate : env :=
  {| terminal_size := (80, 24);
     prop_fps := S754_nan;
     prop_frame_count := of_int 1;
     reads := [Some red_black];
     clock := fun n => of_int (Z.of_nat n);
     stdin := Some "n";
     child := fun _ => Exited 0 true |}.

(** The user accepts to save, the audio is extracted, and the encoder is
    interrupted: [subprocess.run] raises. The two [ffmpeg] command lines
    are told apart by their lengths. *)
Definition encoder_interrupted : env :=
  {| terminal_size := (2, 3);
     prop_fps := of_int 25;
     prop_frame_count := of_int 1;
     reads := [Some red_black];
     clock := fun n => of_int (Z.of_nat n);
     stdin := Some " Y ";
     child := fun argv =>
       if (length argv =? 10)%nat then Exited 0 true else NotRun OSError |}.

(** The same, with an encoder that fails with exit code 1. *)
Definition encoder_fails : env :=
  {| terminal_size := (2, 3);
     prop_fps := of_int 25;
     prop_frame_count := of_int 1;
     reads := [Some red_black];
     clock := fun n => of_int (Z.of_nat n);
     stdin := Some " Y ";
     child := fun argv =>
       if (length argv =? 10)%nat then Exited 0 true else Exited 1 false |}.

Definition empty_world : world := {| fs := ∅; ticks := 0; trace := [] |}.

End Samples.

(** ** The whole program *)

Module Program.

Import PyFloat Sys.

(** The command line of [extract_audio(input_path, output_audio)]. *)
Definition extract_argv (input_path output_audio : string) : list arg :=
  [Lit "ffmpeg"; Lit "-y"; Lit "-i"; Lit input_path;
   Lit "-vn"; Lit "-acodec"; Lit "aac"; Lit "-filter:a"; Lit "volume=0.5";
   Lit output_audio].

(** The temporary audio file of [play_video]. *)
Definition temp_audio : string := "temp_audio.aac".

(** The file system after a child that exited, having written its output
    file [out] or not. *)
Definition written (f : gmap string node) (wrote : bool) (out : string)
  : gmap string node :=
  if wrote then
    match f !! out with
    | Some Dir => f
    | _ => <[out := File]> f
    end
  else f.

(** The path of the image of frame [i]:
    [f"{temp_frames_dir}/frame{i:04}.png"]. *)
Definition frame_path (i : nat) : string :=
  Saver.temp_frames_dir +:+ "/frame" +:+ PyText.fmt04 i +:+ ".png".

(** The file system after the files [paths] have been written, one after
    the other. *)
Definition write_all (paths : list string) (f : gmap string node)
  : gmap string node :=
  foldl (fun f p => written f true p) f paths.

(** The file system at the end of a save of [count] frames whose two
    children exit, up to the removal of the temporary audio file: the
    directory is made, the images, the audio and the output are written,
    and the directory is removed with all that is below it. *)
Definition saved_fs (f : gmap string node) (count : nat)
    (wrote_audio wrote_output : bool) (output_path : string)
  : gmap string node :=
  let f1 := <[Saver.temp_frames_dir := Dir]> f in
  let f2 := write_all (frame_path <$> seq 0 count) f1 in
  let f3 := written f2 wrote_audio Saver.temp_audio_output in
  let f4 := written f3 wrote_output output_path in
  filter (fun kv => below Saver.temp_frames_dir kv.1 = false) f4.

(** [os.path.join(os.path.dirname(p), f"terminal+{os.path.basename(p)}")] *)
Definition output_path_of (original_path : string) : string :=
  PyText.join (PyText.dirname original_path)
              ("terminal+" +:+ PyText.basename original_path).

(** What [print(f"\n✅ Saved as {output_path}")] writes. *)
Definition saved_text (output_path : string) : string :=
  (Raster.NL +:+ "✅ Saved as " +:+ output_path) +:+ Raster.NL.

(** The frames resized to the grid of the terminal, up to the first one
    that cannot be. *)
Definition resize_all (cv : Cv2.api) (term_width term_height : Z)
    (frames : list Cv2.frame) : result (list Cv2.frame) :=
  mapM (fun f => Cv2.resize cv f term_width (term_height - 2)) frames.

(** The number of occurrences of a character in a text. *)
Fixpoint count_char (c : ascii) (s : string) : nat :=
  match s with
  | EmptyString => 0%nat
  | String x s' => ((if Ascii.eqb x c then 1 else 0) + count_char c s')%nat
  end.

(** The line break and the escape character. *)
Definition nl : ascii := ascii_of_nat 10.
Definition esc : ascii := ascii_of_nat 27.

(** [s.split(c)] for a separator of one character. *)
Fixpoint split_on (c : ascii) (s : string) : list string :=
  match s with
  | EmptyString => [""]
  | String x s' =>
      if Ascii.eqb x c then "" :: split_on c s'
      else
        match split_on c s' with
        | piece :: pieces => String x piece :: pieces
        | [] => [String x ""]
        end
  end.

(** A relative path in normal form: its components, from the working
    directory down, are not empty and none of them is [.] or [..]. The
    keys of the file system stand for files through such paths: in a file
    system without links two of them name the same file only when they are
    the same text, and one lies below the other only when it continues the
    other after a [/]. A path that is not of this form ([./video.mp4],
    [a//b], [/home/me/video.mp4]) may name the file of another key. *)
Definition normal_relative (p : string) : bool :=
  forallb (fun x => negb (String.eqb x "") && negb (String.eqb x ".")
                    && negb (String.eqb x ".."))
          (split_on "/" p).

(** A byte that is no white space and starts none. *)
Definition starts_no_space (c : ascii) : Prop :=
  PyText.is_space c = false /\
  (forall c2, PyText.is_space2 c c2 = false) /\
  (forall c2 c3, PyText.is_space3 c c2 c3 = false).

(** The claim that the rasterizer yields a render grid of exactly
    [term_height - 2] rows and [term_width] columns. *)
Definition yields_grid (cv : Cv2.api) (use_ascii : bool) (f : Cv2.frame)
    (term_width term_height : Z) : Prop :=
  exists grid : list (list Raster.cell),
    Player.rasterize cv use_ascii f term_width term_height
    = Ok (Raster.grid_text grid) /\
    Cv2.has_shape (Z.to_nat (term_height - 2)) (Z.to_nat term_width) grid.

(** Reading a decimal number back from its digits, leading zeros
    included. *)
Definition parse_index (s : string) : option Z :=
  Z.of_uint <$> NilEmpty.uint_of_string s.

(** A text of white space only. *)
Fixpoint blank (s : string) : bool :=
  match s with
  | String c s' => PyText.is_space c && blank s'
  | EmptyString => true
  end.

(** The frame [f] can be resized to the grid of the terminal, and [text] is
    the text of the grid of the resized frame. *)
Definition grid_text_of (cv : Cv2.api) (use_ascii : bool) (term_width
    term_height : Z) (f : Cv2.frame) (text : string) : Prop :=
  exists g,
    Cv2.resize cv f term_width (term_height - 2) = Ok g /\
    text = Raster.grid_text (if use_ascii then Raster.ascii_grid cv g
                             else Raster.block_grid g).

(** An effect that does not read the standard input. *)
Definition quiet (e : event) : Prop := e <> Input.

(** How the program ends: it runs to its end, or leaves through
    [sys.exit(code)]. *)
Inductive ending : Type :=
| Finished
| SysExit (code : Z).

(** [os.path.isfile(path)] *)
Definition isfile (f : gmap string node) (path : string) : bool :=
  match f !! path with
  | Some File => true
  | _ => false
  end.

(** The block under [if __name__ == "__main__":], for the parsed arguments
    [args.file] and [args.ascii]. *)
Definition main (cv : Cv2.api) (E : env) (file : string) (ascii : bool)
  : M ending :=
  f ← get_fs;
  if negb (isfile f file) then
    print ("❌ File not found:" +:+ " " +:+ file);;
    mret (SysExit 1)
  else
    ascii_mode_used ← Player.play_video cv E file ascii;
    Saver.save_as_video cv E file ascii_mode_used;;
    mret Finished.

End Program.

(** ** More sample inputs *)

Module MoreSamples.

Import PyFloat Sys.

(** A stream whose length the decoder does not know: it reports -1. *)
Definition unknown_length : env :=
  {| terminal_size := (2, 3);
     prop_fps := of_int 25;
     prop_frame_count := of_int (-1);
     reads := [Some Samples.red_black; Some Samples.white];
     clock := fun n => of_int (Z.of_nat n);
     stdin := Some "n";
     child := fun _ => Exited 0 true |}.

(** A video without an audio track: [ffmpeg] fails and writes nothing. *)
Definition silent_video : env :=
  {| terminal_size := (2, 3);
     prop_fps := of_int 25;
     prop_frame_count := of_int 1;
     reads := [Some Samples.red_black];
     clock := fun n => of_int (Z.of_nat n);
     stdin := Some "y";
     child := fun _ => Exited 1 false |}.

(** A machine without [ffmpeg]. *)
Definition no_ffmpeg : env :=
  {| terminal_size := (2, 3);
     prop_fps := of_int 25;
     prop_frame_count := of_int 1;
     reads := [Some Samples.red_black];
     clock := fun n => of_int (Z.of_nat n);
     stdin := Some "y";
     child := fun _ => NotRun FileNotFoundError |}.

(** The terminal of two lines, with a user who accepts to save. *)
Definition short_save : env :=
  {| terminal_size := (80, 2);
     prop_fps := of_int 25;
     prop_frame_count := of_int 3;
     reads := [Some Samples.red_black; None; Some Samples.white];
     clock := fun n => of_int (Z.of_nat n);
     stdin := Some "y";
     child := fun _ => Exited 0 true |}.

(** A stream of two frames on a terminal of 2 columns and 3 lines. *)
Definition two_frames : env :=
  {| terminal_size := (2, 3);
     prop_fps := of_int 25;
     prop_frame_count := of_int 2;
     reads := [Some Samples.red_black; Some Samples.white];
     clock := fun n => of_int (Z.of_nat n);
     stdin := Some "n";
     child := fun _ => Exited 0 true |}.

(** A world whose only file is the video. *)
Definition video_on_disk : world :=
  {| fs := {["dir/video.mp4" := File]}; ticks := 0; trace := [] |}.

End MoreSamples.

(** * Properties *)

(** ** The glyph mapper *)

Module GlyphProps.

Import Glyph.

Lemma brightness_values_spec (b : Z) :
  0 <= b <= 255 -> In b brightness_values.
Proof.
  intros Hb. unfold brightness_values.
  apply in_map_iff. exists (Z.to_nat b). split; [lia|].
  apply in_seq. lia.
Qed.

Lemma all_in_range : forallb index_in_range brightness_values = true.
Proof. vm_compute. reflexivity. Qed.

Lemma index_in_range_spec (b : Z) :
  0 <= b <= 255 -> index_in_range b = true.
Proof.
  intros Hb. pose proof all_in_range as H.
  rewrite forallb_forall in H. apply H, brightness_values_spec, Hb.
Qed.

(** On an 8-bit brightness the float computation of the code is the floor
    of the specification, and the lookup is defined. *)
Lemma glyph_index_spec (b : Z) :
  0 <= b <= 255 -> glyph_index b = Ok (spec_index b).
Proof.
  intros Hb. pose proof (index_in_range_spec b Hb) as H.
  unfold index_in_range in H.
  destruct (glyph_index b) as [i|]; [|discriminate].
  destruct (glyph_char b); [|discriminate].
  apply andb_prop in H as [H _]. apply andb_prop in H as [_ H].
  apply Z.eqb_eq in H. congruence.
Qed.

Lemma glyph_char_spec (b : Z) :
  0 <= b <= 255 -> glyph_char b = Ok (spec_char b).
Proof.
  intros Hb. pose proof (index_in_range_spec b Hb) as H.
  unfold index_in_range in H.
  destruct (glyph_index b) as [i|]; [|discriminate].
  destruct (glyph_char b) as [c|]; [|discriminate].
  apply andb_prop in H as [_ H].
  apply Ascii.eqb_eq in H. congruence.
Qed.

(** C1. For every brightness [0 <= b <= 255] and the ten-character ramp,
    the index [int(b / 256 * N)] the code computes is defined and satisfies
    [0 <= index < N = 10], so that [ascii_chars[index]] is a character of
    the ramp and no [IndexError]; this includes [b = 255]. *)
Theorem glyph_index_in_bounds (b : Z) :
  0 <= b <= 255 ->
  String.length ascii_chars = 10%nat /\
  exists i c,
    glyph_index b = Ok i /\
    0 <= i < Z.of_nat (String.length ascii_chars) /\
    PyStr.getitem ascii_chars i = Ok c /\
    glyph_char b = Ok c.
Proof.
  intros Hb. split; [reflexivity|].
  pose proof (index_in_range_spec b Hb) as H.
  unfold index_in_range in H.
  destruct (glyph_index b) as [i|] eqn:Hi; [|discriminate].
  destruct (glyph_char b) as [c|] eqn:Hc; [|discriminate].
  exists i, c.
  apply andb_prop in H as [H _]. apply andb_prop in H as [H _].
  apply andb_prop in H as [Hlo Hhi].
  apply Z.leb_le in Hlo. apply Z.ltb_lt in Hhi.
  split; [reflexivity|]. split; [lia|]. split; [|reflexivity].
  unfold glyph_char in Hc. rewrite Hi in Hc. exact Hc.
Qed.

Lemma glyph_index_in_bounds_max :
  0 <= 255 <= 255 /\
  String.length ascii_chars = 10%nat /\
  exists i c,
    glyph_index 255 = Ok i /\
    0 <= i < Z.of_nat (String.length ascii_chars) /\
    PyStr.getitem ascii_chars i = Ok c /\
    glyph_char 255 = Ok c.
Proof.
  split; [lia|]. apply (glyph_index_in_bounds 255). lia.
Defined.

End GlyphProps.

(** ** The frame interval *)

Module ClockProps.

Import PyFloat Sys.

(** C4. If the decoder reports a frame rate that is zero, negative or NaN,
    the frame interval is [1 / 30]; if it reports a positive finite frame
    rate [fps], the interval is [1 / fps]. *)
Theorem frame_interval_fallback (E : env) :
  (is_zero (prop_fps E) || is_negative (prop_fps E) || isnan (prop_fps E) = true ->
   frame_interval E = Ok (div (of_int 1) (of_int 30))) /\
  (is_positive_finite (prop_fps E) = true ->
   frame_interval E = Ok (div (of_int 1) (prop_fps E))).
Proof.
  unfold frame_interval, effective_fps.
  destruct (prop_fps E) as [s|s| |s m e]; split; intros H;
    try discriminate H; try reflexivity;
    try (destruct s; try discriminate H; reflexivity).
Qed.

Lemma frame_interval_fallback_witness :
  frame_interval Samples.no_frame_rate = Ok (div (of_int 1) (of_int 30)) /\
  frame_interval Samples.faulty_stream = Ok (div (of_int 1) (of_int 25)).
Proof.
  split.
  - apply (proj1 (frame_interval_fallback Samples.no_frame_rate)). reflexivity.
  - apply (proj2 (frame_interval_fallback Samples.faulty_stream)). reflexivity.
Defined.

End ClockProps.

(** ** Loops and strings *)

Lemma string_app_cons (x : ascii) (a b : string) :
  String x a +:+ b = String x (a +:+ b).
Proof. reflexivity. Qed.

Lemma string_app_assoc (a b c : string) : (a +:+ b) +:+ c = a +:+ (b +:+ c).
Proof.
  induction a as [|x a IH]; [reflexivity|].
  now rewrite !string_app_cons, IH.
Qed.

Lemma string_app_nil_r (a : string) : a +:+ "" = a.
Proof.
  induction a as [|x a IH]; [reflexivity|].
  now rewrite string_app_cons, IH.
Qed.

Lemma for_each_app {A S} (body : A -> S -> result S) (xs ys : list A) (s : S) :
  for_each body (xs ++ ys) s = (s' ← for_each body xs s; for_each body ys s').
Proof.
  revert s. induction xs as [|x xs IH]; intros s; simpl; [reflexivity|].
  destruct (body x s) as [s'|e]; simpl; [apply IH | reflexivity].
Qed.

Lemma range_S (n : nat) : range (S n) = range n ++ [n].
Proof. unfold range. now rewrite seq_S. Qed.

(** The rule of a counted loop: an invariant indexed by the number of
    iterations done, which every iteration re-establishes without raising. *)
Lemma for_each_range_inv {S} (P : nat -> S -> Prop)
    (body : nat -> S -> result S) (n : nat) (s : S) :
  P 0%nat s ->
  (forall i t, (i < n)%nat -> P i t -> exists t', body i t = Ok t' /\ P (Datatypes.S i) t') ->
  exists t, for_each body (range n) s = Ok t /\ P n t.
Proof.
  intros H0 Hstep. induction n as [|n IH].
  - exists s. split; [reflexivity | exact H0].
  - destruct IH as (t & Ht & HP).
    { intros i u Hi. apply Hstep. lia. }
    destruct (Hstep n t) as (t' & Hb & HP'); [lia | exact HP |].
    exists t'. split; [|exact HP'].
    rewrite range_S, for_each_app, Ht. simpl. now rewrite Hb.
Qed.

(** ** Shapes *)

Module ShapeProps.

Import Cv2.

Lemma has_shape_lookup {A} (h w : nat) (a : image A) (y : nat) (row : list A) :
  has_shape h w a -> a !! y = Some row -> length row = w.
Proof.
  intros [_ Hall] Hy. rewrite Forall_forall in Hall.
  apply Hall. eapply list_elem_of_lookup_2, Hy.
Qed.

Lemma has_shape_shape0 {A} (h w : nat) (a : image A) :
  has_shape h w a -> shape0 a = h.
Proof. now intros [H _]. Qed.

Lemma has_shape_shape1 {A} (h w : nat) (a : image A) :
  has_shape h w a -> (0 < h)%nat -> shape1 a = w.
Proof.
  intros [Hlen Hall] Hh. destruct a as [|row a]; simpl in *; [lia|].
  now inversion Hall.
Qed.

Lemma has_shape_fmap {A B} (f : A -> B) (h w : nat) (a : image A) :
  has_shape h w a -> has_shape h w ((fun row : list A => f <$> row) <$> a).
Proof.
  intros [Hlen Hall]. split; [now rewrite length_fmap|].
  rewrite Forall_fmap. eapply Forall_impl; [exact Hall|].
  intros row Hrow. simpl. now rewrite length_fmap.
Qed.

Lemma getitem_lookup {A} (a : image A) (y x : nat) (row : list A) (v : A) :
  a !! y = Some row -> row !! x = Some v -> getitem a y x = Ok v.
Proof. intros Hy Hx. unfold getitem. now rewrite Hy, Hx. Qed.

Lemma getitem_fmap {A B} (f : A -> B) (a : image A) (y x : nat)
    (row : list A) (v : A) :
  a !! y = Some row -> row !! x = Some v ->
  getitem ((fun row : list A => f <$> row) <$> a) y x = Ok (f v).
Proof.
  intros Hy Hx. unfold getitem.
  rewrite list_lookup_fmap, Hy. simpl.
  now rewrite list_lookup_fmap, Hx.
Qed.

End ShapeProps.

(** ** The reference implementation of the OpenCV interface *)

Module Reference.

Import Cv2 ShapeProps.

Lemma nearest_shape (f : frame) (w h : Z) (g : frame) :
  nearest f w h = Ok g -> has_shape (Z.to_nat h) (Z.to_nat w) g.
Proof.
  unfold nearest. case_decide; [discriminate|].
  intros [= <-]. split.
  - now rewrite length_fmap, length_seq.
  - rewrite Forall_fmap, Forall_forall. intros y _. simpl.
    now rewrite length_fmap, length_seq.
Qed.

Lemma nearest_empty_dsize (f : frame) (w h : Z) :
  w <= 0 \/ h <= 0 -> nearest f w h = Raise Cv2Error.
Proof.
  intros H. unfold nearest. case_decide as Hd; [reflexivity|].
  exfalso. apply Hd. tauto.
Qed.

Lemma nearest_defined (f : frame) (sh sw : nat) (w h : Z) :
  has_shape sh sw f -> (0 < sh)%nat -> (0 < sw)%nat ->
  1 <= w < 2 ^ 31 -> 1 <= h < 2 ^ 31 ->
  exists g, nearest f w h = Ok g.
Proof.
  intros Hf Hsh Hsw Hw Hh. unfold nearest.
  pose proof (has_shape_shape0 _ _ _ Hf) as H0.
  pose proof (has_shape_shape1 _ _ _ Hf Hsh) as H1.
  case_decide as Hd; [|eauto].
  exfalso. destruct Hd as [Hd|[Hd|[Hd|[Hd|[Hd|Hd]]]]]; [lia | lia | lia | lia | |].
  - pose proof (eq_trans (eq_sym H0) Hd). lia.
  - pose proof (eq_trans (eq_sym H1) Hd). lia.
Qed.

Lemma gray_fixed_range (p : pixel) : 0 <= gray_fixed p <= 255.
Proof.
  destruct p as [[b g] r]. unfold gray_fixed, clamp8.
  rewrite Z.shiftr_div_pow2 by lia.
  change (2 ^ 15) with 32768.
  split.
  - apply Z.div_pos; lia.
  - apply Z.lt_succ_r, Z.div_lt_upper_bound; lia.
Qed.

Definition opencv : api :=
  {| resize := nearest;
     bgr2gray := gray_fixed;
     resize_shape := nearest_shape;
     resize_empty_dsize := nearest_empty_dsize;
     bgr2gray_range := gray_fixed_range |}.

End Reference.

(** ** The frame rasterizer *)

Module RasterProps.

Import Cv2 Raster ShapeProps.

Lemma join_text_cons {A} (text : A -> string) (a : A) (l : list A) :
  join_text text (a :: l) = text a +:+ join_text text l.
Proof. reflexivity. Qed.

Lemma join_text_app {A} (text : A -> string) (l k : list A) :
  join_text text (l ++ k) = join_text text l +:+ join_text text k.
Proof.
  induction l as [|a l IH]; [reflexivity|].
  rewrite <- app_comm_cons, !join_text_cons, IH.
  now rewrite string_app_assoc.
Qed.

Lemma join_text_fmap {A B} (f : A -> B) (text : B -> string) (l : list A) :
  join_text text (f <$> l) = join_text (fun a => text (f a)) l.
Proof.
  induction l as [|a l IH]; [reflexivity|].
  now rewrite fmap_cons, !join_text_cons, IH.
Qed.

(** A loop over the indices of a list that appends one text per entry
    builds the joined text. *)
Lemma for_each_join_text {A} (l : list A) (text : A -> string)
    (body : nat -> string -> result string) (out : string) :
  (forall i a s, l !! i = Some a -> body i s = Ok (s +:+ text a)) ->
  for_each body (range (length l)) out = Ok (out +:+ join_text text l).
Proof.
  intros Hbody.
  destruct (for_each_range_inv
              (fun i s => s = out +:+ join_text text (take i l))
              body (length l) out) as (t & Ht & HP).
  - simpl. now rewrite string_app_nil_r.
  - intros i s Hi ->.
    destruct (lookup_lt_is_Some_2 l i Hi) as [a Ha].
    exists ((out +:+ join_text text (take i l)) +:+ text a). split.
    + now apply Hbody.
    + rewrite (take_S_r l i a Ha), join_text_app, string_app_assoc.
      f_equal. f_equal. unfold join_text. simpl. now rewrite string_app_nil_r.
  - rewrite Ht, HP. now rewrite firstn_all.
Qed.

Section Rasterizer.

Variable cv : api.

(** The text of a resized frame [g] in ASCII mode. *)
Lemma ascii_loops (g : frame) (h w : nat) :
  has_shape h w g ->
  for_each (fun y output =>
      output ← for_each (fun x output =>
          '(b, g0, r) ← getitem g y x;
          brightness ← getitem (cvtColor_gray cv g) y x;
          c ← Glyph.glyph_char brightness;
          Ok (output +:+ (fg r g0 b +:+ String c "")))
        (range (shape1 (cvtColor_gray cv g))) output;
      Ok (output +:+ (RESET_ALL +:+ NL)))
    (range (shape0 (cvtColor_gray cv g))) ""
  = Ok (grid_text (ascii_grid cv g)).
Proof.
  intros Hg.
  assert (Hgray : has_shape h w (cvtColor_gray cv g))
    by now apply has_shape_fmap.
  rewrite (has_shape_shape0 _ _ _ Hgray), <- (proj1 Hg).
  rewrite (for_each_join_text g (fun row => row_text (ascii_cell cv <$> row))).
  - unfold grid_text, ascii_grid. now rewrite join_text_fmap.
  - intros y row s Hy.
    assert (Hh : (0 < h)%nat).
    { apply lookup_lt_Some in Hy. destruct Hg. lia. }
    rewrite (has_shape_shape1 _ _ _ Hgray Hh),
      <- (has_shape_lookup _ _ _ _ _ Hg Hy).
    rewrite (for_each_join_text row (fun p => cell_text (ascii_cell cv p))).
    + simpl. unfold row_text. rewrite join_text_fmap.
      now rewrite string_app_assoc.
    + intros x [[b g0] r] t Hx.
      rewrite (getitem_lookup _ _ _ _ _ Hy Hx). simpl.
      unfold cvtColor_gray.
      rewrite (getitem_fmap (bgr2gray cv) _ _ _ _ _ Hy Hx). simpl.
      rewrite (GlyphProps.glyph_char_spec _ (bgr2gray_range cv (b, g0, r))).
      reflexivity.
Qed.

(** The text of a resized frame [g] in block mode. *)
Lemma block_loops (g : frame) (h w : nat) :
  has_shape h w g ->
  for_each (fun y output =>
      output ← for_each (fun x output =>
          '(b, g0, r) ← getitem g y x;
          Ok (output +:+ (fg r g0 b +:+ BLOCK)))
        (range (shape1 g)) output;
      Ok (output +:+ (RESET_ALL +:+ NL)))
    (range (shape0 g)) ""
  = Ok (grid_text (block_grid g)).
Proof.
  intros Hg.
  rewrite (has_shape_shape0 _ _ _ Hg), <- (proj1 Hg).
  rewrite (for_each_join_text g (fun row => row_text (block_cell <$> row))).
  - unfold grid_text, block_grid. now rewrite join_text_fmap.
  - intros y row s Hy.
    assert (Hh : (0 < h)%nat).
    { apply lookup_lt_Some in Hy. destruct Hg. lia. }
    rewrite (has_shape_shape1 _ _ _ Hg Hh),
      <- (has_shape_lookup _ _ _ _ _ Hg Hy).
    rewrite (for_each_join_text row (fun p => cell_text (block_cell p))).
    + simpl. unfold row_text. rewrite join_text_fmap.
      now rewrite string_app_assoc.
    + intros x [[b g0] r] t Hx.
      rewrite (getitem_lookup _ _ _ _ _ Hy Hx). reflexivity.
Qed.

Lemma frame_to_ascii_colored_text (f : frame) (tw th : Z) (g : frame) :
  resize cv f tw (th - 2) = Ok g ->
  frame_to_ascii_colored cv f tw th = Ok (grid_text (ascii_grid cv g)).
Proof.
  intros Hr. unfold frame_to_ascii_colored. rewrite Hr. simpl.
  eapply ascii_loops, resize_shape, Hr.
Qed.

Lemma frame_to_colored_blocks_text (f : frame) (tw th : Z) (g : frame) :
  resize cv f tw (th - 2) = Ok g ->
  frame_to_colored_blocks cv f tw th = Ok (grid_text (block_grid g)).
Proof.
  intros Hr. unfold frame_to_colored_blocks. rewrite Hr. simpl.
  eapply block_loops, resize_shape, Hr.
Qed.

End Rasterizer.

End RasterProps.

Module GlyphMapperClaims.

Import Cv2 Raster RasterProps.

(** C7. In ASCII mode a pixel of grey brightness [B] is shown as the ramp
    character at index [floor(B / 256 * N)], in the pixel's own RGB colour:
    the text of a frame that is this one pixel after the resize is the
    colour sequence [ESC [38;2;r;g;b m] with the pixel's red, green and
    blue levels in decimal, the ramp character, the reset sequence and a
    line break; and the text of any frame is the text of the grid of these
    cells. In particular, when OpenCV leaves the 2x1 frame of a red and a
    black pixel unchanged on resizing it to (2, 1) and gives red the
    brightness 76 and black the brightness 0, the left cell is the low ramp
    character [:] (index 2 of 10) in the colour (255, 0, 0) and the right
    cell is the space [ramp[0]] in the colour (0, 0, 0). *)
Theorem ascii_mode_glyphs (cv : api) :
  (forall b g r,
     let B := bgr2gray cv (b, g, r) in
     Glyph.glyph_index B = Ok (B * 10 / 256) /\
     Glyph.glyph_char B = Ok (Glyph.spec_char B) /\
     String.get (Z.to_nat (B * 10 / 256)) Glyph.ascii_chars
       = Some (Glyph.spec_char B) /\
     ascii_cell cv (b, g, r) = Cell (String (Glyph.spec_char B) "") r g b /\
     (forall f tw th,
        resize cv f tw (th - 2) = Ok [[(b, g, r)]] ->
        frame_to_ascii_colored cv f tw th
        = Ok (String (ascii_of_nat 27)
                ("[38;2;" +:+ NilZero.string_of_int (Z.to_int r)
                 +:+ ";" +:+ NilZero.string_of_int (Z.to_int g)
                 +:+ ";" +:+ NilZero.string_of_int (Z.to_int b)
                 +:+ "m"
                 +:+ String (Glyph.spec_char B)
                       (String (ascii_of_nat 27)
                          ("[0m" +:+ String (ascii_of_nat 10) "")))))) /\
  (forall f tw th g,
     resize cv f tw (th - 2) = Ok g ->
     frame_to_ascii_colored cv f tw th = Ok (grid_text (ascii_grid cv g))) /\
  (resize cv Samples.red_black 2 1 = Ok Samples.red_black ->
   bgr2gray cv (0, 0, 255) = 76 ->
   bgr2gray cv (0, 0, 0) = 0 ->
   ascii_grid cv Samples.red_black = [[Cell ":" 255 0 0; Cell " " 0 0 0]] /\
   String.get 2 Glyph.ascii_chars = Some ":"%char /\
   String.get 0 Glyph.ascii_chars = Some " "%char /\
   frame_to_ascii_colored cv Samples.red_black 2 3
     = Ok (String (ascii_of_nat 27) "[38;2;255;0;0m:"
           +:+ String (ascii_of_nat 27) "[38;2;0;0;0m "
           +:+ String (ascii_of_nat 27) "[0m"
           +:+ String (ascii_of_nat 10) "")).
Proof.
  split; [|split].
  - intros b g r B.
    pose proof (bgr2gray_range cv (b, g, r)) as HB. fold B in HB.
    split; [exact (GlyphProps.glyph_index_spec B HB)|].
    split; [exact (GlyphProps.glyph_char_spec B HB)|].
    split; [|split; [reflexivity|]].
    + pose proof (GlyphProps.index_in_range_spec B HB) as Hin.
      unfold Glyph.index_in_range in Hin.
      rewrite (GlyphProps.glyph_index_spec B HB),
        (GlyphProps.glyph_char_spec B HB) in Hin.
      apply andb_prop in Hin as [Hin _]. apply andb_prop in Hin as [Hin _].
      apply andb_prop in Hin as [Hlo Hhi].
      apply Z.leb_le in Hlo. apply Z.ltb_lt in Hhi.
      unfold Glyph.spec_char, Glyph.spec_index in *.
      change (Z.of_nat (String.length Glyph.ascii_chars)) with 10 in *.
      destruct (String.get (Z.to_nat (B * 10 / 256)) Glyph.ascii_chars)
        as [c|] eqn:Hget; [reflexivity|].
      exfalso.
      assert (Hn : (Z.to_nat (B * 10 / 256) < 10)%nat) by lia.
      revert Hget Hn. generalize (Z.to_nat (B * 10 / 256)) as n. intros n.
      do 10 (destruct n as [|n]; [discriminate|]). lia.
    + intros f tw th Hresize.
      rewrite (frame_to_ascii_colored_text cv _ _ _ _ Hresize). f_equal.
      unfold grid_text, ascii_grid. rewrite !fmap_cons, !fmap_nil.
      rewrite join_text_cons. unfold row_text at 1.
      rewrite join_text_cons. unfold cell_text, ascii_cell, colour_text,
        end_of_row, decimal. fold B.
      cbn [join_text foldr red green blue glyph].
      rewrite !string_app_nil_r, !string_app_assoc.
      reflexivity.
  - intros f tw th g. apply frame_to_ascii_colored_text.
  - intros Hresize Hred Hblack.
    assert (Hgrid : ascii_grid cv Samples.red_black
                    = [[Cell ":" 255 0 0; Cell " " 0 0 0]]).
    { unfold ascii_grid, Samples.red_black, ascii_cell. simpl.
      rewrite Hred, Hblack. reflexivity. }
    split; [exact Hgrid|]. split; [reflexivity|]. split; [reflexivity|].
    rewrite (frame_to_ascii_colored_text cv _ 2 3 _ Hresize), Hgrid.
    reflexivity.
Qed.

Lemma ascii_mode_glyphs_witness :
  frame_to_ascii_colored Reference.opencv [[(0, 0, 255)]] 1 3
  = Ok (String (ascii_of_nat 27)
          ("[38;2;" +:+ NilZero.string_of_int (Z.to_int 255)
           +:+ ";" +:+ NilZero.string_of_int (Z.to_int 0)
           +:+ ";" +:+ NilZero.string_of_int (Z.to_int 0)
           +:+ "m"
           +:+ String (Glyph.spec_char
                         (bgr2gray Reference.opencv (0, 0, 255)))
                 (String (ascii_of_nat 27)
                    ("[0m" +:+ String (ascii_of_nat 10) "")))) /\
  ascii_grid Reference.opencv Samples.red_black
    = [[Cell ":" 255 0 0; Cell " " 0 0 0]] /\
  String.get 2 Glyph.ascii_chars = Some ":"%char /\
  String.get 0 Glyph.ascii_chars = Some " "%char /\
  frame_to_ascii_colored Reference.opencv Samples.red_black 2 3
    = Ok (String (ascii_of_nat 27) "[38;2;255;0;0m:"
          +:+ String (ascii_of_nat 27) "[38;2;0;0;0m "
          +:+ String (ascii_of_nat 27) "[0m"
          +:+ String (ascii_of_nat 10) "").
Proof.
  split.
  - apply (proj2 (proj2 (proj2 (proj2
             (proj1 (ascii_mode_glyphs Reference.opencv) 0 0 255))))
             [[(0, 0, 255)]] 1 3).
    reflexivity.
  - apply (proj2 (proj2 (ascii_mode_glyphs Reference.opencv))); reflexivity.
Defined.

End GlyphMapperClaims.

Module TerminalClaims.

Import Cv2 Raster Sys.

(** C9. The sampled terminal height is clamped to at least 1. When the
    terminal has at most two lines the sampled height is 1 or 2, the resize
    target height [h - 2] is zero or negative, and rasterizing any frame
    raises instead of producing a grid; so a rasterization that succeeds
    had a sampled height of at least 3. *)
Theorem short_terminal_fails (cv : api) (E : env) (f : frame) :
  let '(term_width, term_height) := get_terminal_resolution E in
  1 <= term_height /\
  ((terminal_size E).2 <= 2 ->
   (term_height = 1 \/ term_height = 2) /\
   term_height - 2 <= 0 /\
   frame_to_ascii_colored cv f term_width term_height = Raise Cv2Error /\
   frame_to_colored_blocks cv f term_width term_height = Raise Cv2Error) /\
  (forall use_ascii text,
     Player.rasterize cv use_ascii f term_width term_height = Ok text ->
     3 <= term_height).
Proof.
  unfold get_terminal_resolution.
  destruct (terminal_size E) as [columns lines]. simpl.
  split; [lia|]. split.
  - intros Hlines. split; [lia|]. split; [lia|].
    unfold frame_to_ascii_colored, frame_to_colored_blocks.
    rewrite (resize_empty_dsize cv f (Z.max 1 columns) (Z.max 1 lines - 2))
      by lia.
    split; reflexivity.
  - intros use_ascii text Hok.
    destruct (Z_lt_le_dec (Z.max 1 lines) 3) as [Hlt|Hge]; [|exact Hge].
    exfalso. unfold Player.rasterize in Hok.
    unfold frame_to_ascii_colored, frame_to_colored_blocks in Hok.
    rewrite (resize_empty_dsize cv f (Z.max 1 columns) (Z.max 1 lines - 2))
      in Hok by lia.
    destruct use_ascii; discriminate Hok.
Qed.

Lemma short_terminal_fails_witness :
  frame_to_ascii_colored Reference.opencv Samples.red_black 80 2
    = Raise Cv2Error /\
  3 <= 3.
Proof.
  split.
  - apply (proj1 (proj2 (short_terminal_fails Reference.opencv
                           Samples.short_terminal Samples.red_black))).
    simpl. lia.
  - apply (proj2 (proj2 (short_terminal_fails Reference.opencv
                           Samples.faulty_stream Samples.red_black))
             true
             (fg 255 0 0 +:+ ":" +:+ fg 0 0 0 +:+ " " +:+ RESET_ALL +:+ NL)).
    reflexivity.
Defined.

End TerminalClaims.

(** ** The recording canvas *)

Module CanvasProps.

Import Cv2 ShapeProps Saver.

(** Overwriting entry [x] of a row that already agrees with [l] before [x]
    extends the agreement by one entry. *)
Lemma insert_progress {A} (l z : list A) (x : nat) (a : A) :
  length l = length z -> l !! x = Some a ->
  <[x := a]> (take x l ++ drop x z) = take (S x) l ++ drop (S x) z.
Proof.
  revert l z. induction x as [|x IH]; intros [|c l] [|b z] Hlen Hx;
    try discriminate; simpl in *.
  - now injection Hx as ->.
  - f_equal. apply IH; [lia | exact Hx].
Qed.

Lemma insert_row_progress {A} (g zs : list A) (y : nat) (r0 r : A) :
  (y <= length g)%nat ->
  <[y := r]> (take y g ++ r0 :: drop (S y) zs) = take y g ++ r :: drop (S y) zs.
Proof.
  intros Hy. rewrite insert_app_r_alt by (rewrite length_take; lia).
  rewrite length_take, Nat.min_l by lia. now rewrite Nat.sub_diag.
Qed.

Lemma lookup_row_progress {A} (g zs : list A) (y : nat) (r0 : A) :
  (y <= length g)%nat ->
  (take y g ++ r0 :: drop (S y) zs) !! y = Some r0.
Proof.
  intros Hy. rewrite lookup_app_r by (rewrite length_take; lia).
  rewrite length_take, Nat.min_l by lia. now rewrite Nat.sub_diag.
Qed.

Section Canvas.

Variable cv : api.

(** The inner loop of one row [y]: the zero row is overwritten, entry by
    entry, with the row of the frame. *)
Lemma canvas_row (g : frame) (y : nat) (row : list pixel) :
  g !! y = Some row ->
  for_each (fun x canvas =>
      brightness ← getitem (cvtColor_gray cv g) y x;
      char ← Glyph.glyph_char brightness;
      '(b, g0, r) ← getitem g y x;
      setitem canvas y x (b, g0, r))
    (range (length row))
    (take y g ++ drop y (zeros_like g))
  = Ok (take (S y) g ++ drop (S y) (zeros_like g)).
Proof.
  intros Hy.
  set (zrow := (fun _ : pixel => (0, 0, 0) : pixel) <$> row).
  assert (Hz : zeros_like g !! y = Some zrow).
  { unfold zeros_like. now rewrite list_lookup_fmap, Hy. }
  assert (Hylt : (y < length g)%nat) by (eapply lookup_lt_Some, Hy).
  assert (Hzlen : length zrow = length row) by apply length_fmap.
  rewrite (drop_S _ _ _ Hz).
  destruct (for_each_range_inv
    (fun x canvas => canvas = take y g ++ (take x row ++ drop x zrow)
                                 :: drop (S y) (zeros_like g))
    (fun x canvas =>
      brightness ← getitem (cvtColor_gray cv g) y x;
      char ← Glyph.glyph_char brightness;
      '(b, g0, r) ← getitem g y x;
      setitem canvas y x (b, g0, r))
    (length row)
    (take y g ++ zrow :: drop (S y) (zeros_like g))) as (t & Ht & HP).
  - reflexivity.
  - intros x canvas Hx ->.
    destruct (lookup_lt_is_Some_2 row x Hx) as [[[b g0] r] Hpx].
    eexists. split.
    + unfold cvtColor_gray.
      rewrite (getitem_fmap (bgr2gray cv) _ _ _ _ _ Hy Hpx). simpl.
      rewrite (GlyphProps.glyph_char_spec _ (bgr2gray_range cv (b, g0, r))).
      simpl. rewrite (getitem_lookup _ _ _ _ _ Hy Hpx). simpl.
      unfold setitem. rewrite lookup_row_progress by lia.
      rewrite decide_True.
      2:{ rewrite length_app, length_take, length_drop. lia. }
      rewrite insert_row_progress by lia. reflexivity.
    + simpl. f_equal. f_equal. f_equal.
      now apply insert_progress.
  - transitivity (Ok t); [exact Ht|]. rewrite HP. f_equal.
    rewrite (take_S_r _ _ _ Hy), <- app_assoc. simpl.
    rewrite firstn_all, drop_ge by lia. now rewrite app_nil_r.
Qed.

(** The canvas of ASCII mode is the frame itself. *)
Lemma ascii_canvas_id (g : frame) (h w : nat) :
  has_shape h w g -> ascii_canvas cv g = Ok g.
Proof.
  intros Hg. unfold ascii_canvas.
  assert (Hgray : has_shape h w (cvtColor_gray cv g))
    by now apply has_shape_fmap.
  rewrite (has_shape_shape0 _ _ _ Hgray), <- (proj1 Hg).
  destruct (for_each_range_inv
    (fun y canvas => canvas = take y g ++ drop y (zeros_like g))
    (fun y canvas =>
      for_each (fun x canvas =>
          brightness ← getitem (cvtColor_gray cv g) y x;
          char ← Glyph.glyph_char brightness;
          '(b, g0, r) ← getitem g y x;
          setitem canvas y x (b, g0, r))
        (range (shape1 (cvtColor_gray cv g))) canvas)
    (length g) (zeros_like g)) as (t & Ht & HP).
  - reflexivity.
  - intros y canvas Hy ->.
    destruct (lookup_lt_is_Some_2 g y Hy) as [row Hrow].
    assert (Hh : (0 < h)%nat) by (destruct Hg; lia).
    rewrite (has_shape_shape1 _ _ _ Hgray Hh),
      <- (has_shape_lookup _ _ _ _ _ Hg Hrow).
    eexists. split; [now apply canvas_row | reflexivity].
  - transitivity (Ok t); [exact Ht|]. rewrite HP. f_equal.
    rewrite firstn_all, drop_ge; [now rewrite app_nil_r|].
    unfold zeros_like. rewrite length_fmap. lia.
Qed.

Lemma collect_frames_mode (tw th : Z) (idx : list Z)
    (cap : list (option frame)) (frames : list frame) :
  collect_frames cv true tw th idx cap frames
  = collect_frames cv false tw th idx cap frames.
Proof.
  revert cap frames. induction idx as [|i idx IH]; intros cap frames;
    [reflexivity|].
  simpl. destruct (Sys.cap_read cap) as [[f|] cap']; [|reflexivity].
  destruct (resize cv f tw (th - 2)) as [g|e] eqn:Hg; [|reflexivity].
  simpl. rewrite (ascii_canvas_id g _ _ (resize_shape cv _ _ _ _ Hg)).
  simpl. apply IH.
Qed.

End Canvas.

(** C10. In the save step the canvas built in ASCII mode equals, pixel for
    pixel, the resized source frame (the character computed for a cell is
    never used), so the frames collected in ASCII mode are those of block
    mode and the whole save step, with the images it writes, does not
    depend on the mode flag. *)
Theorem canvas_mode_independent (cv : api) (E : Sys.env) :
  (forall f tw th g,
     resize cv f tw (th - 2) = Ok g -> ascii_canvas cv g = Ok g) /\
  (forall tw th idx cap frames,
     collect_frames cv true tw th idx cap frames
     = collect_frames cv false tw th idx cap frames) /\
  (forall original_path w,
     save_as_video cv E original_path true w
     = save_as_video cv E original_path false w).
Proof.
  split; [|split].
  - intros f tw th g Hg.
    eapply ascii_canvas_id, resize_shape, Hg.
  - intros. now apply collect_frames_mode.
  - intros original_path w. unfold save_as_video.
    destruct (Sys.get_terminal_resolution E) as [tw th].
    unfold mbind, Sys.M_bind, Sys.print_, Sys.emit, Sys.input, Sys.lift. simpl.
    destruct (Sys.stdin E) as [line|]; simpl; [|reflexivity].
    destruct (negb _); [reflexivity|].
    destruct (PyFloat.to_int _) as [frame_count|]; [|reflexivity].
    now rewrite collect_frames_mode.
Qed.

Lemma canvas_mode_independent_witness :
  ascii_canvas Reference.opencv [[(0, 0, 255); (0, 0, 255); (0, 0, 0)];
                                  [(0, 0, 255); (0, 0, 255); (0, 0, 0)]]
  = Ok [[(0, 0, 255); (0, 0, 255); (0, 0, 0)];
        [(0, 0, 255); (0, 0, 255); (0, 0, 0)]].
Proof.
  apply (proj1 (canvas_mode_independent Reference.opencv Samples.faulty_stream)
           Samples.red_black 3 4).
  reflexivity.
Defined.

End CanvasProps.

(** ** Playback *)

Module PlayerProps.

Import PyFloat Sys Player.

Lemma advance_0_nil (w : world) : advance w 0 [] = w.
Proof.
  destruct w as [f t tr]. unfold advance. simpl.
  now rewrite Nat.add_0_r, app_nil_r.
Qed.

Lemma advance_advance (w : world) (n m : nat) (es es' : list event) :
  advance (advance w n es) m es' = advance w (n + m) (es ++ es').
Proof.
  unfold advance. simpl. now rewrite Nat.add_assoc, app_assoc.
Qed.

Section Loop.

Variable cv : Cv2.api.
Variable E : env.
Variable use_ascii : bool.
Variables frame_time start_time : float.
Variables term_width term_height : Z.

Let play := play_frames cv E use_ascii frame_time start_time
                        term_width term_height.
Let text_of (f : Cv2.frame) : result string :=
  rasterize cv use_ascii f term_width term_height.

Lemma play_nil (cap : list (option Cv2.frame)) (w : world) :
  play [] cap w = (Ok tt, w).
Proof. reflexivity. Qed.

(** A failed read leaves the loop. *)
Lemma play_read_fails (i : Z) (idx : list Z) (cap : list (option Cv2.frame))
    (w : world) :
  (cap_read cap).1 = None -> play (i :: idx) cap w = (Ok tt, w).
Proof.
  intros H. unfold play. simpl.
  destruct (cap_read cap) as [[f|] cap']; [discriminate | reflexivity].
Qed.

(** One iteration on a frame that was read. *)
Lemma play_read (i : Z) (idx : list Z) (f : Cv2.frame)
    (cap : list (option Cv2.frame)) (w : world) :
  play (i :: idx) (Some f :: cap) w =
  match text_of f with
  | Ok text =>
      play idx cap
        (advance w 1 (present_events frame_time start_time i
                                     (clock E (ticks w)) text))
  | Raise e =>
      (Raise e,
       advance w 1 (wait_events frame_time start_time i (clock E (ticks w))
                    ++ [Print clear_text]))
  end.
Proof.
  unfold play, text_of, present_events, wait_events, advance. simpl.
  unfold mbind, M_bind, perf_counter, sleep, clear_terminal, print, print_,
    emit, lift. simpl.
  rewrite Nat.add_1_r.
  destruct (ltb _ _); simpl;
    destruct (rasterize cv use_ascii f term_width term_height); simpl;
    rewrite <- ?app_assoc; reflexivity.
Qed.

Lemma schedule_cons (tick first : nat) (text : string) (texts : list string) :
  schedule E frame_time start_time tick first (text :: texts) =
  present_events frame_time start_time (Z.of_nat first) (clock E tick) text
  ++ schedule E frame_time start_time (S tick) (S first) texts.
Proof.
  unfold schedule. rewrite imap_cons. simpl.
  rewrite !Nat.add_0_r. f_equal. f_equal.
  apply imap_ext. intros j text' _. simpl.
  now rewrite <- !Nat.add_succ_comm.
Qed.

Lemma seq_indices_cons (a n : nat) :
  Z.of_nat <$> seq a (S n) = Z.of_nat a :: (Z.of_nat <$> seq (S a) n).
Proof. reflexivity. Qed.

(** When every frame read can be rasterized, the loop presents the frames
    read before the first failing read, in order, and returns. *)
Lemma play_all (n a : nat) (cap : list (option Cv2.frame))
    (texts : list string) (w : world) :
  Forall2 (fun f text => text_of f = Ok text) (shown n cap) texts ->
  play (Z.of_nat <$> seq a n) cap w =
  (Ok tt,
   advance w (length texts)
           (schedule E frame_time start_time (ticks w) a texts)).
Proof.
  revert a cap texts w. induction n as [|n IH]; intros a cap texts w Hall.
  - simpl in Hall. inversion Hall; subst. simpl.
    now rewrite advance_0_nil.
  - rewrite seq_indices_cons.
    destruct cap as [|[f|] cap].
    + simpl in Hall. inversion Hall; subst.
      rewrite play_read_fails by reflexivity. now rewrite advance_0_nil.
    + simpl in Hall. inversion Hall as [|? text ? texts' Hf Hrest]; subst.
      rewrite play_read, Hf, (IH _ _ _ _ Hrest), advance_advance.
      rewrite schedule_cons. simpl. now rewrite Nat.add_1_r.
    + simpl in Hall. inversion Hall; subst.
      rewrite play_read_fails by reflexivity. now rewrite advance_0_nil.
Qed.

(** In general the loop presents a prefix of these frames, in order and
    without a gap: all of them if it returns, those before the first frame
    that cannot be rasterized if it raises. *)
(** The loop ends at once: nothing is presented. *)
Local Ltac loop_ends :=
  exists 0%nat, [], [], (Ok tt); simpl;
  rewrite ?play_read_fails by reflexivity; rewrite ?advance_0_nil;
  split; [reflexivity|]; split; [lia|]; split; [constructor|];
  left; easy.

Lemma play_prefix (n a : nat) (cap : list (option Cv2.frame)) (w : world) :
  exists (k : nat) (texts : list string) (tail : list event) (r : result unit),
    play (Z.of_nat <$> seq a n) cap w =
      (r, advance w (k + length tail `min` 1)
                  (schedule E frame_time start_time (ticks w) a texts ++ tail)) /\
    (k <= length (shown n cap))%nat /\
    Forall2 (fun f text => text_of f = Ok text) (take k (shown n cap)) texts /\
    ((r = Ok tt /\ k = length (shown n cap) /\ tail = []) \/
     (exists f e,
        shown n cap !! k = Some f /\ text_of f = Raise e /\ r = Raise e /\
        tail = wait_events frame_time start_time (Z.of_nat (a + k))
                           (clock E (ticks w + k))
               ++ [Print clear_text])).
Proof.
  revert a cap w. induction n as [|n IH]; intros a cap w.
  - loop_ends.
  - rewrite seq_indices_cons. destruct cap as [|[f|] cap].
    + loop_ends.
    + rewrite play_read. destruct (text_of f) as [text|e] eqn:Hf.
      * destruct (IH (S a) cap
                    (advance w 1 (present_events frame_time start_time
                                    (Z.of_nat a) (clock E (ticks w)) text)))
          as (k & texts & tail & r & Hplay & Hk & Hall & Hend).
        exists (S k), (text :: texts), tail, r.
        rewrite Hplay, advance_advance, schedule_cons. simpl.
        rewrite Nat.add_1_r, <- app_assoc.
        split; [reflexivity|]. split; [lia|].
        split; [now constructor|].
        destruct Hend as [(-> & -> & ->)|(f' & e & Hk' & Hf' & -> & ->)].
        -- left. easy.
        -- right. exists f', e. repeat split; try assumption.
           match goal with
           | |- wait_events _ _ (Z.of_nat ?i) (clock E ?t) ++ _ =
                wait_events _ _ (Z.of_nat ?j) (clock E ?u) ++ _ =>
               replace i with j by lia; replace t with u by (simpl; lia)
           end.
           reflexivity.
      * exists 0%nat, [],
          (wait_events frame_time start_time (Z.of_nat a) (clock E (ticks w))
           ++ [Print clear_text]), (Raise e).
        simpl. rewrite !Nat.add_0_r.
        split.
        { f_equal. f_equal. rewrite length_app. simpl. lia. }
        split; [lia|]. split; [constructor|].
        right. exists f, e. easy.
    + loop_ends.
Qed.

End Loop.

End PlayerProps.

(** ** The save step *)

Module SaverProps.

Import PyFloat Sys Saver.

(** C8. If the answer to the prompt, trimmed and lowercased, is not [y],
    the save step returns at once: the file system is unchanged, and the
    only effects are the prompt and the reading of the answer, so that
    nothing is written and no child (no encoder) is started. *)
Theorem decline_is_noop (cv : Cv2.api) (E : env) (original_path : string)
    (use_ascii : bool) (w : world) (line : string) :
  stdin E = Some line ->
  PyText.lower (PyText.strip line) <> "y" ->
  exists w',
    save_as_video cv E original_path use_ascii w = (Ok tt, w') /\
    fs w' = fs w /\
    trace w' = trace w ++ [Print prompt; Input] /\
    Forall (fun e => writes_files e = false /\ starts_child e = false)
           [Print prompt; Input].
Proof.
  intros Hline Hchoice.
  eexists. split; [|split; [|split]].
  - unfold save_as_video.
    unfold mbind, M_bind, print_, emit, input. simpl. rewrite Hline. simpl.
    destruct (String.eqb_spec (PyText.lower (PyText.strip line)) "y")
      as [Heq|_]; [contradiction|].
    simpl. reflexivity.
  - reflexivity.
  - simpl. now rewrite <- app_assoc.
  - repeat constructor.
Qed.

Lemma decline_is_noop_witness :
  exists w',
    save_as_video Reference.opencv Samples.faulty_stream "video.mp4" true
                  Samples.empty_world = (Ok tt, w') /\
    fs w' = fs Samples.empty_world /\
    trace w' = trace Samples.empty_world ++ [Print prompt; Input] /\
    Forall (fun e => writes_files e = false /\ starts_child e = false)
           [Print prompt; Input].
Proof.
  apply (decline_is_noop Reference.opencv Samples.faulty_stream "video.mp4"
           true Samples.empty_world "n").
  - reflexivity.
  - discriminate.
Defined.

End SaverProps.

Module PlaybackClaims.

Import PyFloat Sys Player PlayerProps.

Lemma range_int_seq (n : Z) : range_int n = Z.of_nat <$> seq 0 (Z.to_nat n).
Proof. reflexivity. Qed.

Lemma shown_before_failure (n : nat) (pre : list Cv2.frame)
    (rest : list (option Cv2.frame)) :
  (length pre < n)%nat -> shown n ((Some <$> pre) ++ None :: rest) = pre.
Proof.
  revert n. induction pre as [|f pre IH]; intros [|n] Hn; simpl in *;
    try lia; [reflexivity|].
  f_equal. apply IH. lia.
Qed.

Lemma no_frame_in_tail (frame_time start_time : float) (i : Z) (t : float)
    (text : string) :
  In (Print text) (wait_events frame_time start_time i t ++ [Print clear_text]) ->
  text = clear_text.
Proof.
  unfold wait_events. destruct (ltb _ _); simpl.
  - intros [H|[H|[]]]; [discriminate | now injection H].
  - intros [H|[]]. now injection H.
Qed.

Lemma shown_lookup (n : nat) (cap : list (option Cv2.frame)) (i : nat)
    (f : Cv2.frame) :
  shown n cap !! i = Some f -> cap !! i = Some (Some f) /\ (i < n)%nat.
Proof.
  revert cap i. induction n as [|n IH]; intros [|[g|] cap] i; simpl;
    try discriminate.
  destruct i as [|i]; simpl.
  - intros [= ->]. split; [reflexivity | lia].
  - intros Hi. destruct (IH cap i Hi) as [Hcap Hlt]. split; [exact Hcap | lia].
Qed.

(** The list [shown n cap] stops at the count [n] or at the first read
    that yields no frame. *)
Lemma shown_stop (n : nat) (cap : list (option Cv2.frame)) :
  length (shown n cap) = n \/
  forall f, cap !! length (shown n cap) <> Some (Some f).
Proof.
  revert cap. induction n as [|n IH]; intros [|[g|] cap]; simpl;
    try (now left); try (right; intros f; discriminate).
  destruct (IH cap) as [Hn|Hstop]; [left; now rewrite Hn | right; exact Hstop].
Qed.

(** C5. The playback loop presents the frames in the order of their
    indices, without reordering and without a gap: the presented texts are
    numbered 0, 1, ..., k - 1, the text [i] is the rasterization of the
    frame read at index [i] of the stream, and it is presented after a
    wait computed from [delay = i * frame_time - (now - start_time)], a
    sleep of exactly [delay] if [delay > 0] and no wait at all otherwise
    (no frame is dropped to catch up). The loop ends in one of two ways. It
    returns, and then every frame read was presented: [k] is the frame
    count, or the read at index [k] yielded no frame. Or it raises, and
    then the frame read at index [k] is the one whose rasterization raised
    this very error, after the wait and the clearing of the screen for
    it; no frame is skipped on the way. The loop leaves the file system
    alone. *)
Theorem playback_order (cv : Cv2.api) (E : env) (use_ascii : bool)
    (frame_time start_time : float) (term_width term_height : Z)
    (frame_count : Z) (cap : list (option Cv2.frame)) (w : world) :
  exists (k : nat) (texts : list string) (tail : list event)
         (r : result unit) (w' : world),
    play_frames cv E use_ascii frame_time start_time term_width term_height
                (range_int frame_count) cap w = (r, w') /\
    (k <= length (shown (Z.to_nat frame_count) cap))%nat /\
    length texts = k /\
    (forall i text,
       texts !! i = Some text ->
       exists f,
         cap !! i = Some (Some f) /\ Z.of_nat i < frame_count /\
         rasterize cv use_ascii f term_width term_height = Ok text) /\
    Forall2 (fun f text =>
               rasterize cv use_ascii f term_width term_height = Ok text)
            (take k (shown (Z.to_nat frame_count) cap)) texts /\
    trace w' =
      trace w
      ++ concat (imap (fun i text =>
                         present_events frame_time start_time (Z.of_nat i)
                                        (clock E (ticks w + i)) text) texts)
      ++ tail /\
    fs w' = fs w /\
    (forall text, In (Print text) tail -> text = clear_text) /\
    ((r = Ok tt /\ tail = [] /\
      k = length (shown (Z.to_nat frame_count) cap) /\
      (k = Z.to_nat frame_count \/ forall f, cap !! k <> Some (Some f))) \/
     (exists f e,
        cap !! k = Some (Some f) /\ Z.of_nat k < frame_count /\
        rasterize cv use_ascii f term_width term_height = Raise e /\
        r = Raise e /\
        tail = wait_events frame_time start_time (Z.of_nat k)
                           (clock E (ticks w + k))
               ++ [Print clear_text])).
Proof.
  destruct (play_prefix cv E use_ascii frame_time start_time term_width
              term_height (Z.to_nat frame_count) 0 cap w)
    as (k & texts & tail & r & Hplay & Hk & Hall & Hend).
  exists k, texts, tail, r. eexists.
  split; [rewrite range_int_seq; exact Hplay|].
  split; [exact Hk|].
  assert (Hlen : length texts = k).
  { rewrite <- (Forall2_length _ _ _ Hall), length_take. lia. }
  split; [exact Hlen|].
  split.
  { intros i text Hi.
    destruct (Forall2_lookup_r _ _ _ _ _ Hall Hi) as (f & Hf & Htext).
    apply lookup_take_Some in Hf as [Hf _].
    apply shown_lookup in Hf as [Hcap Hlt].
    exists f. split; [exact Hcap|]. split; [lia | exact Htext]. }
  split; [exact Hall|].
  split; [reflexivity|]. split; [reflexivity|].
  destruct Hend as [(-> & -> & ->)|(f & e & Hf & Hraise & -> & ->)].
  - split; [intros text []|]. left.
    split; [reflexivity|]. split; [reflexivity|]. split; [reflexivity|].
    destruct (shown_stop (Z.to_nat frame_count) cap) as [Hn|Hstop];
      [left; exact Hn | right; exact Hstop].
  - split; [intros text; apply no_frame_in_tail|]. right.
    apply shown_lookup in Hf as [Hcap Hlt].
    exists f, e. split; [exact Hcap|]. split; [lia|].
    split; [exact Hraise|]. split; reflexivity.
Qed.

(** A stream of three frames whose second frame is empty, on a terminal of
    2 columns and 3 lines: the first frame is presented, the rasterization
    of the second raises, the third is never read. *)
Lemma playback_order_witness :
  exists (k : nat) (texts : list string) (tail : list event)
         (r : result unit) (w' : world),
    play_frames Reference.opencv Samples.faulty_stream true
                (div (of_int 1) (of_int 25)) (of_int 0) 2 3
                (range_int 3)
                [Some Samples.red_black; Some []; Some Samples.white]
                Samples.empty_world = (r, w') /\
    (k <= length (shown (Z.to_nat 3)
                    [Some Samples.red_black; Some []; Some Samples.white]))%nat /\
    length texts = k /\
    (forall i text,
       texts !! i = Some text ->
       exists f,
         [Some Samples.red_black; Some []; Some Samples.white] !! i
         = Some (Some f) /\ Z.of_nat i < 3 /\
         rasterize Reference.opencv true f 2 3 = Ok text) /\
    Forall2 (fun f text => rasterize Reference.opencv true f 2 3 = Ok text)
            (take k (shown (Z.to_nat 3)
                       [Some Samples.red_black; Some []; Some Samples.white]))
            texts /\
    trace w' =
      trace Samples.empty_world
      ++ concat (imap (fun i text =>
                         present_events (div (of_int 1) (of_int 25))
                           (of_int 0) (Z.of_nat i)
                           (clock Samples.faulty_stream
                                  (ticks Samples.empty_world + i)) text)
                      texts)
      ++ tail /\
    fs w' = fs Samples.empty_world /\
    (forall text, In (Print text) tail -> text = clear_text) /\
    ((r = Ok tt /\ tail = [] /\
      k = length (shown (Z.to_nat 3)
                    [Some Samples.red_black; Some []; Some Samples.white]) /\
      (k = Z.to_nat 3 \/
       forall f, [Some Samples.red_black; Some []; Some Samples.white] !! k
                 <> Some (Some f))) \/
     (exists f e,
        [Some Samples.red_black; Some []; Some Samples.white] !! k
        = Some (Some f) /\ Z.of_nat k < 3 /\
        rasterize Reference.opencv true f 2 3 = Raise e /\
        r = Raise e /\
        tail = wait_events (div (of_int 1) (of_int 25)) (of_int 0)
                 (Z.of_nat k)
                 (clock Samples.faulty_stream
                        (ticks Samples.empty_world + k))
               ++ [Print clear_text])).
Proof.
  apply (playback_order Reference.opencv Samples.faulty_stream true
           (div (of_int 1) (of_int 25)) (of_int 0) 2 3 3
           [Some Samples.red_black; Some []; Some Samples.white]
           Samples.empty_world).
Defined.

(** C2, as the code has it. A read that fails ends the playback loop: the
    frames read before it are presented, in order, no frame after it is,
    and the loop returns without an error. *)
Theorem failed_read_ends_playback (cv : Cv2.api) (E : env) (use_ascii : bool)
    (frame_time start_time : float) (term_width term_height : Z)
    (frame_count : nat) (pre : list Cv2.frame)
    (rest : list (option Cv2.frame)) (texts : list string) (w : world) :
  (length pre < frame_count)%nat ->
  Forall2 (fun f text =>
             rasterize cv use_ascii f term_width term_height = Ok text)
          pre texts ->
  play_frames cv E use_ascii frame_time start_time term_width term_height
              (range_int (Z.of_nat frame_count))
              ((Some <$> pre) ++ None :: rest) w
  = (Ok tt,
     {| fs := fs w;
        ticks := ticks w + length pre;
        trace := trace w
                 ++ schedule E frame_time start_time (ticks w) 0 texts |}).
Proof.
  intros Hlen Hall.
  rewrite range_int_seq, Nat2Z.id.
  rewrite (play_all cv E use_ascii frame_time start_time term_width
             term_height frame_count 0 _ texts).
  - unfold advance. now rewrite (Forall2_length _ _ _ Hall).
  - now rewrite shown_before_failure.
Qed.

Lemma failed_read_ends_playback_witness :
  play_frames Reference.opencv Samples.faulty_stream true
              (div (of_int 1) (of_int 25)) (of_int 0) 2 3
              (range_int (Z.of_nat 3))
              ((Some <$> [Samples.red_black]) ++ None :: [Some Samples.white])
              Samples.empty_world
  = (Ok tt,
     {| fs := fs Samples.empty_world;
        ticks := ticks Samples.empty_world + length [Samples.red_black];
        trace := trace Samples.empty_world
                 ++ schedule Samples.faulty_stream
                      (div (of_int 1) (of_int 25)) (of_int 0)
                      (ticks Samples.empty_world) 0 [Samples.red_black_text] |}).
Proof.
  apply (failed_read_ends_playback Reference.opencv Samples.faulty_stream true
           (div (of_int 1) (of_int 25)) (of_int 0) 2 3 3
           [Samples.red_black] [Some Samples.white] [Samples.red_black_text]
           Samples.empty_world).
  - simpl. lia.
  - repeat constructor.
Defined.

(** C2, as the specification states it, fails: in the stream whose second
    read fails the third frame is valid and below the frame count, and it
    is never presented. *)
Lemma failed_read_is_not_skipped :
  let end_of_playback :=
    play_video Reference.opencv Samples.faulty_stream "video.mp4" true
               Samples.empty_world in
  end_of_playback.1 = Ok true /\
  printed end_of_playback.2
    = [clear_text; Samples.red_black_text +:+ Raster.NL] /\
  reads Samples.faulty_stream !! 2%nat = Some (Some Samples.white) /\
  ~ skips_failed_reads Reference.opencv Samples.faulty_stream
      "video.mp4" true Samples.empty_world.
Proof.
  split; [vm_compute; reflexivity|].
  split; [vm_compute; reflexivity|].
  split; [reflexivity|].
  intros H.
  specialize (H 2%nat Samples.white
                (Raster.fg 255 255 255 +:+ "@" +:+ Raster.fg 255 255 255
                 +:+ "@" +:+ Raster.RESET_ALL +:+ Raster.NL) 3).
  assert (Hin := H eq_refl eq_refl eq_refl eq_refl). clear H.
  vm_compute in Hin.
  apply list_elem_of_In in Hin.
  destruct Hin as [Hin|[Hin|[]]]; discriminate Hin.
Qed.

End PlaybackClaims.

(** ** Cleaning up after the encoder *)

Module CleanupProps.

Import PyFloat Sys Saver.

(** The rule of sequence for a first step that does not raise. *)
Lemma triple_bind {A B} (P : world -> Prop) (R : A -> world -> Prop)
    (Q : result B -> world -> Prop) (m : M A) (k : A -> M B) :
  triple P m (fun r w => exists a, r = Ok a /\ R a w) ->
  (forall a, triple (R a) (k a) Q) ->
  triple P (m ≫= k) Q.
Proof.
  intros Hm Hk w HP. specialize (Hm w HP).
  unfold mbind, M_bind. destruct (m w) as [r w1]. simpl in Hm.
  destruct Hm as (a & -> & HR). apply Hk, HR.
Qed.

Lemma triple_bind_raise {A B} (P : world -> Prop) (R : A -> world -> Prop)
    (Q : result B -> world -> Prop) (m : M A) (k : A -> M B) :
  triple P m (fun r w => match r with
                         | Ok a => R a w
                         | Raise e => Q (Raise e) w
                         end) ->
  (forall a, triple (R a) (k a) Q) ->
  triple P (m ≫= k) Q.
Proof.
  intros Hm Hk w HP. specialize (Hm w HP).
  unfold mbind, M_bind. destruct (m w) as [[a|e] w1]; simpl in *.
  - apply Hk, Hm.
  - exact Hm.
Qed.

Lemma triple_post {A} (P : world -> Prop) (m : M A)
    (Q Q' : result A -> world -> Prop) :
  (forall r w, Q r w -> Q' r w) -> triple P m Q -> triple P m Q'.
Proof. intros HQ Hm w HP. apply HQ, Hm, HP. Qed.

Lemma triple_weaken {A} (P P' : world -> Prop) (m : M A)
    (Q : result A -> world -> Prop) :
  (forall w, P' w -> P w) -> triple P m Q -> triple P' m Q.
Proof. intros HPP Hm w HP. apply Hm, HPP, HP. Qed.

Lemma triple_emit (P : gmap string node -> Prop) (e : event) :
  triple (fun w => P (fs w)) (emit e)
         (fun r w => exists a, r = Ok a /\ P (fs w)).
Proof. intros w HP. simpl. eauto. Qed.

(** A directory stays a directory when a file is written. *)
Lemma triple_write_file (d path : string) :
  triple (fun w => fs w !! d = Some Dir) (write_file path)
         (fun r w => exists a, r = Ok a /\ fs w !! d = Some Dir).
Proof.
  intros w Hd. unfold write_file, mbind, M_bind, get_fs, put_fs. simpl.
  destruct (fs w !! path) as [[|]|] eqn:Hp; simpl; exists tt;
    (split; [reflexivity|]); try exact Hd.
  - rewrite lookup_insert_ne; [exact Hd | congruence].
  - rewrite lookup_insert_ne; [exact Hd | congruence].
Qed.

Lemma triple_imwrite (d path : string) (img : Cv2.frame) :
  triple (fun w => fs w !! d = Some Dir) (imwrite path img)
         (fun r w => exists a, r = Ok a /\ fs w !! d = Some Dir).
Proof.
  unfold imwrite. eapply triple_bind.
  - apply (triple_emit (fun f => f !! d = Some Dir)).
  - intros ?. apply triple_write_file.
Qed.

Lemma triple_write_frames (d : string) (frames : list Cv2.frame) (i : nat) :
  triple (fun w => fs w !! d = Some Dir) (write_frames i frames)
         (fun r w => exists a, r = Ok a /\ fs w !! d = Some Dir).
Proof.
  revert i. induction frames as [|f frames IH]; intros i.
  - intros w Hd. simpl. eauto.
  - simpl. eapply triple_bind; [apply triple_imwrite|].
    intros ?. apply IH.
Qed.

Lemma triple_makedirs (d : string) :
  triple (fun w => fs w !! d <> Some File) (makedirs d)
         (fun r w => exists a, r = Ok a /\ fs w !! d = Some Dir).
Proof.
  intros w Hd. unfold makedirs, mbind, M_bind, emit, get_fs, put_fs. simpl.
  destruct (fs w !! d) as [[|]|] eqn:Hp; simpl;
    [contradiction | |]; exists tt; (split; [reflexivity|]);
    apply lookup_insert_eq.
Qed.

(** A child that exits, whatever its exit code. *)
Lemma triple_run (E : env) (d : string) (argv : list arg) (out : string)
    (code : Z) (wrote : bool) :
  child E argv = Exited code wrote ->
  triple (fun w => fs w !! d = Some Dir) (run E argv out)
         (fun r w => exists a, r = Ok a /\ fs w !! d = Some Dir).
Proof.
  intros Hc. unfold run. rewrite Hc.
  eapply triple_bind.
  - apply (triple_emit (fun f => f !! d = Some Dir)).
  - intros ?. destruct wrote; [apply triple_write_file|].
    intros w Hd. simpl. eauto.
Qed.

Lemma triple_extract_audio (E : env) (d : string) (input_path out : string)
    (code : Z) (wrote : bool) :
  child E [Lit "ffmpeg"; Lit "-y"; Lit "-i"; Lit input_path;
           Lit "-vn"; Lit "-acodec"; Lit "aac"; Lit "-filter:a";
           Lit "volume=0.5"; Lit out] = Exited code wrote ->
  triple (fun w => fs w !! d = Some Dir) (extract_audio E input_path out)
         (fun r w => exists a, r = Ok a /\ a = out /\ fs w !! d = Some Dir).
Proof.
  intros Hc. unfold extract_audio. eapply triple_bind.
  - eapply triple_run, Hc.
  - intros ? w Hd. simpl. eauto.
Qed.

(** After [rmtree] of a directory nothing is left at or below it. *)
Lemma triple_rmtree (d : string) :
  triple (fun w => fs w !! d = Some Dir) (rmtree d)
         (fun r w => exists a, r = Ok a /\
                     forall p, below d p = true -> fs w !! p = None).
Proof.
  intros w Hd. unfold rmtree, mbind, M_bind, emit, get_fs, put_fs. simpl.
  rewrite Hd. simpl. exists tt. split; [reflexivity|].
  intros p Hp. apply map_lookup_filter_None. right.
  intros x _. simpl. congruence.
Qed.

(** After [remove], raised or not, there is no file at the path, and
    nothing has appeared anywhere. *)
Lemma triple_remove (P : string -> Prop) (path : string) :
  triple (fun w => forall p, P p -> fs w !! p = None) (remove path)
         (fun r w =>
            (forall p, P p -> fs w !! p = None) /\
            fs w !! path <> Some File /\
            ((exists a, r = Ok a) \/ r = Raise FileNotFoundError
             \/ r = Raise IsADirectoryError)).
Proof.
  intros w HP. unfold remove, mbind, M_bind, emit, get_fs, put_fs. simpl.
  destruct (fs w !! path) as [[|]|] eqn:Hp; simpl.
  - split; [|split].
    + intros p Hpp. destruct (decide (path = p)) as [<-|Hne].
      * apply lookup_delete_eq.
      * rewrite lookup_delete_ne by exact Hne. now apply HP.
    + rewrite lookup_delete_eq. discriminate.
    + left. eauto.
  - split; [exact HP|]. split; [congruence|]. right. now right.
  - split; [exact HP|]. split; [congruence|]. right. now left.
Qed.

(** One step of a sequence whose first computation is known not to raise. *)
Ltac triple_step :=
  eapply triple_bind;
  [ first [ apply triple_makedirs | apply triple_write_frames
          | apply triple_rmtree ]
  | intros ? ].

End CleanupProps.

Module CleanupClaims.

Import PyFloat Sys Saver CleanupProps.

Lemma triple_finish (E : env) (original_path output_path : string)
    (frames : list Cv2.frame) (c1 c2 : Z) (wrote1 wrote2 : bool) :
  child E [Lit "ffmpeg"; Lit "-y"; Lit "-i"; Lit original_path;
           Lit "-vn"; Lit "-acodec"; Lit "aac"; Lit "-filter:a";
           Lit "volume=0.5"; Lit temp_audio_output] = Exited c1 wrote1 ->
  child E (encoder (effective_fps E) temp_audio_output output_path)
    = Exited c2 wrote2 ->
  triple (fun w => fs w !! temp_frames_dir <> Some File)
         (finish E original_path output_path frames) cleaned.
Proof.
  intros Hextract Hencode. unfold finish.
  do 2 triple_step.
  eapply triple_bind; [eapply triple_extract_audio, Hextract|].
  intros temp_audio. simpl.
  eapply triple_bind with
    (R := fun _ w => temp_audio = temp_audio_output /\
                     fs w !! temp_frames_dir = Some Dir).
  { intros w [-> Hd].
    destruct (triple_run E temp_frames_dir _ output_path c2 wrote2 Hencode w Hd)
      as (u & Hu & Hd').
    exists u. auto. }
  intros ?.
  eapply triple_weaken with (P := fun w =>
    temp_audio = temp_audio_output /\ fs w !! temp_frames_dir = Some Dir);
    [tauto|].
  intros w [-> Hd]. revert w Hd.
  change (triple (fun w => fs w !! temp_frames_dir = Some Dir)
            (rmtree temp_frames_dir;;
             remove temp_audio_output;;
             print (Raster.NL +:+ "✅ Saved as " +:+ output_path))
            cleaned).
  triple_step.
  eapply triple_bind_raise with
    (R := fun _ w =>
            (forall p, below temp_frames_dir p = true -> fs w !! p = None) /\
            fs w !! temp_audio_output <> Some File).
  - eapply triple_post;
      [|apply (triple_remove (fun p => below temp_frames_dir p = true))].
    intros r w (Hgone & Hfile & Hr). destruct r as [[]|e].
    + split; assumption.
    + split; [exact Hgone|]. split; [exact Hfile|].
      destruct Hr as [[? [=]]|[Hr|Hr]]; auto.
  - intros ? w [Hgone Hfile]. simpl.
    split; [exact Hgone|]. split; [exact Hfile|]. now left.
Qed.

(** An invocation of the encoder that raises ends the step there. *)
Lemma triple_finish_raise (E : env) (original_path output_path : string)
    (frames : list Cv2.frame) (c1 : Z) (wrote1 : bool) (e : exn) :
  child E [Lit "ffmpeg"; Lit "-y"; Lit "-i"; Lit original_path;
           Lit "-vn"; Lit "-acodec"; Lit "aac"; Lit "-filter:a";
           Lit "volume=0.5"; Lit temp_audio_output] = Exited c1 wrote1 ->
  child E (encoder (effective_fps E) temp_audio_output output_path)
    = NotRun e ->
  triple (fun w => fs w !! temp_frames_dir <> Some File)
         (finish E original_path output_path frames)
         (fun r w => r = Raise e /\ fs w !! temp_frames_dir = Some Dir).
Proof.
  intros Hextract Hencode. unfold finish.
  do 2 triple_step.
  eapply triple_bind; [eapply triple_extract_audio, Hextract|].
  intros temp_audio w [-> Hd]. unfold temp_audio_output in Hencode.
  unfold mbind, M_bind, run, emit, raise. simpl.
  unfold mbind, M_bind. rewrite Hencode. simpl. split; [reflexivity | exact Hd].
Qed.

(** Accepting the prompt leads to the collection of the frames and then to
    the rest of the step. *)
Lemma save_as_video_accept (cv : Cv2.api) (E : env) (original_path : string)
    (use_ascii : bool) (w : world) (line : string) (n : Z)
    (frames : list Cv2.frame) :
  stdin E = Some line ->
  PyText.lower (PyText.strip line) = "y" ->
  to_int (prop_frame_count E) = Ok n ->
  collect_frames cv use_ascii (get_terminal_resolution E).1
                 (get_terminal_resolution E).2 (range_int n) (reads E) []
    = Ok frames ->
  save_as_video cv E original_path use_ascii w =
  finish E original_path
         (PyText.join (PyText.dirname original_path)
                      ("terminal+" +:+ PyText.basename original_path))
         frames (advance w 0 [Print prompt; Input]).
Proof.
  intros Hline Hchoice Hcount Hframes. unfold save_as_video.
  destruct (get_terminal_resolution E) as [tw th]. simpl in Hframes.
  unfold mbind at 1 2. unfold M_bind at 1 2.
  unfold print_, emit, input. simpl. rewrite Hline. simpl.
  rewrite Hchoice. simpl.
  unfold mbind at 1 2. unfold M_bind at 1 2. unfold lift.
  rewrite Hcount, Hframes. unfold finish, advance. simpl.
  now rewrite Nat.add_0_r, <- app_assoc.
Qed.

(** C3, as the code has it. When the step reaches the encoder and the
    encoder exits, with whatever exit code, nothing is left at or below the
    temporary frame directory and no temporary audio file is left when the
    step ends (normally, or with the error of removing an audio file that
    was never written). When the invocation of the encoder raises instead,
    the step ends with that error and the temporary frame directory is
    still there. *)
Theorem cleanup_when_encoder_exits (cv : Cv2.api) (E : env)
    (original_path : string) (use_ascii : bool) (w : world) (line : string)
    (n : Z) (frames : list Cv2.frame) (c1 : Z) (wrote1 : bool) :
  stdin E = Some line ->
  PyText.lower (PyText.strip line) = "y" ->
  to_int (prop_frame_count E) = Ok n ->
  collect_frames cv use_ascii (get_terminal_resolution E).1
                 (get_terminal_resolution E).2 (range_int n) (reads E) []
    = Ok frames ->
  fs w !! temp_frames_dir <> Some File ->
  child E [Lit "ffmpeg"; Lit "-y"; Lit "-i"; Lit original_path;
           Lit "-vn"; Lit "-acodec"; Lit "aac"; Lit "-filter:a";
           Lit "volume=0.5"; Lit temp_audio_output] = Exited c1 wrote1 ->
  exists r w',
    save_as_video cv E original_path use_ascii w = (r, w') /\
    match child E (encoder (effective_fps E) temp_audio_output
                     (PyText.join (PyText.dirname original_path)
                        ("terminal+" +:+ PyText.basename original_path))) with
    | Exited _ _ =>
        (forall p, below temp_frames_dir p = true -> fs w' !! p = None) /\
        fs w' !! temp_audio_output <> Some File /\
        (r = Ok tt \/ r = Raise FileNotFoundError
         \/ r = Raise IsADirectoryError)
    | NotRun e =>
        r = Raise e /\ fs w' !! temp_frames_dir = Some Dir
    end.
Proof.
  intros Hline Hchoice Hcount Hframes Hdir Hextract.
  rewrite (save_as_video_accept cv E original_path use_ascii w line n frames)
    by assumption.
  destruct (child E (encoder _ _ _)) as [e|c2 wrote2] eqn:Hencode.
  - pose proof (triple_finish_raise E original_path _ frames c1 wrote1 e
                  Hextract Hencode (advance w 0 [Print prompt; Input]) Hdir)
      as Hfin.
    destruct (finish _ _ _ _ _) as [r w']. exists r, w'.
    split; [reflexivity | exact Hfin].
  - pose proof (triple_finish E original_path _ frames c1 c2 wrote1 wrote2
                  Hextract Hencode (advance w 0 [Print prompt; Input]) Hdir)
      as Hfin.
    destruct (finish _ _ _ _ _) as [r w']. exists r, w'.
    split; [reflexivity | exact Hfin].
Qed.

Lemma cleanup_when_encoder_exits_witness :
  exists r w',
    save_as_video Reference.opencv Samples.encoder_fails "dir/video.mp4" true
                  Samples.empty_world = (r, w') /\
    (forall p, below temp_frames_dir p = true -> fs w' !! p = None) /\
    fs w' !! temp_audio_output <> Some File /\
    (r = Ok tt \/ r = Raise FileNotFoundError \/ r = Raise IsADirectoryError).
Proof.
  apply (cleanup_when_encoder_exits Reference.opencv Samples.encoder_fails
           "dir/video.mp4" true Samples.empty_world " Y " 1
           [Samples.red_black] 0 true);
    try reflexivity.
  discriminate.
Defined.

(** C3, as the specification states it, fails: when the invocation of the
    encoder raises, the step ends with that error and both temporaries are
    still there. *)
Lemma encoder_error_skips_cleanup :
  let end_of_step :=
    save_as_video Reference.opencv Samples.encoder_interrupted
                  "video.mp4" true Samples.empty_world in
  end_of_step.1 = Raise OSError /\
  fs end_of_step.2 !! temp_frames_dir = Some Dir /\
  fs end_of_step.2 !! (temp_frames_dir +:+ "/frame0000.png") = Some File /\
  fs end_of_step.2 !! temp_audio_output = Some File /\
  ~ cleans_up_on_every_path Reference.opencv Samples.encoder_interrupted
      "video.mp4" true Samples.empty_world.
Proof.
  split; [vm_compute; reflexivity|].
  split; [vm_compute; reflexivity|].
  split; [vm_compute; reflexivity|].
  split; [vm_compute; reflexivity|].
  intros [Hdir _]. vm_compute in Hdir. discriminate Hdir.
Qed.

End CleanupClaims.

(** * The rest of the program *)

(** ** Playing a video from start to end *)

Module PlayVideoProps.

Import PyFloat Sys Player PlayerProps Program.

(** The guard on the frame rate keeps [1 / fps] from dividing by zero. *)
Lemma frame_interval_defined (E : env) :
  exists frame_time, frame_interval E = Ok frame_time.
Proof.
  unfold frame_interval, effective_fps.
  destruct (prop_fps E) as [s|s| |s m e]; simpl; eauto;
    destruct s; simpl; eauto.
Qed.

Section Run.

Variable cv : Cv2.api.
Variable E : env.
Variable path : string.
Variable use_ascii : bool.

(** [play_video] up to the loop, and what follows it. *)
Lemma play_video_steps (w : world) (frame_time : float) (n c : Z)
    (wrote : bool) :
  frame_interval E = Ok frame_time ->
  to_int (prop_frame_count E) = Ok n ->
  child E (extract_argv path temp_audio) = Exited c wrote ->
  play_video cv E path use_ascii w =
  match play_frames cv E use_ascii frame_time (clock E (ticks w))
          (get_terminal_resolution E).1 (get_terminal_resolution E).2
          (range_int n) (reads E)
          {| fs := written (fs w) wrote temp_audio;
             ticks := S (ticks w);
             trace := trace w ++ [Run (extract_argv path temp_audio);
                                  Thread (play_audio temp_audio)] |} with
  | (Ok _, w') =>
      match remove temp_audio w' with
      | (Ok _, w'') => (Ok use_ascii, w'')
      | (Raise e, w'') => (Raise e, w'')
      end
  | (Raise e, w') => (Raise e, w')
  end.
Proof.
  intros Hft Hcount Hchild. unfold play_video.
  unfold frame_interval in Hft. unfold extract_argv, temp_audio in *.
  destruct (get_terminal_resolution E) as [tw th]. simpl.
  unfold mbind, M_bind, lift, extract_audio, run, written, write_file,
    emit, get_fs, put_fs, perf_counter, mret, M_ret.
  rewrite Hft, Hcount. unfold mbind, M_bind. simpl. rewrite Hchild.
  destruct wrote; simpl.
  - destruct (fs w !! "temp_audio.aac") as [[|]|]; simpl;
      rewrite <- app_assoc; simpl;
      destruct (play_frames _ _ _ _ _ _ _ _ _ _) as [[[]|e] w'];
      try reflexivity;
      destruct (remove "temp_audio.aac" w') as [[[]|e'] w'']; reflexivity.
  - rewrite <- app_assoc; simpl.
    destruct (play_frames _ _ _ _ _ _ _ _ _ _) as [[[]|e] w'];
      try reflexivity;
      destruct (remove "temp_audio.aac" w') as [[[]|e'] w'']; reflexivity.
Qed.

Lemma remove_file (p : string) (w : world) :
  fs w !! p = Some File ->
  remove p w = (Ok tt, {| fs := delete p (fs w); ticks := ticks w;
                          trace := trace w ++ [Remove p] |}).
Proof.
  intros Hp. unfold remove, mbind, M_bind, emit, get_fs, put_fs. simpl.
  now rewrite Hp.
Qed.

Lemma remove_absent (p : string) (w : world) :
  fs w !! p = None ->
  remove p w = (Raise FileNotFoundError,
                {| fs := fs w; ticks := ticks w;
                   trace := trace w ++ [Remove p] |}).
Proof.
  intros Hp. unfold remove, mbind, M_bind, emit, get_fs, put_fs. simpl.
  now rewrite Hp.
Qed.

Lemma written_file (f : gmap string node) (out : string) :
  f !! out <> Some Dir -> written f true out = <[out := File]> f.
Proof.
  intros Hout. unfold written.
  destruct (f !! out) as [[|]|]; [reflexivity | contradiction | reflexivity].
Qed.

(** A playback in which nothing fails, with its frame interval. *)
Lemma play_video_run (w : world) (ft : float) (n c : Z)
    (texts : list string) :
  frame_interval E = Ok ft ->
  to_int (prop_frame_count E) = Ok n ->
  child E (extract_argv path temp_audio) = Exited c true ->
  fs w !! temp_audio <> Some Dir ->
  Forall2 (fun f text =>
             rasterize cv use_ascii f (get_terminal_resolution E).1
                       (get_terminal_resolution E).2 = Ok text)
          (shown (Z.to_nat n) (reads E)) texts ->
  play_video cv E path use_ascii w =
  (Ok use_ascii,
   {| fs := delete temp_audio (fs w);
      ticks := S (ticks w) + length texts;
      trace := trace w
               ++ [Run (extract_argv path temp_audio);
                   Thread (play_audio temp_audio)]
               ++ schedule E ft (clock E (ticks w)) (S (ticks w)) 0 texts
               ++ [Remove temp_audio] |}).
Proof.
  intros Hft Hcount Hchild Hdir Hall.
  rewrite (play_video_steps w ft n c true Hft Hcount Hchild).
  change (range_int n) with (Z.of_nat <$> seq 0 (Z.to_nat n)).
  rewrite (play_all cv E use_ascii ft (clock E (ticks w)) _ _ _ 0 _ texts _ Hall).
  rewrite written_file by exact Hdir.
  rewrite remove_file by (simpl; apply lookup_insert_eq).
  unfold advance. simpl. rewrite delete_insert_eq.
  now rewrite <- !app_assoc.
Qed.


Lemma printed_app (w : world) (es : list event) :
  printed {| fs := fs w; ticks := ticks w; trace := trace w ++ es |}
  = printed w ++ omap (fun e => match e with
                                | Print text => Some text
                                | _ => None
                                end) es.
Proof. unfold printed. simpl. apply omap_app. Qed.

(** What a schedule prints: per frame the clearing of the screen and the
    text of the frame. *)
Lemma printed_schedule (frame_time start_time : float) (texts : list string)
    (tick first : nat) :
  omap (fun e => match e with Print text => Some text | _ => None end)
       (schedule E frame_time start_time tick first texts)
  = concat ((fun text => [clear_text; text +:+ Raster.NL]) <$> texts).
Proof.
  revert tick first. induction texts as [|text texts IH]; intros tick first;
    [reflexivity|].
  rewrite schedule_cons, omap_app, IH, fmap_cons. simpl. f_equal.
  unfold present_events, wait_events. rewrite omap_app.
  destruct (ltb _ _); reflexivity.
Qed.

(** X2. A frame count that is zero or negative (the decoder does not know
    the length of the stream) plays nothing: [play_video] returns with
    nothing printed, whatever the decoder could have read. *)
Theorem unknown_length_plays_nothing (w : world) (n c : Z) :
  to_int (prop_frame_count E) = Ok n ->
  n <= 0 ->
  child E (extract_argv path temp_audio) = Exited c true ->
  fs w !! temp_audio <> Some Dir ->
  (play_video cv E path use_ascii w).1 = Ok use_ascii /\
  printed (play_video cv E path use_ascii w).2 = printed w /\
  fs (play_video cv E path use_ascii w).2 = delete temp_audio (fs w).
Proof.
  intros Hcount Hn Hchild Hdir.
  destruct (frame_interval_defined E) as [ft Hft].
  rewrite (play_video_run w ft n c [] Hft Hcount Hchild Hdir).
  2:{ replace (Z.to_nat n) with 0%nat by lia. constructor. }
  split; [reflexivity|]. split; [|reflexivity].
  unfold printed. simpl. rewrite omap_app. simpl. now rewrite app_nil_r.
Qed.

(** Without an audio file [play_video] ends with an exception, and the
    file system is as before. *)
Lemma without_audio (w : world) (c : Z) :
  child E (extract_argv path temp_audio) = Exited c false ->
  fs w !! temp_audio = None ->
  (forall b, (play_video cv E path use_ascii w).1 <> Ok b) /\
  fs (play_video cv E path use_ascii w).2 = fs w.
Proof.
  intros Hchild Hnone.
  destruct (frame_interval_defined E) as [ft Hft].
  destruct (to_int (prop_frame_count E)) as [n|e] eqn:Hcount.
  - rewrite (play_video_steps w ft n c false Hft Hcount Hchild).
    change (range_int n) with (Z.of_nat <$> seq 0 (Z.to_nat n)).
    destruct (play_prefix cv E use_ascii ft (clock E (ticks w))
                (get_terminal_resolution E).1 (get_terminal_resolution E).2
                (Z.to_nat n) 0 (reads E)
                {| fs := written (fs w) false temp_audio;
                   ticks := S (ticks w);
                   trace := trace w ++ [Run (extract_argv path temp_audio);
                                        Thread (play_audio temp_audio)] |})
      as (k & texts & tail & r & Hplay & _).
    rewrite Hplay. destruct r as [[]|e].
    + rewrite remove_absent by exact Hnone. split; [discriminate|reflexivity].
    + split; [discriminate|reflexivity].
  - unfold play_video. unfold frame_interval in Hft.
    destruct (get_terminal_resolution E). unfold mbind, M_bind, lift.
    rewrite Hft, Hcount. split; [discriminate|reflexivity].
Qed.

(** X3. When the extraction leaves no audio file (the video has no audio
    track, say) [play_video] never returns: whatever it has presented, it
    ends with an exception, and the file system is as before. When the
    frames could all be presented, the exception is the
    [FileNotFoundError] of removing the file that was never written. *)
Theorem silent_video_never_returns (w : world) (c : Z) :
  child E (extract_argv path temp_audio) = Exited c false ->
  fs w !! temp_audio = None ->
  (forall b, (play_video cv E path use_ascii w).1 <> Ok b) /\
  fs (play_video cv E path use_ascii w).2 = fs w /\
  (forall n texts,
     to_int (prop_frame_count E) = Ok n ->
     Forall2 (fun f text =>
                rasterize cv use_ascii f (get_terminal_resolution E).1
                          (get_terminal_resolution E).2 = Ok text)
             (shown (Z.to_nat n) (reads E)) texts ->
     (play_video cv E path use_ascii w).1 = Raise FileNotFoundError /\
     printed (play_video cv E path use_ascii w).2
       = printed w ++ concat ((fun text => [clear_text; text +:+ Raster.NL])
                              <$> texts)).
Proof.
  intros Hchild Hnone.
  destruct (without_audio w c Hchild Hnone) as [Hraise Hfs].
  split; [exact Hraise|]. split; [exact Hfs|].
  intros n texts Hcount Hall.
  destruct (frame_interval_defined E) as [ft Hft].
  rewrite (play_video_steps w ft n c false Hft Hcount Hchild).
  change (range_int n) with (Z.of_nat <$> seq 0 (Z.to_nat n)).
  rewrite (play_all cv E use_ascii ft (clock E (ticks w)) _ _ _ 0 _ texts
             _ Hall).
  rewrite remove_absent by exact Hnone.
  split; [reflexivity|].
  unfold printed, advance. simpl. rewrite !omap_app. simpl.
  now rewrite printed_schedule, !app_nil_r.
Qed.

(** X4. On a terminal of at most two lines a video with at least one
    frame cannot be played: [play_video] clears the screen once, raises the
    error of the resize, and does not remove the temporary audio file it
    has extracted. *)
Theorem short_terminal_playback (w : world) (n c : Z) (wrote : bool)
    (f : Cv2.frame) (rest : list (option Cv2.frame)) :
  (terminal_size E).2 <= 2 ->
  to_int (prop_frame_count E) = Ok n ->
  1 <= n ->
  reads E = Some f :: rest ->
  child E (extract_argv path temp_audio) = Exited c wrote ->
  (play_video cv E path use_ascii w).1 = Raise Cv2Error /\
  printed (play_video cv E path use_ascii w).2 = printed w ++ [clear_text] /\
  fs (play_video cv E path use_ascii w).2 = written (fs w) wrote temp_audio /\
  (wrote = true -> fs w !! temp_audio <> Some Dir ->
   fs (play_video cv E path use_ascii w).2 !! temp_audio = Some File).
Proof.
  intros Hlines Hcount Hn Hreads Hchild.
  destruct (frame_interval_defined E) as [ft Hft].
  rewrite (play_video_steps w ft n c wrote Hft Hcount Hchild), Hreads.
  change (range_int n) with (Z.of_nat <$> seq 0 (Z.to_nat n)).
  replace (Z.to_nat n) with (S (Z.to_nat (n - 1))) by lia.
  rewrite seq_indices_cons, play_read.
  assert (Hraise : rasterize cv use_ascii f (get_terminal_resolution E).1
                     (get_terminal_resolution E).2 = Raise Cv2Error).
  { unfold rasterize, Raster.frame_to_ascii_colored,
      Raster.frame_to_colored_blocks, get_terminal_resolution. simpl.
    rewrite (Cv2.resize_empty_dsize cv) by lia.
    now destruct use_ascii. }
  rewrite Hraise. unfold advance, printed. simpl.
  split; [reflexivity|]. split; [|split; [reflexivity|]].
  - rewrite !omap_app. simpl. unfold wait_events.
    destruct (ltb _ _); simpl; now rewrite ?app_nil_r.
  - intros -> Hdir. rewrite written_file by exact Hdir.
    apply lookup_insert_eq.
Qed.

(** X5. When [ffmpeg] cannot be started, playback stops at the extraction
    of the audio with the error of [subprocess.run]: no frame is read or
    shown, no thread is started and nothing is written. *)
Theorem playback_needs_ffmpeg (w : world) (n : Z) (e : exn) :
  to_int (prop_frame_count E) = Ok n ->
  child E (extract_argv path temp_audio) = NotRun e ->
  play_video cv E path use_ascii w =
  (Raise e,
   {| fs := fs w; ticks := ticks w;
      trace := trace w ++ [Run (extract_argv path temp_audio)] |}).
Proof.
  intros Hcount Hchild.
  destruct (frame_interval_defined E) as [ft Hft].
  unfold play_video. unfold frame_interval in Hft.
  unfold extract_argv, temp_audio in *.
  destruct (get_terminal_resolution E) as [tw th].
  unfold mbind, M_bind, lift, extract_audio, run, emit, raise.
  rewrite Hft, Hcount. unfold mbind, M_bind. simpl. now rewrite Hchild.
Qed.

End Run.


Lemma unknown_length_plays_nothing_witness :
  (play_video Reference.opencv MoreSamples.unknown_length "video.mp4" false
              Samples.empty_world).1 = Ok false /\
  printed (play_video Reference.opencv MoreSamples.unknown_length "video.mp4"
                      false Samples.empty_world).2
    = printed Samples.empty_world /\
  fs (play_video Reference.opencv MoreSamples.unknown_length "video.mp4"
                 false Samples.empty_world).2
    = delete temp_audio (fs Samples.empty_world).
Proof.
  apply (unknown_length_plays_nothing Reference.opencv
           MoreSamples.unknown_length "video.mp4" false Samples.empty_world
           (-1) 0).
  - reflexivity.
  - lia.
  - reflexivity.
  - discriminate.
Defined.

Lemma silent_video_never_returns_witness :
  (play_video Reference.opencv MoreSamples.silent_video "video.mp4" true
              Samples.empty_world).1 = Raise FileNotFoundError /\
  printed (play_video Reference.opencv MoreSamples.silent_video "video.mp4"
                      true Samples.empty_world).2
    = printed Samples.empty_world
      ++ concat ((fun text => [clear_text; text +:+ Raster.NL])
                 <$> [Samples.red_black_text]).
Proof.
  apply (proj2 (proj2 (silent_video_never_returns Reference.opencv
                         MoreSamples.silent_video "video.mp4" true
                         Samples.empty_world 1 eq_refl eq_refl))
           1 [Samples.red_black_text]).
  - reflexivity.
  - repeat constructor.
Defined.

Lemma short_terminal_playback_witness :
  (play_video Reference.opencv Samples.short_terminal "video.mp4" true
              Samples.empty_world).1 = Raise Cv2Error /\
  fs (play_video Reference.opencv Samples.short_terminal "video.mp4" true
                 Samples.empty_world).2 !! temp_audio = Some File.
Proof.
  destruct (short_terminal_playback Reference.opencv Samples.short_terminal
              "video.mp4" true Samples.empty_world 3 0 true Samples.red_black
              [None; Some Samples.white])
    as (Hraise & _ & _ & Hleft).
  - simpl. lia.
  - reflexivity.
  - lia.
  - reflexivity.
  - reflexivity.
  - split; [exact Hraise|]. apply Hleft; [reflexivity | discriminate].
Defined.

Lemma playback_needs_ffmpeg_witness :
  play_video Reference.opencv MoreSamples.no_ffmpeg "video.mp4" true
             Samples.empty_world =
  (Raise FileNotFoundError,
   {| fs := fs Samples.empty_world; ticks := ticks Samples.empty_world;
      trace := trace Samples.empty_world
               ++ [Run (extract_argv "video.mp4" temp_audio)] |}).
Proof.
  apply (playback_needs_ffmpeg Reference.opencv MoreSamples.no_ffmpeg
           "video.mp4" true Samples.empty_world 1 FileNotFoundError);
    reflexivity.
Defined.

End PlayVideoProps.

(** ** Saving a video from start to end *)

Module SaveRunProps.

Import PyFloat Sys Saver Program.

(** Sequencing after a computation whose outcome is known. *)
Lemma bind_ok {A B} (m : M A) (k : A -> M B) (w w' : world) (a : A) :
  m w = (Ok a, w') -> (m ≫= k) w = k a w'.
Proof. intros H. unfold mbind, M_bind. now rewrite H. Qed.

Lemma bind_raise {A B} (m : M A) (k : A -> M B) (w w' : world) (e : exn) :
  m w = (Raise e, w') -> (m ≫= k) w = (Raise e, w').
Proof. intros H. unfold mbind, M_bind. now rewrite H. Qed.

Lemma makedirs_ok (d : string) (w : world) :
  fs w !! d <> Some File ->
  makedirs d w = (Ok tt, {| fs := <[d := Dir]> (fs w); ticks := ticks w;
                            trace := trace w ++ [MakeDirs d] |}).
Proof.
  intros Hd. unfold makedirs, mbind, M_bind, emit, get_fs, put_fs. simpl.
  destruct (fs w !! d) as [[|]|]; [contradiction | reflexivity | reflexivity].
Qed.

Lemma write_file_run (p : string) (w : world) :
  write_file p w = (Ok tt, {| fs := written (fs w) true p; ticks := ticks w;
                              trace := trace w |}).
Proof.
  unfold write_file, written, mbind, M_bind, get_fs, put_fs. simpl.
  destruct (fs w !! p) as [[|]|]; try reflexivity.
  now destruct w.
Qed.

Lemma run_exited (E : env) (argv : list arg) (out : string) (w : world)
    (code : Z) (wrote : bool) :
  child E argv = Exited code wrote ->
  run E argv out w = (Ok tt, {| fs := written (fs w) wrote out;
                                ticks := ticks w;
                                trace := trace w ++ [Run argv] |}).
Proof.
  intros Hc. unfold run. rewrite Hc.
  unfold mbind, M_bind, emit. simpl. destruct wrote.
  - now rewrite write_file_run.
  - reflexivity.
Qed.

Lemma extract_audio_exited (E : env) (input out : string) (w : world)
    (code : Z) (wrote : bool) :
  child E (extract_argv input out) = Exited code wrote ->
  extract_audio E input out w =
  (Ok out, {| fs := written (fs w) wrote out; ticks := ticks w;
              trace := trace w ++ [Run (extract_argv input out)] |}).
Proof.
  intros Hc. unfold extract_audio.
  now rewrite (bind_ok _ _ _ _ _ (run_exited E _ out w code wrote Hc)).
Qed.

Lemma rmtree_dir (d : string) (w : world) :
  fs w !! d = Some Dir ->
  rmtree d w = (Ok tt, {| fs := filter (fun kv => below d kv.1 = false) (fs w);
                          ticks := ticks w;
                          trace := trace w ++ [RmTree d] |}).
Proof.
  intros Hd. unfold rmtree, mbind, M_bind, emit, get_fs, put_fs. simpl.
  now rewrite Hd.
Qed.

(** The images are written in the order of the frames, each under the name
    of its index, and writing them never raises. *)
Lemma write_frames_run (frames : list Cv2.frame) (i : nat) (w : world) :
  write_frames i frames w =
  (Ok tt,
   {| fs := write_all ((fun j => frame_path (i + j)) <$> seq 0 (length frames))
                      (fs w);
      ticks := ticks w;
      trace := trace w ++ imap (fun j f => ImWrite (frame_path (i + j)) f)
                               frames |}).
Proof.
  revert i w. induction frames as [|f frames IH]; intros i w.
  - simpl. rewrite app_nil_r. now destruct w.
  - simpl write_frames. unfold imwrite.
    unfold mbind at 1. unfold M_bind at 1.
    unfold mbind at 1. unfold M_bind at 1. unfold emit at 1.
    rewrite write_file_run. simpl fs. simpl ticks. simpl trace.
    rewrite IH. simpl. rewrite Nat.add_0_r, <- app_assoc. simpl.
    unfold write_all. simpl. f_equal. f_equal.
    + f_equal. rewrite <- fmap_S_seq, <- list_fmap_compose.
      apply list_fmap_ext. intros _ j _. simpl. now rewrite Nat.add_succ_r.
    + f_equal. f_equal. apply imap_ext. intros j g _. simpl.
      now rewrite Nat.add_succ_r.
Qed.

Lemma written_lookup_ne (f : gmap string node) (b : bool) (p q : string) :
  p <> q -> written f b q !! p = f !! p.
Proof.
  intros Hne. unfold written. destruct b; [|reflexivity].
  destruct (f !! q) as [[|]|]; try reflexivity;
    now rewrite lookup_insert_ne by congruence.
Qed.

Lemma written_lookup_dir (f : gmap string node) (b : bool) (d q : string) :
  f !! d = Some Dir -> written f b q !! d = Some Dir.
Proof.
  intros Hd. destruct (decide (d = q)) as [<-|Hne].
  - unfold written. destruct b; [|exact Hd]. now rewrite Hd.
  - now rewrite written_lookup_ne.
Qed.

Lemma written_lookup_file (f : gmap string node) (b : bool) (p q : string) :
  f !! p = Some File -> written f b q !! p = Some File.
Proof.
  intros Hp. destruct (decide (p = q)) as [<-|Hne].
  - unfold written. destruct b; [|exact Hp]. rewrite Hp.
    apply lookup_insert_eq.
  - now rewrite written_lookup_ne.
Qed.

Lemma written_lookup_eq (f : gmap string node) (q : string) :
  f !! q <> Some Dir -> written f true q !! q = Some File.
Proof.
  intros Hq. unfold written.
  destruct (f !! q) as [[|]|]; try contradiction; apply lookup_insert_eq.
Qed.

Lemma write_all_cons (q : string) (paths : list string)
    (f : gmap string node) :
  write_all (q :: paths) f = write_all paths (written f true q).
Proof. reflexivity. Qed.

Lemma write_all_lookup_dir (paths : list string) (f : gmap string node)
    (d : string) :
  f !! d = Some Dir -> write_all paths f !! d = Some Dir.
Proof.
  revert f. induction paths as [|q paths IH]; intros f Hd; [exact Hd|].
  rewrite write_all_cons. apply IH. now apply written_lookup_dir.
Qed.

Lemma write_all_lookup_ne (paths : list string) (f : gmap string node)
    (p : string) :
  p ∉ paths -> write_all paths f !! p = f !! p.
Proof.
  revert f. induction paths as [|q paths IH]; intros f Hp; [reflexivity|].
  apply not_elem_of_cons in Hp as [Hne Hp].
  rewrite write_all_cons, IH by exact Hp.
  now apply written_lookup_ne.
Qed.

Lemma frame_path_below (i : nat) : below temp_frames_dir (frame_path i) = true.
Proof. reflexivity. Qed.

Lemma not_below_frame_paths (p : string) (count : nat) :
  below temp_frames_dir p = false -> p ∉ frame_path <$> seq 0 count.
Proof.
  intros Hp Hin. apply list_elem_of_fmap in Hin as (i & -> & _).
  rewrite frame_path_below in Hp. discriminate.
Qed.

Lemma filter_lookup_kept (f : gmap string node) (d p : string) :
  below d p = false ->
  filter (fun kv => below d kv.1 = false) f !! p = f !! p.
Proof.
  intros Hp. destruct (f !! p) as [x|] eqn:Hx.
  - apply map_lookup_filter_Some. split; [exact Hx | exact Hp].
  - apply map_lookup_filter_None. now left.
Qed.

(** A path outside the temporary directory that is neither the temporary
    audio file nor the output is the same before and after. *)
Lemma saved_fs_lookup_other (f : gmap string node) (count : nat)
    (b1 b2 : bool) (out p : string) :
  below temp_frames_dir p = false -> p <> temp_audio_output -> p <> out ->
  saved_fs f count b1 b2 out !! p = f !! p.
Proof.
  intros Hbelow Hta Hout. unfold saved_fs.
  rewrite filter_lookup_kept by exact Hbelow.
  rewrite !written_lookup_ne by assumption.
  rewrite write_all_lookup_ne by now apply not_below_frame_paths.
  apply lookup_insert_ne. intros <-. discriminate Hbelow.
Qed.

Section Finish.

Variable E : env.
Variables original_path output_path : string.
Variable frames : list Cv2.frame.
Variables c1 c2 : Z.
Variables wrote1 wrote2 : bool.

Hypothesis Hextract :
  child E (extract_argv original_path temp_audio_output) = Exited c1 wrote1.
Hypothesis Hencode :
  child E (encoder (effective_fps E) temp_audio_output output_path)
    = Exited c2 wrote2.

(** The effects of the step up to the removal of the audio file. *)
Definition before_removal : list event :=
  [MakeDirs temp_frames_dir]
  ++ imap (fun j f => ImWrite (frame_path j) f) frames
  ++ [Run (extract_argv original_path temp_audio_output);
      Run (encoder (effective_fps E) temp_audio_output output_path);
      RmTree temp_frames_dir;
      Remove temp_audio_output].

(** The rest of the step, run to its end. *)
Lemma finish_run (w : world) :
  fs w !! temp_frames_dir <> Some File ->
  finish E original_path output_path frames w =
  let f := saved_fs (fs w) (length frames) wrote1 wrote2 output_path in
  match f !! temp_audio_output with
  | Some File =>
      (Ok tt,
       {| fs := delete temp_audio_output f; ticks := ticks w;
          trace := trace w ++ before_removal
                   ++ [Print ((Raster.NL +:+ "✅ Saved as " +:+ output_path)
                              +:+ Raster.NL)] |})
  | Some Dir =>
      (Raise IsADirectoryError,
       {| fs := f; ticks := ticks w; trace := trace w ++ before_removal |})
  | None =>
      (Raise FileNotFoundError,
       {| fs := f; ticks := ticks w; trace := trace w ++ before_removal |})
  end.
Proof.
  intros Hdir. unfold finish.
  rewrite (bind_ok _ _ _ _ _ (makedirs_ok _ w Hdir)).
  rewrite (bind_ok _ _ _ _ _ (write_frames_run frames 0 _)).
  simpl fs. simpl ticks. simpl trace.
  rewrite (bind_ok _ _ _ _ _
             (extract_audio_exited E original_path temp_audio_output _ c1
                                   wrote1 Hextract)).
  simpl fs. simpl ticks. simpl trace.
  rewrite (bind_ok _ _ _ _ _
             (run_exited E _ output_path _ c2 wrote2 Hencode)).
  simpl fs. simpl ticks. simpl trace.
  erewrite (bind_ok (rmtree temp_frames_dir)).
  2:{ apply rmtree_dir. simpl.
      apply written_lookup_dir, written_lookup_dir, write_all_lookup_dir,
        lookup_insert_eq. }
  simpl fs. simpl ticks. simpl trace.
  unfold saved_fs, before_removal. simpl.
  set (f := filter _ _).
  unfold remove, print, mbind, M_bind, emit, get_fs, put_fs, raise. simpl.
  destruct (f !! temp_audio_output) as [[|]|]; simpl;
    repeat rewrite <- app_assoc; reflexivity.
Qed.

End Finish.

End SaveRunProps.

Module SaveRunClaims.

Import PyFloat Sys Saver Program SaveRunProps.

Section Accepted.

Variable cv : Cv2.api.
Variable E : env.
Variable original_path : string.
Variable use_ascii : bool.
Variable w : world.
Variable line : string.
Variable n : Z.
Variable frames : list Cv2.frame.
Variables c1 c2 : Z.
Variables wrote1 wrote2 : bool.

Hypothesis Hline : stdin E = Some line.
Hypothesis Hchoice : PyText.lower (PyText.strip line) = "y".
Hypothesis Hcount : to_int (prop_frame_count E) = Ok n.
Hypothesis Hframes :
  collect_frames cv use_ascii (get_terminal_resolution E).1
                 (get_terminal_resolution E).2 (range_int n) (reads E) []
  = Ok frames.
Hypothesis Hdir : fs w !! temp_frames_dir <> Some File.
Hypothesis Hextract :
  child E (extract_argv original_path temp_audio_output) = Exited c1 wrote1.
Hypothesis Hencode :
  child E (encoder (effective_fps E) temp_audio_output
                   (output_path_of original_path)) = Exited c2 wrote2.

Let run := save_as_video cv E original_path use_ascii w.
Let out := output_path_of original_path.
Let f := saved_fs (fs w) (length frames) wrote1 wrote2 out.

(** The step, run to its end. *)
Lemma save_as_video_run :
  run =
  match f !! temp_audio_output with
  | Some File =>
      (Ok tt,
       {| fs := delete temp_audio_output f; ticks := ticks w;
          trace := trace w ++ [Print prompt; Input]
                   ++ before_removal E original_path out frames
                   ++ [Print (saved_text out)] |})
  | Some Dir =>
      (Raise IsADirectoryError,
       {| fs := f; ticks := ticks w;
          trace := trace w ++ [Print prompt; Input]
                   ++ before_removal E original_path out frames |})
  | None =>
      (Raise FileNotFoundError,
       {| fs := f; ticks := ticks w;
          trace := trace w ++ [Print prompt; Input]
                   ++ before_removal E original_path out frames |})
  end.
Proof.
  unfold run.
  rewrite (CleanupClaims.save_as_video_accept cv E original_path use_ascii w
             line n frames Hline Hchoice Hcount Hframes).
  change (PyText.join (PyText.dirname original_path)
            ("terminal+" +:+ PyText.basename original_path)) with out.
  rewrite (finish_run E original_path out frames c1 c2 wrote1 wrote2
             Hextract Hencode (advance w 0 [Print prompt; Input]) Hdir).
  unfold advance, f, saved_text. simpl.
  destruct (saved_fs _ _ _ _ _ !! temp_audio_output) as [[|]|];
    rewrite ?Nat.add_0_r, <- ?app_assoc; reflexivity.
Qed.

(** X6. A save that reaches the encoder performs its effects in one order:
    the prompt and the answer, the making of the directory, one image per
    collected frame, in the order of the frames and named by the index,
    the extraction of the audio, the encoder, the removal of the directory
    and the removal of the audio file. The message [Saved as] follows when
    that last removal succeeded, and only then does the step return
    normally. *)
Theorem save_effects_in_order :
  exists tail,
    trace run.2 =
      trace w
      ++ [Print prompt; Input; MakeDirs temp_frames_dir]
      ++ imap (fun j g => ImWrite (frame_path j) g) frames
      ++ [Run (extract_argv original_path temp_audio_output);
          Run (encoder (effective_fps E) temp_audio_output out);
          RmTree temp_frames_dir;
          Remove temp_audio_output]
      ++ tail /\
    ((run.1 = Ok tt /\ tail = [Print (saved_text out)]) \/
     ((run.1 = Raise FileNotFoundError \/ run.1 = Raise IsADirectoryError)
      /\ tail = [])).
Proof.
  rewrite save_as_video_run. unfold before_removal.
  destruct (f !! temp_audio_output) as [[|]|]; simpl.
  - exists [Print (saved_text out)]. split; [|left; easy].
    repeat rewrite <- app_assoc. reflexivity.
  - exists []. split; [|right; split; [right|]; easy].
    repeat rewrite <- app_assoc. reflexivity.
  - exists []. split; [|right; split; [left|]; easy].
    repeat rewrite <- app_assoc. reflexivity.
Qed.

(** X8. The outcome of the encoder does not change how the step ends: when
    the audio was extracted, the step prints [Saved as] and returns
    normally whatever the exit code of the encoder, and when the encoder
    wrote nothing there is no output file behind the message. *)
Theorem saved_whatever_the_encoder :
  wrote1 = true ->
  fs w !! temp_audio_output <> Some Dir ->
  run.1 = Ok tt /\
  last (Player.printed run.2) = Some (saved_text out) /\
  fs run.2 !! temp_audio_output = None /\
  (wrote2 = false -> fs w !! out = None -> fs run.2 !! out = None).
Proof.
  intros Hwrote Haudio.
  assert (Hfile : f !! temp_audio_output = Some File).
  { unfold f, saved_fs. rewrite filter_lookup_kept by reflexivity.
    apply written_lookup_file. rewrite Hwrote.
    apply written_lookup_eq.
    rewrite write_all_lookup_ne by now apply not_below_frame_paths.
    rewrite lookup_insert_ne by discriminate. exact Haudio. }
  rewrite save_as_video_run, Hfile. simpl.
  split; [reflexivity|]. split; [|split].
  - unfold Player.printed. simpl.
    rewrite omap_app. simpl. rewrite omap_app. simpl.
    rewrite app_comm_cons, app_assoc. apply last_snoc.
  - apply lookup_delete_eq.
  - intros -> Hnone.
    destruct (decide (out = temp_audio_output)) as [Heq|Hne].
    { rewrite Heq. apply lookup_delete_eq. }
    rewrite lookup_delete_ne by congruence.
    destruct (below temp_frames_dir out) eqn:Hbelow.
    + unfold f, saved_fs. apply map_lookup_filter_None. right.
      intros x _. simpl. congruence.
    + unfold f, saved_fs. rewrite filter_lookup_kept by exact Hbelow.
      unfold written at 1.
      rewrite written_lookup_ne by exact Hne.
      rewrite write_all_lookup_ne by now apply not_below_frame_paths.
      rewrite lookup_insert_ne; [exact Hnone|].
      intros Heq. rewrite <- Heq in Hbelow. discriminate Hbelow.
Qed.

End Accepted.

Lemma save_effects_in_order_witness :
  let run := save_as_video Reference.opencv Samples.encoder_fails
               "dir/video.mp4" true Samples.empty_world in
  let out := output_path_of "dir/video.mp4" in
  exists tail,
    trace run.2 =
      trace Samples.empty_world
      ++ [Print prompt; Input; MakeDirs temp_frames_dir]
      ++ imap (fun j g => ImWrite (frame_path j) g) [Samples.red_black]
      ++ [Run (extract_argv "dir/video.mp4" temp_audio_output);
          Run (encoder (effective_fps Samples.encoder_fails)
                       temp_audio_output out);
          RmTree temp_frames_dir;
          Remove temp_audio_output]
      ++ tail /\
    ((run.1 = Ok tt /\ tail = [Print (saved_text out)]) \/
     ((run.1 = Raise FileNotFoundError \/ run.1 = Raise IsADirectoryError)
      /\ tail = [])).
Proof.
  apply (save_effects_in_order Reference.opencv Samples.encoder_fails
           "dir/video.mp4" true Samples.empty_world " Y " 1
           [Samples.red_black] 0 1 true false);
    try reflexivity.
  discriminate.
Defined.

Lemma saved_whatever_the_encoder_witness :
  let run := save_as_video Reference.opencv Samples.encoder_fails
               "dir/video.mp4" true MoreSamples.video_on_disk in
  let out := output_path_of "dir/video.mp4" in
  run.1 = Ok tt /\
  last (Player.printed run.2) = Some (saved_text out) /\
  fs run.2 !! temp_audio_output = None /\
  (false = false -> fs MoreSamples.video_on_disk !! out = None ->
   fs run.2 !! out = None).
Proof.
  apply (saved_whatever_the_encoder Reference.opencv Samples.encoder_fails
           "dir/video.mp4" true MoreSamples.video_on_disk " Y " 1
           [Samples.red_black] 0 1 true false);
    try reflexivity; discriminate.
Defined.

Section Collecting.

Variable cv : Cv2.api.

Lemma collect_frames_shown (tw th : Z) (idx : list Z)
    (cap : list (option Cv2.frame)) (acc : list Cv2.frame) :
  collect_frames cv false tw th idx cap acc =
  (gs ← resize_all cv tw th (Player.shown (length idx) cap); Ok (acc ++ gs)).
Proof.
  revert cap acc. induction idx as [|i idx IH]; intros cap acc.
  - simpl. now rewrite app_nil_r.
  - destruct cap as [|[g|] cap]; simpl; try now rewrite app_nil_r.
    unfold resize_all in *. simpl.
    destruct (Cv2.resize cv g tw (th - 2)) as [g'|e]; simpl; [|reflexivity].
    rewrite IH.
    destruct (mapM _ (Player.shown (length idx) cap)) as [gs|e]; simpl;
      [|reflexivity].
    now rewrite <- app_assoc.
Qed.

(** X9. In either mode the frames the save step collects are the frames
    the decoder yields before its first failed read, at most as many as
    the frame count, each resized to the grid of the terminal, in the
    order of the stream; the first resize that fails ends the collection
    with its error. *)
Theorem collect_frames_spec (use_ascii : bool) (tw th n : Z)
    (cap : list (option Cv2.frame)) :
  collect_frames cv use_ascii tw th (range_int n) cap [] =
  resize_all cv tw th (Player.shown (Z.to_nat n) cap) /\
  (length (Player.shown (Z.to_nat n) cap) <= Z.to_nat n)%nat /\
  (Some <$> Player.shown (Z.to_nat n) cap) `prefix_of` cap.
Proof.
  split; [|split].
  - destruct use_ascii.
    + rewrite CanvasProps.collect_frames_mode, collect_frames_shown.
      unfold range_int. rewrite length_fmap, length_seq.
      now destruct (resize_all _ _ _ _).
    + rewrite collect_frames_shown.
      unfold range_int. rewrite length_fmap, length_seq.
      now destruct (resize_all _ _ _ _).
  - generalize (Z.to_nat n) as k. intros k. revert cap.
    induction k as [|k IH]; intros [|[g|] cap]; simpl; try lia.
    specialize (IH cap). lia.
  - generalize (Z.to_nat n) as k. intros k. revert cap.
    induction k as [|k IH]; intros [|[g|] cap]; simpl;
      try apply prefix_nil.
    apply prefix_cons, IH.
Qed.

End Collecting.

(** X10. The save step writes nothing before the frames are collected:
    when the input ends before an answer, when the frame count is not a
    number, or when a frame cannot be resized, the step raises with the
    prompt and the reading of the answer as its only effects. *)
Theorem save_fails_before_writing (cv : Cv2.api) (E : env)
    (original_path : string) (use_ascii : bool) (w : world) (e : exn) :
  (stdin E = None /\ e = EOFError) \/
  (exists line,
     stdin E = Some line /\ PyText.lower (PyText.strip line) = "y" /\
     (to_int (prop_frame_count E) = Raise e \/
      exists n,
        to_int (prop_frame_count E) = Ok n /\
        collect_frames cv use_ascii (get_terminal_resolution E).1
          (get_terminal_resolution E).2 (range_int n) (reads E) []
        = Raise e)) ->
  save_as_video cv E original_path use_ascii w =
  (Raise e, {| fs := fs w; ticks := ticks w;
               trace := trace w ++ [Print prompt; Input] |}).
Proof.
  intros H. unfold save_as_video.
  destruct (get_terminal_resolution E) as [tw th]. simpl in H.
  unfold mbind, M_bind, print_, emit, input, lift, raise. simpl.
  destruct H as [[Hline ->]|(line & Hline & Hchoice & H)]; rewrite Hline; simpl.
  - now rewrite <- app_assoc.
  - rewrite Hchoice. simpl. rewrite <- app_assoc. simpl.
    destruct H as [Hcount|(n & Hcount & Hframes)]; rewrite Hcount;
      [reflexivity|].
    now rewrite Hframes.
Qed.

Lemma save_fails_before_writing_witness :
  save_as_video Reference.opencv MoreSamples.short_save "video.mp4" true
                Samples.empty_world =
  (Raise Cv2Error,
   {| fs := fs Samples.empty_world; ticks := ticks Samples.empty_world;
      trace := trace Samples.empty_world ++ [Print prompt; Input] |}).
Proof.
  apply (save_fails_before_writing Reference.opencv MoreSamples.short_save
           "video.mp4" true Samples.empty_world Cv2Error).
  right. exists "y". split; [reflexivity|]. split; [reflexivity|].
  right. exists 3. split; reflexivity.
Defined.

End SaveRunClaims.

(** ** The glyph ramp *)

Module RampProps.

Import Glyph.

(** X11. Over the 8-bit brightness values the glyph index never decreases
    with the brightness, every one of the ten characters of the ramp is
    used, black is shown as the space and white as [@]. *)
Theorem glyph_ramp_monotone_onto :
  (forall b b', 0 <= b -> b <= b' -> b' <= 255 ->
     exists i i', glyph_index b = Ok i /\ glyph_index b' = Ok i' /\ i <= i') /\
  (forall i, 0 <= i < 10 ->
     exists b, 0 <= b <= 255 /\ glyph_index b = Ok i) /\
  glyph_char 0 = Ok " "%char /\
  glyph_char 255 = Ok "@"%char.
Proof.
  split; [|split; [|split; reflexivity]].
  - intros b b' H0 Hle H255.
    exists (spec_index b), (spec_index b').
    rewrite !GlyphProps.glyph_index_spec by lia.
    split; [reflexivity|]. split; [reflexivity|].
    unfold spec_index. apply Z.div_le_mono; [lia|].
    change (Z.of_nat (String.length ascii_chars)) with 10. lia.
  - intros i Hi.
    exists ((256 * i + 9) / 10).
    assert (Hcases : i = 0 \/ i = 1 \/ i = 2 \/ i = 3 \/ i = 4 \/
                     i = 5 \/ i = 6 \/ i = 7 \/ i = 8 \/ i = 9) by lia.
    destruct Hcases as [->|[->|[->|[->|[->|[->|[->|[->|[->| ->]]]]]]]]];
      (split; [vm_compute; split; discriminate | vm_compute; reflexivity]).
Qed.

Lemma glyph_ramp_monotone_onto_witness :
  (exists i i', glyph_index 0 = Ok i /\ glyph_index 255 = Ok i' /\ i <= i') /\
  (exists b, 0 <= b <= 255 /\ glyph_index b = Ok 9).
Proof.
  split.
  - apply (proj1 glyph_ramp_monotone_onto 0 255); lia.
  - apply (proj1 (proj2 glyph_ramp_monotone_onto) 9). lia.
Defined.

End RampProps.

(** ** The size of the text of a frame *)

Module TextProps.

Import Cv2 Raster RasterProps Program.

Lemma count_char_app (c : ascii) (a b : string) :
  count_char c (a +:+ b) = (count_char c a + count_char c b)%nat.
Proof.
  induction a as [|x a IH]; [reflexivity|].
  rewrite string_app_cons. simpl. rewrite IH. lia.
Qed.

(** A control character does not occur among the digits of a number. *)
Lemma count_char_digits (c : ascii) (d : Decimal.uint) :
  (nat_of_ascii c < 45)%nat ->
  count_char c (NilEmpty.string_of_uint d) = 0%nat.
Proof.
  intros Hc. induction d; cbn [NilEmpty.string_of_uint count_char];
    rewrite ?IHd; try reflexivity;
    match goal with
    | |- context [Ascii.eqb ?x c] =>
        destruct (Ascii.eqb_spec x c) as [<-|_];
        [vm_compute in Hc; lia | reflexivity]
    end.
Qed.

Lemma count_char_of_int (c : ascii) (z : Z) :
  (nat_of_ascii c < 45)%nat -> count_char c (PyStr.of_int z) = 0%nat.
Proof.
  intros Hc. unfold PyStr.of_int, NilZero.string_of_int.
  assert (Huint : forall d, count_char c (NilZero.string_of_uint d) = 0%nat).
  { intros d. destruct d; try apply (count_char_digits c _ Hc).
    cbn [NilZero.string_of_uint count_char].
    destruct (Ascii.eqb_spec "0" c) as [<-|_];
      [vm_compute in Hc; lia | reflexivity]. }
  destruct (Z.to_int z) as [d|d]; [apply Huint|].
  cbn [count_char]. rewrite Huint.
  destruct (Ascii.eqb_spec "-" c) as [<-|_]; [vm_compute in Hc; lia | reflexivity].
Qed.

(** The colour prefix of a cell holds one escape character and no line
    break. *)
Lemma count_fg (r g b : Z) :
  count_char nl (fg r g b) = 0%nat /\ count_char esc (fg r g b) = 1%nat.
Proof.
  unfold fg. rewrite !count_char_app.
  rewrite !(count_char_of_int nl), !(count_char_of_int esc)
    by (vm_compute; lia).
  split; reflexivity.
Qed.

(** A cell whose glyph holds neither of the two characters. *)
Definition plain (c : cell) : Prop :=
  count_char nl (glyph c) = 0%nat /\ count_char esc (glyph c) = 0%nat.

Lemma count_row (row : list cell) :
  Forall plain row ->
  count_char nl (row_text row) = 1%nat /\
  count_char esc (row_text row) = S (length row).
Proof.
  intros Hrow. unfold row_text. rewrite !count_char_app.
  assert (Hcells : count_char nl (join_text cell_text row) = 0%nat /\
                   count_char esc (join_text cell_text row) = length row).
  { induction Hrow as [|c row [Hnl Hesc] _ [IHnl IHesc]];
      [split; reflexivity|].
    rewrite join_text_cons, !count_char_app. unfold cell_text at 1 3.
    change (colour_text (red c) (green c) (blue c))
      with (fg (red c) (green c) (blue c)).
    rewrite !count_char_app, Hnl, Hesc, IHnl, IHesc.
    destruct (count_fg (red c) (green c) (blue c)) as [-> ->].
    split; reflexivity. }
  destruct Hcells as [-> ->]. split; [reflexivity|].
  change (count_char esc end_of_row) with 1%nat. lia.
Qed.

Lemma count_grid (grid : list (list cell)) (h w : nat) :
  has_shape h w grid ->
  Forall (Forall plain) grid ->
  count_char nl (grid_text grid) = h /\
  count_char esc (grid_text grid) = (h * S w)%nat.
Proof.
  intros [<- Hw] Hplain. unfold grid_text.
  induction grid as [|row grid IH]; [split; reflexivity|].
  inversion Hw as [|? ? Hrow Hw']; subst.
  inversion Hplain as [|? ? Hprow Hplain']; subst.
  rewrite join_text_cons, !count_char_app.
  destruct (count_row row Hprow) as [-> ->].
  destruct (IH Hw' Hplain') as [-> ->].
  split; simpl; lia.
Qed.

Lemma ascii_cell_plain (cv : api) (p : pixel) : plain (ascii_cell cv p).
Proof.
  destruct p as [[b g] r]. unfold ascii_cell, Glyph.spec_char. simpl.
  generalize (Z.to_nat (Glyph.spec_index (bgr2gray cv (b, g, r)))) as k.
  intros k. do 10 (destruct k as [|k]; [split; reflexivity|]).
  split; reflexivity.
Qed.

Lemma block_cell_plain (p : pixel) : plain (block_cell p).
Proof. destruct p as [[b g] r]. split; reflexivity. Qed.

Lemma split_on_plain (c : ascii) (a b : string) :
  count_char c a = 0%nat ->
  split_on c (a +:+ String c b) = a :: split_on c b.
Proof.
  induction a as [|x a IH]; intros Ha.
  - change ("" +:+ String c b) with (String c b).
    cbn [split_on]. now rewrite Ascii.eqb_refl.
  - cbn [count_char] in Ha. rewrite string_app_cons. cbn [split_on].
    destruct (Ascii.eqb x c); [discriminate|].
    now rewrite IH.
Qed.

(** The lines of the text of a grid: one per row, each with one escape
    sequence per cell and one more for the reset, and nothing after the
    last line break. *)
Lemma lines_of_grid (grid : list (list cell)) (h w : nat) :
  has_shape h w grid ->
  Forall (Forall plain) grid ->
  exists rows,
    split_on nl (grid_text grid) = rows ++ [""] /\
    length rows = h /\
    Forall (fun row => count_char esc row = S w) rows.
Proof.
  intros [<- Hw] Hplain. unfold grid_text.
  induction grid as [|row grid IH]; [now exists []|].
  inversion Hw as [|? ? Hrow Hw']; subst.
  inversion Hplain as [|? ? Hprow Hplain']; subst.
  destruct (IH Hw' Hplain') as (rows & Hrows & Hlen & Hesc).
  destruct (count_row row Hprow) as [Hnl1 Hesc1].
  assert (Hsplit : row_text row
                   = (join_text cell_text row
                      +:+ String (ascii_of_nat 27) "[0m") +:+ String nl "").
  { unfold row_text, end_of_row. now rewrite string_app_assoc. }
  rewrite Hsplit, !count_char_app in Hnl1, Hesc1.
  change (count_char nl (String nl "")) with 1%nat in Hnl1.
  change (count_char esc (String nl "")) with 0%nat in Hesc1.
  exists ((join_text cell_text row +:+ String (ascii_of_nat 27) "[0m")
          :: rows).
  rewrite join_text_cons, Hsplit, string_app_assoc.
  change (String nl "" +:+ join_text row_text grid)
    with (String nl (join_text row_text grid)).
  rewrite split_on_plain, Hrows by (rewrite count_char_app; lia).
  split; [reflexivity|]. split; [simpl; now rewrite Hlen|].
  constructor; [|exact Hesc]. rewrite count_char_app. lia.
Qed.

(** X12. The text of a frame, in either mode, holds exactly as many line
    breaks as the grid has rows, the terminal height less two, and one
    escape sequence per cell and one per row: its size is fixed by the
    size of the terminal, not by the frame. *)
Theorem frame_text_size (cv : api) (use_ascii : bool) (f : frame)
    (term_width term_height : Z) (text : string) :
  Player.rasterize cv use_ascii f term_width term_height = Ok text ->
  count_char nl text = Z.to_nat (term_height - 2) /\
  count_char esc text
    = (Z.to_nat (term_height - 2) * S (Z.to_nat term_width))%nat.
Proof.
  intros Htext. unfold Player.rasterize in Htext.
  destruct (resize cv f term_width (term_height - 2)) as [g|e] eqn:Hg.
  - pose proof (resize_shape cv _ _ _ _ Hg) as Hshape.
    destruct use_ascii.
    + rewrite (frame_to_ascii_colored_text cv _ _ _ _ Hg) in Htext.
      injection Htext as <-.
      apply count_grid; [now apply ShapeProps.has_shape_fmap|].
      unfold ascii_grid. rewrite Forall_fmap. apply Forall_true.
      intros row. simpl. rewrite Forall_fmap. apply Forall_true.
      intros p. apply ascii_cell_plain.
    + rewrite (frame_to_colored_blocks_text cv _ _ _ _ Hg) in Htext.
      injection Htext as <-.
      apply count_grid; [now apply ShapeProps.has_shape_fmap|].
      unfold block_grid. rewrite Forall_fmap. apply Forall_true.
      intros row. simpl. rewrite Forall_fmap. apply Forall_true.
      intros p. apply block_cell_plain.
  - unfold frame_to_ascii_colored, frame_to_colored_blocks in Htext.
    rewrite Hg in Htext. destruct use_ascii; discriminate Htext.
Qed.

Lemma frame_text_size_witness :
  count_char nl Samples.red_black_text = Z.to_nat (3 - 2) /\
  count_char esc Samples.red_black_text
    = (Z.to_nat (3 - 2) * S (Z.to_nat 2))%nat.
Proof.
  apply (frame_text_size Reference.opencv true Samples.red_black 2 3).
  reflexivity.
Defined.

End TextProps.

(** ** The shape of the render grid *)

Module RasterClaims.

Import Cv2 Raster ShapeProps RasterProps Program TextProps.

Lemma grid_plain (cv : api) (use_ascii : bool) (g : frame) :
  Forall (Forall plain)
         (if use_ascii then ascii_grid cv g else block_grid g).
Proof.
  destruct use_ascii.
  - unfold ascii_grid. rewrite Forall_fmap. apply Forall_true.
    intros row. simpl. rewrite Forall_fmap. apply Forall_true.
    intros p. apply ascii_cell_plain.
  - unfold block_grid. rewrite Forall_fmap. apply Forall_true.
    intros row. simpl. rewrite Forall_fmap. apply Forall_true.
    intros p. apply block_cell_plain.
Qed.

(** C6, as the code has it. The rasterizer (in either mode) fails exactly
    where [cv2.resize] fails, with the same error and without a grid. Where
    [cv2.resize] returns, the requested width [w] and the terminal height
    minus the two-row margin [h] are at least 1, and the rasterizer yields
    the text of a render grid of exactly [h] rows of [w] glyph cells each,
    the grid of the resized frame: the text has [h] lines, each with [w]
    colour sequences and the reset sequence, and nothing after the last
    line break. *)
Theorem rasterize_grid_shape (cv : api) (use_ascii : bool) (f : frame)
    (term_width term_height : Z) :
  (forall e,
     resize cv f term_width (term_height - 2) = Raise e ->
     Player.rasterize cv use_ascii f term_width term_height = Raise e) /\
  (forall g,
     resize cv f term_width (term_height - 2) = Ok g ->
     1 <= term_width /\ 1 <= term_height - 2 /\
     exists (grid : list (list cell)) (rows : list string),
       grid = (if use_ascii then ascii_grid cv g else block_grid g) /\
       has_shape (Z.to_nat (term_height - 2)) (Z.to_nat term_width) grid /\
       Player.rasterize cv use_ascii f term_width term_height
       = Ok (grid_text grid) /\
       split_on nl (grid_text grid) = rows ++ [""] /\
       length rows = Z.to_nat (term_height - 2) /\
       Forall (fun row => count_char esc row = S (Z.to_nat term_width)) rows).
Proof.
  split.
  - intros e He. unfold Player.rasterize, frame_to_ascii_colored,
      frame_to_colored_blocks. rewrite He. now destruct use_ascii.
  - intros g Hg.
    assert (Hsize : 1 <= term_width /\ 1 <= term_height - 2).
    { destruct (Z_lt_le_dec term_width 1) as [Hw|Hw];
        [|destruct (Z_lt_le_dec (term_height - 2) 1) as [Hh|Hh]];
        [| |split; assumption];
        rewrite (resize_empty_dsize cv f term_width (term_height - 2))
          in Hg by lia; discriminate Hg. }
    destruct Hsize as [Hw Hh]. split; [exact Hw|]. split; [exact Hh|].
    pose proof (resize_shape cv _ _ _ _ Hg) as Hshape.
    assert (Hgrid : has_shape (Z.to_nat (term_height - 2))
                      (Z.to_nat term_width)
                      (if use_ascii then ascii_grid cv g else block_grid g)).
    { destruct use_ascii; now apply has_shape_fmap. }
    destruct (lines_of_grid _ _ _ Hgrid (grid_plain cv use_ascii g))
      as (rows & Hrows & Hlen & Hesc).
    exists (if use_ascii then ascii_grid cv g else block_grid g), rows.
    split; [reflexivity|]. split; [exact Hgrid|].
    split; [|split; [exact Hrows|split; [exact Hlen | exact Hesc]]].
    unfold Player.rasterize. destruct use_ascii.
    + now apply frame_to_ascii_colored_text.
    + now apply frame_to_colored_blocks_text.
Qed.

Lemma rasterize_grid_shape_witness :
  Player.rasterize Reference.opencv true Samples.red_black (2 ^ 31) 3
  = Raise Cv2Error /\
  1 <= 3 /\ 1 <= 4 - 2 /\
  exists (grid : list (list cell)) (rows : list string),
    grid = ascii_grid Reference.opencv
             [[(255, 255, 255); (255, 255, 255); (255, 255, 255)];
              [(255, 255, 255); (255, 255, 255); (255, 255, 255)]] /\
    has_shape (Z.to_nat (4 - 2)) (Z.to_nat 3) grid /\
    Player.rasterize Reference.opencv true Samples.white 3 4
    = Ok (grid_text grid) /\
    split_on nl (grid_text grid) = rows ++ [""] /\
    length rows = Z.to_nat (4 - 2) /\
    Forall (fun row => count_char esc row = S (Z.to_nat 3)) rows.
Proof.
  split.
  - apply (proj1 (rasterize_grid_shape Reference.opencv true
                    Samples.red_black (2 ^ 31) 3) Cv2Error).
    reflexivity.
  - apply (proj2 (rasterize_grid_shape Reference.opencv true
                    Samples.white 3 4)).
    reflexivity.
Defined.

(** C6, as the specification states it, fails: the size of a destination
    is a pair of C [int]s, and on a terminal of [2^31] columns and three
    lines [cv2.resize] refuses the size [(2^31, 1)], although both numbers
    are at least 1; the rasterizer raises and yields no grid. *)
Lemma wide_terminal_yields_no_grid :
  has_shape 1 2 Samples.red_black /\
  1 <= 2 ^ 31 /\ 1 <= 3 - 2 /\
  Player.rasterize Reference.opencv true Samples.red_black (2 ^ 31) 3
  = Raise Cv2Error /\
  Player.rasterize Reference.opencv false Samples.red_black (2 ^ 31) 3
  = Raise Cv2Error /\
  ~ yields_grid Reference.opencv true Samples.red_black (2 ^ 31) 3 /\
  ~ yields_grid Reference.opencv false Samples.red_black (2 ^ 31) 3.
Proof.
  split; [split; [reflexivity | repeat constructor]|].
  split; [lia|]. split; [lia|].
  split; [reflexivity|]. split; [reflexivity|].
  split; intros (grid & Htext & _); discriminate Htext.
Qed.

End RasterClaims.

(** ** The names of the frame images *)

Module NameProps.

Import Program.

Lemma zeros_S (k : nat) :
  String.concat "" (replicate (S k) "0")
  = String "0" (String.concat "" (replicate k "0")).
Proof. destruct k; reflexivity. Qed.

Lemma parse_index_zeros (k : nat) (s : string) (z : Z) :
  parse_index s = Some z ->
  parse_index (String.concat "" (replicate k "0") +:+ s) = Some z.
Proof.
  intros Hs. induction k as [|k IH]; [exact Hs|].
  rewrite zeros_S, string_app_cons. unfold parse_index in *.
  cbn [NilEmpty.uint_of_string].
  destruct (NilEmpty.uint_of_string
              (String.concat "" (replicate k "0") +:+ s)) as [d|];
    simpl in *; [exact IH | discriminate IH].
Qed.

Lemma parse_index_digits (i : nat) :
  parse_index (PyStr.of_int (Z.of_nat i)) = Some (Z.of_nat i).
Proof.
  unfold parse_index, PyStr.of_int.
  rewrite <- (DecimalZ.of_to (Z.of_nat i)) at 2.
  destruct (Z.of_nat i) as [|p|p] eqn:Hi; [reflexivity | | lia].
  cbn [Z.to_int NilZero.string_of_int Z.of_int].
  pose proof (NilZero.usu (Pos.to_uint p)
                (DecimalPos.Unsigned.to_uint_nonnil p)) as H.
  unfold NilZero.uint_of_string in H.
  destruct (NilZero.string_of_uint (Pos.to_uint p)); [discriminate H|].
  now rewrite H.
Qed.

Lemma string_length_app (a b : string) :
  String.length (a +:+ b) = (String.length a + String.length b)%nat.
Proof.
  induction a as [|x a IH]; [reflexivity|].
  rewrite string_app_cons. simpl. now rewrite IH.
Qed.

Lemma string_app_inj_r (a b s : string) : a +:+ s = b +:+ s -> a = b.
Proof.
  revert b. induction a as [|x a IH]; intros [|y b] H.
  - reflexivity.
  - exfalso. apply (f_equal String.length) in H.
    rewrite !string_length_app in H. simpl in H. lia.
  - exfalso. apply (f_equal String.length) in H.
    rewrite !string_length_app in H. simpl in H. lia.
  - rewrite !string_app_cons in H. injection H as -> H.
    f_equal. now apply IH.
Qed.

(** X13. The number in the name of a frame image reads back as the index
    of the frame: the padding with zeros does not change it, also beyond
    four digits, so no two frames are written to the same file. *)
Theorem frame_names_distinct :
  (forall i, parse_index (PyText.fmt04 i) = Some (Z.of_nat i)) /\
  (forall i j, PyText.fmt04 i = PyText.fmt04 j -> i = j) /\
  (forall i j, frame_path i = frame_path j -> i = j).
Proof.
  assert (Hparse : forall i, parse_index (PyText.fmt04 i) = Some (Z.of_nat i)).
  { intros i. unfold PyText.fmt04.
    apply parse_index_zeros, parse_index_digits. }
  assert (Hinj : forall i j, PyText.fmt04 i = PyText.fmt04 j -> i = j).
  { intros i j Heq. pose proof (Hparse i) as Hi.
    rewrite Heq, Hparse in Hi. injection Hi as Hi. lia. }
  split; [exact Hparse|]. split; [exact Hinj|].
  intros i j Heq. unfold frame_path in Heq.
  apply String.app_inj in Heq. apply String.app_inj in Heq.
  apply Hinj. eapply string_app_inj_r, Heq.
Qed.

Lemma frame_names_distinct_witness :
  parse_index (PyText.fmt04 12) = Some 12 /\ 12%nat = 12%nat.
Proof.
  split.
  - apply (proj1 frame_names_distinct 12%nat).
  - apply (proj2 (proj2 frame_names_distinct) 12%nat 12%nat). reflexivity.
Defined.

End NameProps.

(** ** The program from the command line *)

Module MainProps.

Import PyFloat Sys Player PlayerProps Saver Program PlayVideoProps.

Lemma remove_trace (p : string) (w : world) :
  trace (remove p w).2 = trace w ++ [Remove p].
Proof.
  unfold remove, mbind, M_bind, emit, get_fs, put_fs, raise. simpl.
  destruct (fs w !! p) as [[|]|]; reflexivity.
Qed.

Lemma wait_events_quiet (frame_time start_time : float) (i : Z) (t : float) :
  Forall quiet (wait_events frame_time start_time i t).
Proof.
  unfold wait_events. destruct (ltb _ _); repeat constructor; discriminate.
Qed.

Lemma schedule_quiet (E : env) (frame_time start_time : float)
    (texts : list string) (tick first : nat) :
  Forall quiet (schedule E frame_time start_time tick first texts).
Proof.
  revert tick first. induction texts as [|text texts IH]; intros tick first.
  - constructor.
  - rewrite schedule_cons. apply Forall_app. split; [|apply IH].
    unfold present_events. apply Forall_app. split.
    + apply wait_events_quiet.
    + repeat constructor; discriminate.
Qed.

(** Whatever happens, [play_video] only adds to the trace, and never reads
    from the standard input. *)
Lemma play_video_quiet (cv : Cv2.api) (E : env) (path : string)
    (use_ascii : bool) (w : world) :
  exists new,
    trace (play_video cv E path use_ascii w).2 = trace w ++ new /\
    Forall quiet new.
Proof.
  destruct (frame_interval_defined E) as [ft Hft].
  destruct (to_int (prop_frame_count E)) as [n|e] eqn:Hcount.
  - destruct (child E (extract_argv path temp_audio)) as [e|c wrote] eqn:Hchild.
    + exists [Run (extract_argv path temp_audio)].
      split; [|repeat constructor; discriminate].
      unfold play_video. unfold frame_interval in Hft.
      unfold extract_argv, temp_audio in *.
      destruct (get_terminal_resolution E) as [tw th].
      unfold mbind, M_bind, lift, extract_audio, run, emit, raise.
      rewrite Hft, Hcount. unfold mbind, M_bind. simpl. now rewrite Hchild.
    + rewrite (play_video_steps cv E path use_ascii w ft n c wrote
                 Hft Hcount Hchild).
      change (range_int n) with (Z.of_nat <$> seq 0 (Z.to_nat n)).
      destruct (play_prefix cv E use_ascii ft (clock E (ticks w))
                  (get_terminal_resolution E).1 (get_terminal_resolution E).2
                  (Z.to_nat n) 0 (reads E)
                  {| fs := written (fs w) wrote temp_audio;
                     ticks := S (ticks w);
                     trace := trace w ++ [Run (extract_argv path temp_audio);
                                          Thread (play_audio temp_audio)] |})
        as (k & texts & tail & r & Hplay & _ & _ & Hend).
      rewrite Hplay.
      assert (Htail : Forall quiet tail).
      { destruct Hend as [(_ & _ & ->)|(f & e & _ & _ & _ & ->)];
          [constructor|].
        apply Forall_app. split; [apply wait_events_quiet|].
        repeat constructor; discriminate. }
      destruct r as [[]|e].
      * pose proof (remove_trace temp_audio
                      (advance {| fs := written (fs w) wrote temp_audio;
                                  ticks := S (ticks w);
                                  trace := trace w
                                    ++ [Run (extract_argv path temp_audio);
                                        Thread (play_audio temp_audio)] |}
                               (k + length tail `min` 1)
                               (schedule E ft (clock E (ticks w))
                                         (S (ticks w)) 0 texts ++ tail)))
          as Hrm.
        destruct (remove temp_audio _) as [[[]|e] w'']; simpl in *;
          rewrite Hrm; rewrite <- !app_assoc;
          (eexists; split; [reflexivity|]);
          repeat (apply Forall_app; split);
          try apply schedule_quiet; try exact Htail;
          repeat constructor; discriminate.
      * simpl. rewrite <- !app_assoc.
        eexists. split; [reflexivity|].
        repeat (apply Forall_app; split);
          try apply schedule_quiet; try exact Htail;
          repeat constructor; discriminate.
  - exists []. split; [|constructor].
    unfold play_video. unfold frame_interval in Hft.
    destruct (get_terminal_resolution E). unfold mbind, M_bind, lift.
    rewrite Hft, Hcount. simpl. now rewrite app_nil_r.
Qed.

(** X14. A path that is not a regular file ends the program at once: the
    message is printed, the exit code is 1, and nothing has been run,
    written or read. *)
Theorem main_missing_file (cv : Cv2.api) (E : env) (file : string)
    (ascii : bool) (w : world) :
  fs w !! file <> Some File ->
  main cv E file ascii w =
  (Ok (SysExit 1),
   {| fs := fs w; ticks := ticks w;
      trace := trace w
               ++ [Print ("❌ File not found: " +:+ file +:+ Raster.NL)] |}).
Proof.
  intros Hfile. unfold main, isfile, mbind, M_bind, get_fs, print, emit. simpl.
  destruct (fs w !! file) as [[|]|]; try contradiction; simpl;
    now rewrite string_app_assoc.
Qed.

Lemma main_missing_file_witness :
  main Reference.opencv Samples.faulty_stream "video.mp4" true
       Samples.empty_world =
  (Ok (SysExit 1),
   {| fs := fs Samples.empty_world; ticks := ticks Samples.empty_world;
      trace := trace Samples.empty_world
               ++ [Print ("❌ File not found: " +:+ "video.mp4"
                          +:+ Raster.NL)] |}).
Proof.
  apply (main_missing_file Reference.opencv Samples.faulty_stream "video.mp4"
           true Samples.empty_world).
  discriminate.
Defined.

(** X15. For a video whose audio cannot be extracted to a file, the
    program ends with an exception after the playback and never asks
    whether to save: no input is read, and the file system is as
    before. *)
Theorem no_audio_no_save (cv : Cv2.api) (E : env) (file : string)
    (ascii : bool) (w : world) (c : Z) :
  fs w !! file = Some File ->
  child E (extract_argv file temp_audio) = Exited c false ->
  fs w !! temp_audio = None ->
  (forall x, (main cv E file ascii w).1 <> Ok x) /\
  fs (main cv E file ascii w).2 = fs w /\
  exists new,
    trace (main cv E file ascii w).2 = trace w ++ new /\
    Forall (fun e => e <> Input) new.
Proof.
  intros Hfile Hchild Hnone.
  destruct (without_audio cv E file ascii w c Hchild Hnone) as [Hraise Hfs].
  destruct (play_video_quiet cv E file ascii w) as (new & Htrace & Hquiet).
  unfold main, isfile, mbind, M_bind, get_fs. simpl. rewrite Hfile. simpl.
  destruct (play_video cv E file ascii w) as [[b|e] w'] eqn:Hplay;
    simpl in *.
  - exfalso. now apply (Hraise b).
  - split; [discriminate|]. split; [exact Hfs|].
    exists new. split; [exact Htrace | exact Hquiet].
Qed.

Lemma no_audio_no_save_witness :
  (forall x, (main Reference.opencv MoreSamples.silent_video "dir/video.mp4"
                   true MoreSamples.video_on_disk).1 <> Ok x) /\
  fs (main Reference.opencv MoreSamples.silent_video "dir/video.mp4" true
           MoreSamples.video_on_disk).2 = fs MoreSamples.video_on_disk /\
  exists new,
    trace (main Reference.opencv MoreSamples.silent_video "dir/video.mp4"
                true MoreSamples.video_on_disk).2
      = trace MoreSamples.video_on_disk ++ new /\
    Forall (fun e => e <> Input) new.
Proof.
  apply (no_audio_no_save Reference.opencv MoreSamples.silent_video
           "dir/video.mp4" true MoreSamples.video_on_disk 1).
  - vm_compute. reflexivity.
  - reflexivity.
  - vm_compute. reflexivity.
Defined.

End MainProps.

(** ** Paths and answers *)

Module PathProps.

Import PyText Program.

Lemma rev_app_append (s t : string) :
  String.rev_app s t = String.rev s +:+ t.
Proof.
  unfold String.rev. revert t. induction s as [|a s IH]; intros t.
  - reflexivity.
  - simpl. rewrite (IH (String a t)), (IH (String a "")).
    now rewrite string_app_assoc.
Qed.

Lemma rev_cons (a : ascii) (s : string) :
  String.rev (String a s) = String.rev s +:+ String a "".
Proof. unfold String.rev at 1. simpl. apply rev_app_append. Qed.

Lemma rev_append (s t : string) :
  String.rev (s +:+ t) = String.rev t +:+ String.rev s.
Proof.
  induction s as [|a s IH].
  - simpl. now rewrite string_app_nil_r.
  - rewrite string_app_cons, !rev_cons, IH. apply string_app_assoc.
Qed.

Lemma rev_involutive (s : string) : String.rev (String.rev s) = s.
Proof.
  induction s as [|a s IH]; [reflexivity|].
  rewrite rev_cons, rev_append, IH. reflexivity.
Qed.

Lemma rsplit_no_slash (f : string) :
  count_char "/" f = 0%nat -> rsplit f = ("", f).
Proof.
  induction f as [|c f IH]; intros Hf; [reflexivity|].
  simpl in Hf. destruct (Ascii.eqb c "/") eqn:Hc; [discriminate|].
  cbn [rsplit]. rewrite IH by exact Hf. simpl. now rewrite Hc.
Qed.

Lemma rsplit_slash (d f : string) :
  count_char "/" f = 0%nat -> rsplit (d +:+ "/" +:+ f) = (d +:+ "/", f).
Proof.
  intros Hf. induction d as [|c d IH].
  - change ("" +:+ "/" +:+ f) with (String "/" f).
    cbn [rsplit]. now rewrite (rsplit_no_slash f Hf).
  - rewrite string_app_cons. cbn [rsplit]. rewrite IH.
    destruct d; reflexivity.
Qed.

Lemma ends_with_slash_app (d : string) :
  ends_with_slash (d +:+ "/") = true.
Proof. unfold ends_with_slash. now rewrite rev_append. Qed.

Lemma all_slashes_ends (d : string) :
  all_slashes d = true -> d = "" \/ ends_with_slash d = true.
Proof.
  induction d as [|c d IH]; intros Hd; [now left|]. right.
  simpl in Hd. apply andb_true_iff in Hd as [Hc Hd].
  apply Ascii.eqb_eq in Hc. subst c.
  destruct (IH Hd) as [->|Hend]; [reflexivity|].
  unfold ends_with_slash in *. rewrite rev_cons.
  destruct (String.rev d); [discriminate|exact Hend].
Qed.

Lemma all_slashes_app (d : string) :
  all_slashes (d +:+ "/") = all_slashes d.
Proof.
  induction d as [|c d IH]; [reflexivity|].
  rewrite string_app_cons. simpl. now rewrite IH.
Qed.

Lemma dirname_slash (d f : string) :
  ends_with_slash d = false ->
  count_char "/" f = 0%nat ->
  dirname (d +:+ "/" +:+ f) = if String.eqb d "" then "/" else d.
Proof.
  intros Hd Hf. unfold dirname. rewrite (rsplit_slash d f Hf). simpl.
  rewrite all_slashes_app.
  destruct (all_slashes d) eqn:Hall.
  - destruct (all_slashes_ends d Hall) as [->|Hend]; [reflexivity|].
    congruence.
  - destruct d as [|c d]; [discriminate|].
    change (String.eqb (String c d) "") with false. cbv iota.
    rewrite rev_append.
    change (String.rev "/") with "/". rewrite string_app_cons. simpl.
    unfold ends_with_slash in Hd.
    destruct (String.rev (String c d)) as [|x r] eqn:Hrev.
    + apply (f_equal String.rev) in Hrev. rewrite rev_involutive in Hrev.
      discriminate.
    + simpl. rewrite Hd. rewrite <- Hrev. apply rev_involutive.
Qed.

(** X16. The saved video is put beside the original, under the original's
    name with [terminal+] in front: for a bare file name in the current
    directory, and for a file in a directory. *)
Theorem output_beside_input (d f : string) :
  ends_with_slash d = false ->
  count_char "/" f = 0%nat ->
  output_path_of f = "terminal+" +:+ f /\
  output_path_of (d +:+ "/" +:+ f) = d +:+ "/terminal+" +:+ f.
Proof.
  intros Hd Hf. unfold output_path_of, basename. split.
  - unfold dirname. rewrite (rsplit_no_slash f Hf). reflexivity.
  - rewrite (dirname_slash d f Hd Hf), (rsplit_slash d f Hf).
    destruct d as [|c d]; [reflexivity|].
    change (String.eqb (String c d) "") with false. cbv iota.
    unfold join. change (String.prefix "/" ("terminal+" +:+ f)) with false.
    cbv iota. rewrite Hd. reflexivity.
Qed.

Lemma output_beside_input_witness :
  output_path_of "video.mp4" = "terminal+" +:+ "video.mp4" /\
  output_path_of ("dir" +:+ "/" +:+ "video.mp4")
    = "dir" +:+ "/terminal+" +:+ "video.mp4".
Proof.
  apply (output_beside_input "dir" "video.mp4"); reflexivity.
Defined.

End PathProps.

Module AnswerProps.

Import PyText Program PathProps.

Lemma blank_app (a b : string) : blank (a +:+ b) = blank a && blank b.
Proof.
  induction a as [|c a IH]; [reflexivity|].
  rewrite string_app_cons. simpl. now rewrite IH, andb_assoc.
Qed.

Lemma blank_rev (s : string) : blank (String.rev s) = blank s.
Proof.
  induction s as [|c s IH]; [reflexivity|].
  rewrite rev_cons, blank_app, IH. simpl.
  rewrite andb_true_r. apply andb_comm.
Qed.

Lemma lstrip_blank (a s : string) (c : ascii) :
  blank a = true -> starts_no_space c ->
  lstrip (a +:+ String c s) = String c s.
Proof.
  intros Ha (Hc & Hc2 & Hc3). induction a as [|x a IH].
  - change ("" +:+ String c s) with (String c s).
    cbn [lstrip]. rewrite Hc.
    destruct s as [|c2 [|c3 s]]; rewrite ?Hc2, ?Hc3; reflexivity.
  - cbn [blank] in Ha. apply andb_true_iff in Ha as [Hx Ha].
    rewrite string_app_cons. cbn [lstrip]. rewrite Hx. now apply IH.
Qed.

Lemma lstrip_backwards_blank (a : string) (c : ascii) :
  blank a = true -> is_space c = false ->
  lstrip_backwards (a +:+ String c "") = String c "".
Proof.
  intros Ha Hc. induction a as [|x a IH].
  - change ("" +:+ String c "") with (String c "").
    cbn [lstrip_backwards]. now rewrite Hc.
  - cbn [blank] in Ha. apply andb_true_iff in Ha as [Hx Ha].
    rewrite string_app_cons. cbn [lstrip_backwards]. rewrite Hx. now apply IH.
Qed.

Lemma strip_blank (a b : string) (c : ascii) :
  blank a = true -> blank b = true -> starts_no_space c ->
  strip (a +:+ String c b) = String c "".
Proof.
  intros Ha Hb Hc. unfold strip.
  rewrite (lstrip_blank a b c Ha Hc), rev_cons.
  rewrite (lstrip_backwards_blank (String.rev b) c); [reflexivity| |apply Hc].
  now rewrite blank_rev.
Qed.

(** White space of more than one byte is removed as well: the answer
    [U+00A0 y U+3000] is the choice [y]. *)
Lemma strip_wide_spaces :
  lower (strip (String (ascii_of_nat 194) (String (ascii_of_nat 160)
           (String "y" (String (ascii_of_nat 227) (String (ascii_of_nat 128)
              (String (ascii_of_nat 128) ""))))))) = "y".
Proof. reflexivity. Qed.

(** X17. The answer to the save prompt is read without regard to case and
    to the white space around it: a [y] or a [Y] between any two runs of
    white space is taken as the choice [y]. *)
Theorem yes_with_spaces (a b : string) (c : ascii) :
  blank a = true -> blank b = true ->
  c = "y"%char \/ c = "Y"%char ->
  lower (strip (a +:+ String c b)) = "y".
Proof.
  intros Ha Hb [->| ->]; rewrite strip_blank; try assumption;
    try reflexivity; (split; [|split]; reflexivity).
Qed.

Lemma yes_with_spaces_witness :
  lower (strip ("  " +:+ String "Y"%char (String (ascii_of_nat 10) ""))) = "y".
Proof.
  apply (yes_with_spaces "  " (String (ascii_of_nat 10) "") "Y"%char).
  - reflexivity.
  - reflexivity.
  - right. reflexivity.
Defined.

End AnswerProps.

(** ** The original video *)

Module OriginalProps.

Import PyFloat Sys Saver PyText Program PathProps SaveRunProps.

Lemma rsplit_app (p : string) : (rsplit p).1 +:+ (rsplit p).2 = p.
Proof.
  induction p as [|c p IH]; [reflexivity|].
  cbn [rsplit]. destruct (rsplit p) as [head tail]. simpl in IH.
  destruct (String.eqb_spec head "") as [->|_].
  - change ("" +:+ tail) with tail in IH. subst tail.
    destruct (Ascii.eqb_spec c "/") as [->|_]; reflexivity.
  - change ((String c head, tail).1 +:+ (String c head, tail).2)
      with (String c (head +:+ tail)).
    now rewrite IH.
Qed.

Lemma ends_with_slash_cons (c : ascii) (s : string) :
  ends_with_slash s = true -> ends_with_slash (String c s) = true.
Proof.
  unfold ends_with_slash. rewrite rev_cons.
  destruct (String.rev s); [discriminate|]. now rewrite string_app_cons.
Qed.

Lemma rsplit_head (p : string) :
  (rsplit p).1 = "" \/ ends_with_slash (rsplit p).1 = true.
Proof.
  induction p as [|c p IH]; [now left|].
  cbn [rsplit]. destruct (rsplit p) as [head tail]. simpl in IH.
  destruct (String.eqb_spec head "") as [->|Hne].
  - destruct (Ascii.eqb_spec c "/") as [->|_]; [now right | now left].
  - right. simpl. apply ends_with_slash_cons.
    destruct IH as [->|Hend]; [contradiction | exact Hend].
Qed.

Lemma join_relative (a b : string) :
  String.prefix "/" b = false ->
  exists sep, join a b = (a +:+ sep) +:+ b.
Proof.
  intros Hb. unfold join. rewrite Hb.
  destruct (String.eqb a "" || ends_with_slash a).
  - exists "". now rewrite string_app_nil_r.
  - exists "/". now rewrite string_app_assoc.
Qed.

(** The output path is never the path of the original. *)
Lemma output_differs (p : string) : output_path_of p <> p.
Proof.
  unfold output_path_of, basename. intros Heq.
  destruct (join_relative (dirname p) ("terminal+" +:+ (rsplit p).2) eq_refl)
    as [sep Hjoin].
  rewrite Hjoin in Heq.
  rewrite <- (rsplit_app p) in Heq at 3.
  rewrite <- (string_app_assoc _ "terminal+") in Heq.
  apply NameProps.string_app_inj_r in Heq.
  assert (Hplus : ends_with_slash ((dirname p +:+ sep) +:+ "terminal+")
                  = false).
  { unfold ends_with_slash. now rewrite rev_append. }
  rewrite Heq in Hplus.
  destruct (rsplit_head p) as [Hnil|Hend]; [|congruence].
  rewrite Hnil in Heq. destruct (dirname p +:+ sep); discriminate.
Qed.

(** *** Paths in normal form *)

Lemma split_on_nonempty (c : ascii) (s : string) : split_on c s <> [].
Proof.
  destruct s as [|x s]; [discriminate|]. cbn [split_on].
  destruct (Ascii.eqb x c); [discriminate|].
  destruct (split_on c s); discriminate.
Qed.

Lemma split_on_sep (c : ascii) (a b : string) :
  split_on c (a +:+ String c b) = split_on c a ++ split_on c b.
Proof.
  induction a as [|x a IH].
  - change ("" +:+ String c b) with (String c b).
    cbn [split_on]. now rewrite Ascii.eqb_refl.
  - rewrite string_app_cons. cbn [split_on]. rewrite IH.
    destruct (Ascii.eqb x c); [reflexivity|].
    pose proof (split_on_nonempty c a) as Hne.
    destruct (split_on c a) as [|piece pieces]; [contradiction|reflexivity].
Qed.

Lemma split_on_whole (c : ascii) (f : string) :
  count_char c f = 0%nat -> split_on c f = [f].
Proof.
  induction f as [|x f IH]; intros Hf; [reflexivity|].
  cbn [count_char] in Hf. cbn [split_on].
  destruct (Ascii.eqb x c); [discriminate|]. now rewrite IH.
Qed.

Lemma rsplit_tail_plain (p : string) : count_char "/" (rsplit p).2 = 0%nat.
Proof.
  induction p as [|c p IH]; [reflexivity|].
  pose proof (rsplit_app p) as Happ.
  cbn [rsplit]. destruct (rsplit p) as [head tail]. simpl in IH.
  destruct (String.eqb_spec head "") as [->|_]; [|exact IH].
  change (("", tail).1 +:+ ("", tail).2) with tail in Happ. subst tail.
  destruct (Ascii.eqb c "/") eqn:Hc; [exact IH|].
  simpl. now rewrite Hc.
Qed.

Lemma ends_with_slash_inv (d : string) :
  ends_with_slash d = true -> exists d', d = d' +:+ "/".
Proof.
  unfold ends_with_slash. intros Hd.
  destruct (String.rev d) as [|c r] eqn:Hrev; [discriminate|].
  apply Ascii.eqb_eq in Hd. subst c.
  exists (String.rev r).
  rewrite <- (rev_involutive d), Hrev. apply rev_cons.
Qed.

(** A path is a name without a slash, or a directory part, a slash and
    such a name. *)
Lemma last_slash (p : string) :
  count_char "/" p = 0%nat \/
  exists d f, p = d +:+ "/" +:+ f /\ count_char "/" f = 0%nat.
Proof.
  pose proof (rsplit_app p) as Happ.
  pose proof (rsplit_tail_plain p) as Htail.
  destruct (rsplit_head p) as [Hnil|Hend].
  - left. rewrite Hnil in Happ. now rewrite <- Happ.
  - right. destruct (ends_with_slash_inv _ Hend) as [d Hd].
    exists d, (rsplit p).2. split; [|exact Htail].
    rewrite <- Happ at 1. rewrite Hd. apply string_app_assoc.
Qed.

Lemma normal_no_trailing_slash (d : string) :
  normal_relative d = true -> ends_with_slash d = false.
Proof.
  intros Hd. destruct (ends_with_slash d) eqn:Hend; [|reflexivity].
  destruct (ends_with_slash_inv d Hend) as [d' ->].
  unfold normal_relative in Hd.
  change (d' +:+ "/") with (d' +:+ String "/" "") in Hd.
  rewrite split_on_sep, forallb_app in Hd.
  apply andb_true_iff in Hd as [_ Hd]. discriminate Hd.
Qed.

(** The output path of an original in normal form is in normal form. *)
Lemma normal_output (p : string) :
  normal_relative p = true -> normal_relative (output_path_of p) = true.
Proof.
  intros Hp.
  assert (Hname : forall f, count_char "/" f = 0%nat ->
            forallb (fun x => negb (String.eqb x "") && negb (String.eqb x ".")
                              && negb (String.eqb x ".."))
                    (split_on "/" ("terminal+" +:+ f)) = true).
  { intros f Hf. rewrite split_on_whole; [reflexivity|].
    rewrite TextProps.count_char_app, Hf. reflexivity. }
  destruct (last_slash p) as [Hf|(d & f & -> & Hf)].
  - unfold output_path_of, basename, dirname.
    rewrite (rsplit_no_slash p Hf). now apply Hname.
  - unfold normal_relative in Hp.
    change (d +:+ "/" +:+ f) with (d +:+ String "/" f) in Hp.
    rewrite split_on_sep, forallb_app in Hp.
    apply andb_true_iff in Hp as [Hd _].
    pose proof (normal_no_trailing_slash d Hd) as Hend.
    unfold output_path_of, basename.
    rewrite (dirname_slash d f Hend Hf), (rsplit_slash d f Hf).
    cbn [snd].
    destruct d as [|c d]; [discriminate Hd|].
    change (String.eqb (String c d) "") with false. cbv iota.
    unfold join. change (String.prefix "/" ("terminal+" +:+ f)) with false.
    cbv iota. rewrite Hend.
    change (String.eqb (String c d) "" || false) with false. cbv iota.
    unfold normal_relative.
    change (String c d +:+ "/" +:+ "terminal+" +:+ f)
      with (String c d +:+ String "/" ("terminal+" +:+ f)).
    rewrite split_on_sep, forallb_app.
    apply andb_true_iff. split; [exact Hd | now apply Hname].
Qed.

(** X7. A save that reaches the encoder leaves every other file as it
    was. For an original and a path [p] that are relative paths in normal
    form, so that the output path is one too and these texts name
    different files whenever they differ: when [p] is not the temporary
    directory or below it, not the temporary audio file and not the output
    file, the file of [p] is afterwards what it was before. *)
Theorem save_leaves_other_files (cv : Cv2.api) (E : env)
    (original_path : string) (use_ascii : bool) (w : world) (line : string)
    (n : Z) (frames : list Cv2.frame) (c1 c2 : Z) (wrote1 wrote2 : bool)
    (p : string) :
  stdin E = Some line ->
  lower (strip line) = "y" ->
  to_int (prop_frame_count E) = Ok n ->
  collect_frames cv use_ascii (get_terminal_resolution E).1
                 (get_terminal_resolution E).2 (range_int n) (reads E) []
  = Ok frames ->
  fs w !! temp_frames_dir <> Some File ->
  child E (extract_argv original_path temp_audio_output)
  = Exited c1 wrote1 ->
  child E (encoder (effective_fps E) temp_audio_output
                   (output_path_of original_path)) = Exited c2 wrote2 ->
  normal_relative original_path = true ->
  normal_relative p = true ->
  below temp_frames_dir p = false ->
  p <> temp_audio_output ->
  p <> output_path_of original_path ->
  normal_relative (output_path_of original_path) = true /\
  fs (save_as_video cv E original_path use_ascii w).2 !! p = fs w !! p.
Proof.
  intros Hline Hchoice Hcount Hframes Hdir Hextract Hencode
    Hnormal Hp Hbelow Hta Hout.
  split; [now apply normal_output|].
  rewrite (SaveRunClaims.save_as_video_run cv E original_path use_ascii w
             line n frames c1 c2 wrote1 wrote2
             Hline Hchoice Hcount Hframes Hdir Hextract Hencode).
  destruct (saved_fs _ _ _ _ _ !! temp_audio_output) as [[|]|]; simpl;
    rewrite ?lookup_delete_ne by congruence;
    now apply saved_fs_lookup_other.
Qed.

Lemma save_leaves_other_files_witness :
  normal_relative (output_path_of "dir/video.mp4") = true /\
  fs (save_as_video Reference.opencv Samples.encoder_fails "dir/video.mp4"
                    true MoreSamples.video_on_disk).2 !! "dir/notes.txt"
  = fs MoreSamples.video_on_disk !! "dir/notes.txt".
Proof.
  apply (save_leaves_other_files Reference.opencv Samples.encoder_fails
           "dir/video.mp4" true MoreSamples.video_on_disk " Y " 1
           [Samples.red_black] 0 1 true false "dir/notes.txt");
    try reflexivity; discriminate.
Defined.

(** X18. The save step never writes over the video it was given. For an
    original given as a relative path in normal form, the output path
    differs from the path of the original, and a save that reaches the
    encoder leaves the original as it was, unless the original is itself
    the temporary directory, a file below it or the temporary audio
    file. *)
Theorem original_survives_save (cv : Cv2.api) (E : env)
    (original_path : string) (use_ascii : bool) (w : world) (line : string)
    (n : Z) (frames : list Cv2.frame) (c1 c2 : Z) (wrote1 wrote2 : bool) :
  stdin E = Some line ->
  lower (strip line) = "y" ->
  to_int (prop_frame_count E) = Ok n ->
  collect_frames cv use_ascii (get_terminal_resolution E).1
                 (get_terminal_resolution E).2 (range_int n) (reads E) []
  = Ok frames ->
  fs w !! temp_frames_dir <> Some File ->
  child E (extract_argv original_path temp_audio_output)
  = Exited c1 wrote1 ->
  child E (encoder (effective_fps E) temp_audio_output
                   (output_path_of original_path)) = Exited c2 wrote2 ->
  normal_relative original_path = true ->
  below temp_frames_dir original_path = false ->
  original_path <> temp_audio_output ->
  normal_relative (output_path_of original_path) = true /\
  output_path_of original_path <> original_path /\
  fs (save_as_video cv E original_path use_ascii w).2 !! original_path
  = fs w !! original_path.
Proof.
  intros Hline Hchoice Hcount Hframes Hdir Hextract Hencode
    Hnormal Hbelow Hta.
  split; [now apply normal_output|].
  split; [apply output_differs|].
  rewrite (SaveRunClaims.save_as_video_run cv E original_path use_ascii w
             line n frames c1 c2 wrote1 wrote2
             Hline Hchoice Hcount Hframes Hdir Hextract Hencode).
  pose proof (output_differs original_path) as Hout.
  destruct (saved_fs _ _ _ _ _ !! temp_audio_output) as [[|]|]; simpl;
    rewrite ?lookup_delete_ne by congruence;
    apply saved_fs_lookup_other; congruence.
Qed.

Lemma original_survives_save_witness :
  normal_relative (output_path_of "dir/video.mp4") = true /\
  output_path_of "dir/video.mp4" <> "dir/video.mp4" /\
  fs (save_as_video Reference.opencv Samples.encoder_fails "dir/video.mp4"
                    true MoreSamples.video_on_disk).2 !! "dir/video.mp4"
  = fs MoreSamples.video_on_disk !! "dir/video.mp4".
Proof.
  apply (original_survives_save Reference.opencv Samples.encoder_fails
           "dir/video.mp4" true MoreSamples.video_on_disk " Y " 1
           [Samples.red_black] 0 1 true false);
    try reflexivity; discriminate.
Defined.

End OriginalProps.

(** ** Playback fails only in the resize *)

Module TotalProps.

Import PyFloat Sys Player PlayerProps Program PlayVideoProps.

(** The rasterizer returns the text of the grid of the resized frame: the
    glyph lookup and the loops over the pixels cannot raise. *)
Lemma rasterize_resized (cv : Cv2.api) (use_ascii : bool) (f g : Cv2.frame)
    (tw th : Z) :
  Cv2.resize cv f tw (th - 2) = Ok g ->
  rasterize cv use_ascii f tw th
  = Ok (Raster.grid_text (if use_ascii then Raster.ascii_grid cv g
                          else Raster.block_grid g)).
Proof.
  intros Hg. unfold rasterize. destruct use_ascii.
  - now apply RasterProps.frame_to_ascii_colored_text.
  - now apply RasterProps.frame_to_colored_blocks_text.
Qed.

Lemma rasterize_all (cv : Cv2.api) (use_ascii : bool) (tw th : Z)
    (frames : list Cv2.frame) :
  Forall (fun f => exists g, Cv2.resize cv f tw (th - 2) = Ok g) frames ->
  exists texts,
    Forall2 (fun f text => rasterize cv use_ascii f tw th = Ok text /\
                           grid_text_of cv use_ascii tw th f text)
            frames texts.
Proof.
  intros Hall. induction Hall as [|f frames [g Hg] _ [texts IH]].
  - exists []. constructor.
  - eexists (_ :: texts). constructor; [|exact IH]. split.
    + apply (rasterize_resized cv use_ascii f g tw th Hg).
    + exists g. split; [exact Hg | reflexivity].
Qed.

(** X19. A playback whose audio is extracted can fail only in
    [cv2.resize]: when every frame read before the end of the stream can be
    resized to the grid of the terminal, [play_video] returns the mode
    flag, what it has printed is, frame by frame in the order of the
    stream, the clearing of the screen followed by the text of the grid of
    the resized frame, and the temporary audio file is gone. *)
Theorem playback_fails_only_in_resize (cv : Cv2.api) (E : env)
    (path : string) (use_ascii : bool) (w : world) (n c : Z) :
  to_int (prop_frame_count E) = Ok n ->
  child E (extract_argv path temp_audio) = Exited c true ->
  fs w !! temp_audio <> Some Dir ->
  Forall (fun f => exists g,
            Cv2.resize cv f (get_terminal_resolution E).1
                       ((get_terminal_resolution E).2 - 2) = Ok g)
         (shown (Z.to_nat n) (reads E)) ->
  exists texts,
    Forall2 (fun f text =>
               rasterize cv use_ascii f (get_terminal_resolution E).1
                         (get_terminal_resolution E).2 = Ok text /\
               grid_text_of cv use_ascii (get_terminal_resolution E).1
                            (get_terminal_resolution E).2 f text)
            (shown (Z.to_nat n) (reads E)) texts /\
    (play_video cv E path use_ascii w).1 = Ok use_ascii /\
    printed (play_video cv E path use_ascii w).2
      = printed w ++ concat ((fun text => [clear_text; text +:+ Raster.NL])
                             <$> texts) /\
    fs (play_video cv E path use_ascii w).2 = delete temp_audio (fs w).
Proof.
  intros Hcount Hchild Hdir Hframes.
  destruct (rasterize_all cv use_ascii (get_terminal_resolution E).1
              (get_terminal_resolution E).2 _ Hframes) as [texts Hall].
  destruct (frame_interval_defined E) as [ft Hft].
  exists texts. split; [exact Hall|].
  rewrite (play_video_run cv E path use_ascii w ft n c texts
             Hft Hcount Hchild Hdir).
  2:{ eapply Forall2_impl; [exact Hall|]. now intros f text [Htext _]. }
  split; [reflexivity|]. split; [|reflexivity].
  unfold printed. simpl. rewrite omap_app. f_equal.
  change (omap ?g (?a :: ?b :: ?l)) with (omap g l).
  rewrite omap_app, printed_schedule. apply app_nil_r.
Qed.

Lemma playback_fails_only_in_resize_witness :
  exists texts,
    Forall2 (fun f text =>
               rasterize Reference.opencv false f
                 (get_terminal_resolution MoreSamples.two_frames).1
                 (get_terminal_resolution MoreSamples.two_frames).2 = Ok text /\
               grid_text_of Reference.opencv false
                 (get_terminal_resolution MoreSamples.two_frames).1
                 (get_terminal_resolution MoreSamples.two_frames).2 f text)
            (shown (Z.to_nat 2) (reads MoreSamples.two_frames)) texts /\
    (play_video Reference.opencv MoreSamples.two_frames
       "video.mp4" false Samples.empty_world).1 = Ok false /\
    printed (play_video Reference.opencv MoreSamples.two_frames
       "video.mp4" false Samples.empty_world).2
      = printed Samples.empty_world
        ++ concat ((fun text => [clear_text; text +:+ Raster.NL]) <$> texts) /\
    fs (play_video Reference.opencv MoreSamples.two_frames
       "video.mp4" false Samples.empty_world).2
      = delete temp_audio (fs Samples.empty_world).
Proof.
  apply (playback_fails_only_in_resize Reference.opencv
           MoreSamples.two_frames "video.mp4" false Samples.empty_world 2 0).
  - reflexivity.
  - reflexivity.
  - discriminate.
  - repeat constructor; eexists; reflexivity.
Defined.

End TotalProps.
